(** * Stock sector data analysis: a shallow embedding of the numeric core

    The development follows the Python package [stock_analysis]
    ([base_analyzer.py], [correlation_analyzer.py], [cluster_analyzer.py],
    [time_window_analyzer.py]), the script [correlation_analysis.py] and the
    retry loop of [data_collector.py].

    The analyzers are thin layers over pandas, numpy and scikit-learn.  The
    parts of those libraries that the analyzers call are given here as
    executable definitions (module [Pandas]) or as interfaces (the classes
    [DateParser], [Argsort], [Sqrt], [Sklearn] and [StandardScaler]); the
    analyzers themselves are transcribed method by method.

    Conventions of the embedding:
    - a float64 cell is a [float]: [NaN], a signed infinity, or a finite value
      carried as a reduced fraction.  Arithmetic on finite values is exact
      (rounding and signed zeros are outside the model);
    - a cell of an object column is a string or is missing;
    - the sort of an index is any sort: which of two rows of one date comes
      first is not fixed, and the theorems hold for every order that a sort
      can give;
    - a pandas object is a value: [DataFrame] is an index with an ordered list
      of named columns, [Series] an index with one column;
    - a Python exception is a value of [Exception]; a method that may raise
      returns a [result];
    - logging and plotting calls have no effect on the values computed and are
      left out; the warning of [calculate_rolling_correlation] is kept because
      it is all that tells its failure path from an ordinary return. *)

From Stdlib Require Import ZArith QArith Qreduction Qabs List String Bool Lia Lqa.
From Stdlib Require Import Znumtheory.
From Stdlib Require Import Permutation Sorted.
From Stdlib Require OrdersEx.
From stdpp Require Import base option list gmap.
Import ListNotations.

Local Open Scope string_scope.
Local Open Scope list_scope.

(* ================================================================== *)
(** * Part I: definitions                                              *)
(* ================================================================== *)

(** ** float64 values *)

Inductive float : Type :=
| NaN : float
| Inf (negative : bool) : float
| Fin (q : Q) : float.

Module Float.

Definition zero : float := Fin 0.
Definition one : float := Fin 1.

Definition isnan (x : float) : bool :=
  match x with NaN => true | _ => false end.

Definition finite (x : float) : option Q :=
  match x with Fin q => Some q | _ => None end.

Definition Qis0 (q : Q) : bool := (Qnum q =? 0)%Z.
Definition Qneg (q : Q) : bool := (Qnum q <? 0)%Z.

(** [a / b] as numpy computes it on float64 arrays: no exception, a zero
    divisor gives an infinity or NaN. *)
Definition div (a b : float) : float :=
  match a, b with
  | NaN, _ | _, NaN => NaN
  | Inf _, Inf _ => NaN
  | Inf s, Fin y => Inf (xorb s (Qneg y))
  | Fin _, Inf _ => Fin 0
  | Fin x, Fin y =>
      if Qis0 y then (if Qis0 x then NaN else Inf (Qneg x))
      else Fin (Qred (x / y))
  end.

Definition sub (a b : float) : float :=
  match a, b with
  | NaN, _ | _, NaN => NaN
  | Inf s, Inf s' => if Bool.eqb s s' then NaN else Inf s
  | Inf s, Fin _ => Inf s
  | Fin _, Inf s => Inf (negb s)
  | Fin x, Fin y => Fin (Qred (x - y))
  end.

Definition mul (a b : float) : float :=
  match a, b with
  | NaN, _ | _, NaN => NaN
  | Inf s, Inf s' => Inf (xorb s s')
  | Inf s, Fin y | Fin y, Inf s => if Qis0 y then NaN else Inf (xorb s (Qneg y))
  | Fin x, Fin y => Fin (Qred (x * y))
  end.

(** Python's [abs] and [>] on floats; every comparison with NaN is false. *)
Definition abs (a : float) : float :=
  match a with
  | NaN => NaN
  | Inf _ => Inf false
  | Fin x => Fin (Qabs x)
  end.

Definition ltb (a b : float) : bool :=
  match a, b with
  | NaN, _ | _, NaN => false
  | Inf s, Inf s' => s && negb s'
  | Inf s, Fin _ => s
  | Fin _, Inf s => negb s
  | Fin x, Fin y => negb (Qle_bool y x)
  end.

Definition gtb (a b : float) : bool := ltb b a.

Definition eqb (a b : float) : bool :=
  match a, b with
  | Inf s, Inf s' => Bool.eqb s s'
  | Fin x, Fin y => Qeq_bool x y
  | _, _ => false
  end.

End Float.

(** ** Exceptions and results *)

Inductive Exception : Type :=
| ValueError_missing_columns (required_cols : list string)
    (* the ValueError of _prepare_data, base_analyzer.py:80; its message
       lists required_cols *)
| ValueError_not_enough_data
    (* the ValueError of calculate_rolling_correlation,
       time_window_analyzer.py:25 *)
| ValueError_duplicate_labels
    (* pandas: cannot reindex on an axis with duplicate labels *)
| ValueError_sklearn
    (* scikit-learn rejects the input of KMeans.fit or silhouette_score *)
| KeyError (key : string)
| TypeError
    (* a string divided by a string *)
| ParserError.
    (* pd.to_datetime rejects a cell *)

Inductive result (A : Type) : Type :=
| Ok (a : A)
| Raise (e : Exception).
Arguments Ok {A} a.
Arguments Raise {A} e.

(** [result] is an error monad; [x ← m; k] runs [k] unless [m] raised. *)
#[global] Instance result_ret : MRet result := fun A a => Ok a.
#[global] Instance result_bind : MBind result := fun A B k m =>
  match m with
  | Ok a => k a
  | Raise e => Raise e
  end.

#[global] Instance result_fmap : FMap result := fun A B f m =>
  match m with
  | Ok a => Ok (f a)
  | Raise e => Raise e
  end.

(** ** pandas objects *)

Inductive Column : Type :=
| NumCol (v : list float)             (* dtype float64 / int64 *)
| ObjCol (v : list (option string)).  (* dtype object: strings, [None] where
                                         the cell is missing *)

Inductive Cell : Type :=
| CNum (x : float)
| CStr (s : string).

Record Series : Type := mkSeries {
  s_index : list Z;
  s_values : list float
}.

Record DataFrame : Type := mkDataFrame {
  index : list Z;
  columns : list (string * Column)
}.

(** [pd.to_datetime] on one cell: the timestamp in nanoseconds, or [None]
    where pandas raises. *)
Class DateParser : Type := to_datetime : Cell -> option Z.

(** A correlation table: the instrument names, on both axes, and the cell at
    a row and column position ([.iloc[i, j]]). *)
Record CorrelationMatrix : Type := mkCorrelationMatrix {
  names : list string;
  iloc : nat -> nat -> float
}.

(** The table of [DataFrame.rolling(window).corr()]: rows labelled by date
    and instrument, one column per instrument.  [pd.DataFrame()] is the table
    without rows and columns. *)
Record PairwiseFrame : Type := mkPairwiseFrame {
  p_index : list (Z * string);
  p_columns : list (string * list float)
}.

(** The square root of the numeric libraries ([sqrt] in pandas' [nancorr],
    [np.sqrt]) on non-negative finite values. *)
Class Sqrt : Type := sqrt : Q -> Q.

(** What the theorems ask of a square root: it respects equality of
    fractions and is exact on squares. *)
Class SqrtLaws `{Sqrt} : Prop := {
  sqrt_proper : forall x y : Q, (x == y)%Q -> (sqrt x == sqrt y)%Q;
  sqrt_square : forall s : Q, (0 <= s)%Q -> (sqrt (s * s) == s)%Q
}.

(** The sort behind [sort_index]: numpy's [argsort] on the labels, which
    gives the positions of the labels in ascending label order.  pandas asks
    for [kind='quicksort'], which is not a stable sort: the order in which two
    rows of one label come out is decided by the algorithm (insertion sort on
    short arrays, a partitioning sort on longer ones; no sort at all where the
    labels already ascend) and is left open here. *)
Class Argsort : Type := argsort : list Z -> list nat.

Module Pandas.

(** A missing cell of an object column is the float NaN. *)
Definition cell (o : option string) : Cell :=
  match o with
  | Some s => CStr s
  | None => CNum NaN
  end.

Definition cells (c : Column) : list Cell :=
  match c with
  | NumCol v => List.map CNum v
  | ObjCol v => List.map cell v
  end.

(** [name in df.columns] *)
Definition has_column (df : DataFrame) (name : string) : bool :=
  existsb (String.eqb name) (List.map fst (columns df)).

Fixpoint assoc {A : Type} (name : string) (l : list (string * A)) : option A :=
  match l with
  | [] => None
  | (n, a) :: l' => if String.eqb name n then Some a else assoc name l'
  end.

(** [df[name]] *)
Definition getitem (df : DataFrame) (name : string) : result Column :=
  match assoc name (columns df) with
  | Some c => Ok c
  | None => Raise (KeyError name)
  end.

(** [Series.fillna(method='ffill')]: a missing value takes the last value
    seen; [last] is NaN until a value has been seen. *)
Fixpoint ffill_from (last : float) (v : list float) : list float :=
  match v with
  | [] => []
  | x :: v' =>
      let y := if Float.isnan x then last else x in
      y :: ffill_from y v'
  end.

Definition ffill (v : list float) : list float := ffill_from NaN v.

(** [Series.fillna(value)] *)
Definition fillna (value : float) (v : list float) : list float :=
  List.map (fun x => if Float.isnan x then value else x) v.

(** [Series.shift(1)] *)
Definition shift (v : list float) : list float :=
  firstn (length v) (NaN :: v).

(** [Series.pct_change()] with its defaults [periods=1, fill_method='pad']:
    [data = self.fillna(method='pad'); data.div(data.shift(1)) - 1]. *)
Definition pct_change (v : list float) : list float :=
  let data := ffill v in
  zip_with (fun cur prev => Float.sub (Float.div cur prev) Float.one) data (shift data).

(** [fillna(method='pad')] on a column of dtype object. *)
Fixpoint ffill_obj_from (last : option string) (v : list (option string))
  : list (option string) :=
  match v with
  | [] => []
  | x :: v' =>
      let y := match x with Some _ => x | None => last end in
      y :: ffill_obj_from y v'
  end.

Definition ffill_obj (v : list (option string)) : list (option string) :=
  ffill_obj_from None v.

Definition notna_obj (o : option string) : bool :=
  match o with Some _ => true | None => false end.

(** Whether some row of [data] and the row before it both hold a value;
    [prev] is the cell that [shift(1)] puts in front of the first row. *)
Definition adjacent_values (prev : option string) (data : list (option string)) : bool :=
  let shifted := firstn (length data) (prev :: data) in
  existsb (fun p => notna_obj (fst p) && notna_obj (snd p)) (combine data shifted).

(** [Series.pct_change()] on a column of dtype object.  pandas divides an
    object array on the rows where both operands hold a value
    ([_masked_arith_op]) and leaves NaN on the other rows.  Python has no
    division of a string by a string, so the call raises as soon as a row and
    the row before it both hold a string; otherwise every change is NaN. *)
Definition pct_change_obj (v : list (option string)) : result (list float) :=
  let data := ffill_obj v in
  if adjacent_values None data then Raise TypeError
  else Ok (List.map (fun _ => NaN) data).

(** [df[name].pct_change()] for a column of either dtype. *)
Definition pct_change_series (c : Column) : result (list float) :=
  match c with
  | NumCol v => Ok (pct_change v)
  | ObjCol v => pct_change_obj v
  end.

(** [Series.dropna()] *)
Definition dropna (s : Series) : Series :=
  let kept := List.filter (fun p => negb (Float.isnan (snd p)))
                          (combine (s_index s) (s_values s)) in
  mkSeries (List.map fst kept) (List.map snd kept).

(** A stable sort, for Python's [list.sort] and for numpy's sort of a short
    array: [insert_by le x l] puts [x] in front of the first element it is
    below, so [x], which comes from an earlier position than the elements of
    [l], stays ahead of its equals. *)
Fixpoint insert_by {A : Type} (le : A -> A -> bool) (x : A) (l : list A) : list A :=
  match l with
  | [] => [x]
  | y :: l' => if le x y then x :: l else y :: insert_by le x l'
  end.

Definition stable_sort {A : Type} (le : A -> A -> bool) (l : list A) : list A :=
  foldr (insert_by le) [] l.

Definition le_rel {A : Type} (le : A -> A -> bool) (a b : A) : Prop := le a b = true.

Definition key_le (p p' : Z * nat) : bool := (fst p <=? fst p')%Z.

(** Each label with its position. *)
Definition keyed (labels : list Z) : list (Z * nat) :=
  combine labels (seq 0 (length labels)).

(** [take(indexer)] on one axis *)
Definition take_rows {A : Type} (indexer : list nat) (l : list A) : list A :=
  omap (fun i => l !! i) indexer.

Definition take_column (indexer : list nat) (c : Column) : Column :=
  match c with
  | NumCol v => NumCol (take_rows indexer v)
  | ObjCol v => ObjCol (take_rows indexer v)
  end.

(** [df.sort_index(inplace=True)]: [indexer = nargsort(index)], then every
    axis takes the rows at [indexer]. *)
Definition sort_index `{Argsort} (df : DataFrame) : DataFrame :=
  let indexer := argsort (index df) in
  mkDataFrame (take_rows indexer (index df))
              (List.map (fun nc => (fst nc, take_column indexer (snd nc))) (columns df)).

(** [df[name] = pd.to_datetime(df[name])] and [df.set_index(name,
    inplace=True)]: the parsed column becomes the index and leaves the
    columns. *)
Definition to_datetime_column `{DateParser} (c : Column) : result (list Z) :=
  match mapM to_datetime (cells c) with
  | Some labels => Ok labels
  | None => Raise ParserError
  end.

Definition set_index (df : DataFrame) (name : string) (labels : list Z) : DataFrame :=
  mkDataFrame labels
              (List.filter (fun nc => negb (String.eqb name (fst nc))) (columns df)).

(** *** Column assignment with index alignment *)

Definition has_duplicates (labels : list Z) : bool := negb (bool_decide (NoDup labels)).

(** The value a series holds at a label, NaN where the label is absent. *)
Fixpoint at_label (labels : list Z) (values : list float) (label : Z) : float :=
  match labels, values with
  | l :: labels', x :: values' =>
      if Z.eqb l label then x else at_label labels' values' label
  | _, _ => NaN
  end.

(** [value.reindex(target)]: refused when the labels of [value] repeat. *)
Definition reindex (value : Series) (target : list Z) : result (list float) :=
  if has_duplicates (s_index value) then Raise ValueError_duplicate_labels
  else Ok (List.map (at_label (s_index value) (s_values value)) target).

Definition blank_column (n : nat) (c : Column) : Column :=
  match c with
  | NumCol _ => NumCol (replicate n NaN)
  | ObjCol _ => ObjCol (replicate n None)
  end.

(** [DataFrame._ensure_valid_index]: a frame without rows takes the index of
    the first non-empty value assigned to it; the columns it already has are
    blank on the new rows. *)
Definition _ensure_valid_index (df : DataFrame) (value : Series) : DataFrame :=
  match index df, s_index value with
  | [], _ :: _ =>
      mkDataFrame (s_index value)
                  (List.map (fun nc => (fst nc, blank_column (length (s_index value)) (snd nc)))
                            (columns df))
  | _, _ => df
  end.

(** [_reindex_for_setitem]: the values as they are when the indexes agree or
    the frame has no rows, the values looked up by label otherwise. *)
Definition _reindex_for_setitem (value : Series) (df : DataFrame) : result (list float) :=
  if bool_decide (s_index value = index df) || bool_decide (index df = [])
  then Ok (s_values value)
  else reindex value (index df).

(** A column is replaced where its name is, or added as the last one. *)
Fixpoint set_column (cols : list (string * Column)) (name : string) (c : Column)
  : list (string * Column) :=
  match cols with
  | [] => [(name, c)]
  | (n, c') :: cols' =>
      if String.eqb name n then (n, c) :: cols' else (n, c') :: set_column cols' name c
  end.

(** [df[name] = value] for a series [value]. *)
Definition setitem (df : DataFrame) (name : string) (value : Series) : result DataFrame :=
  let df := _ensure_valid_index df value in
  values ← _reindex_for_setitem value df;
  Ok (mkDataFrame (index df) (set_column (columns df) name (NumCol values))).

(** The cell that a series of dtype object holds at a label; the cell is
    missing where the label is absent. *)
Fixpoint at_label_obj (labels : list Z) (values : list (option string)) (label : Z)
  : option string :=
  match labels, values with
  | l :: labels', x :: values' =>
      if Z.eqb l label then x else at_label_obj labels' values' label
  | _, _ => None
  end.

(** [value.reindex(target)] for a series of dtype object whose labels do not
    repeat: the column stays of dtype object. *)
Definition reindex_obj (labels : list Z) (values : list (option string)) (target : list Z)
  : Column :=
  ObjCol (List.map (at_label_obj labels values) target).

(** [df[name] = value] for a series [value] of either dtype, given by its
    index and its column. *)
Definition setitem_column (df : DataFrame) (name : string) (labels : list Z) (value : Column)
  : result DataFrame :=
  match value with
  | NumCol v => setitem df name (mkSeries labels v)
  | ObjCol v =>
      let df := _ensure_valid_index df (mkSeries labels []) in
      if bool_decide (labels = index df) || bool_decide (index df = [])
      then Ok (mkDataFrame (index df) (set_column (columns df) name (ObjCol v)))
      else if has_duplicates labels then Raise ValueError_duplicate_labels
      else Ok (mkDataFrame (index df)
                 (set_column (columns df) name (reindex_obj labels v (index df))))
  end.

(** [pd.DataFrame()] *)
Definition empty_frame : DataFrame := mkDataFrame [] [].

(** *** Pearson correlation, [DataFrame.corr()] *)

Definition Qsum (l : list Q) : Q := foldr Qplus 0%Q l.

Definition mean (l : list Q) : Q := (Qsum l / inject_Z (Z.of_nat (length l)))%Q.

(** The rows on which both columns hold a finite value ([mask[i, xi] and
    mask[i, yi]] with [mask = np.isfinite(mat)]). *)
Definition complete_pairs (x y : list float) : list (Q * Q) :=
  omap (fun p => a ← Float.finite (fst p); b ← Float.finite (snd p); Some (a, b))
       (combine x y).

(** Sum of squared deviations from the mean, and of products of deviations.
    [nancorr] accumulates them by Welford's recurrences; in exact arithmetic
    the accumulators end at these sums. *)
Definition ssqdm (l : list Q) : Q :=
  Qsum (List.map (fun v => (v - mean l) * (v - mean l))%Q l).

Definition covxy (obs : list (Q * Q)) : Q :=
  Qsum (List.map (fun p => (fst p - mean (List.map fst obs)) *
                           (snd p - mean (List.map snd obs)))%Q obs).

(** One cell of [nancorr(mat, minp=1)]. *)
Definition nancorr_pair `{Sqrt} (x y : list float) : float :=
  let obs := complete_pairs x y in
  if Nat.ltb (length obs) 1 then NaN
  else
    let divisor := sqrt (ssqdm (List.map fst obs) * ssqdm (List.map snd obs)) in
    if Float.Qis0 divisor then NaN
    else Fin (Qred (covxy obs / divisor)).

(** The loops of [nancorr]: for [xi] in [range(K)], for [yi] in
    [range(xi + 1)], one value is computed and written to
    [result[xi, yi]] and then to [result[yi, xi]]. *)
Definition nancorr_write `{Sqrt} (mat : list (list float)) (xi : nat)
    (result : gmap (nat * nat) float) (yi : nat) : gmap (nat * nat) float :=
  let v := nancorr_pair (nth xi mat []) (nth yi mat []) in
  <[(yi, xi) := v]> (<[(xi, yi) := v]> result).

Definition nancorr_row `{Sqrt} (mat : list (list float)) (result : gmap (nat * nat) float)
    (xi : nat) : gmap (nat * nat) float :=
  foldl (nancorr_write mat xi) result (seq 0 (xi + 1)).

(** A table whose cells mirror each other across the diagonal. *)
Definition symmetric_cells (result : gmap (nat * nat) float) : Prop :=
  forall a b, result !! (a, b) = result !! (b, a).

Definition nancorr `{Sqrt} (mat : list (list float)) : gmap (nat * nat) float :=
  foldl (nancorr_row mat) ∅ (seq 0 (length mat)).

Definition numeric_columns (df : DataFrame) : list (string * list float) :=
  omap (fun nc => match snd nc with
                  | NumCol v => Some (fst nc, v)
                  | ObjCol _ => None
                  end) (columns df).

(** [df.corr()]: Pearson, pairwise complete, over the numeric columns. *)
Definition corr `{Sqrt} (df : DataFrame) : CorrelationMatrix :=
  let cols := numeric_columns df in
  let correl := nancorr (List.map snd cols) in
  mkCorrelationMatrix (List.map fst cols)
                      (fun i j => default NaN (correl !! (i, j))).

(** *** Rolling windows *)

(** The rows of the window that ends at row [t]: the last [window] rows, or
    all the rows so far when there are fewer. *)
Definition window_at {A : Type} (window t : nat) (v : list A) : list A :=
  skipn (S t - window) (firstn (S t) v).

(** The sample standard deviation ([ddof = 1]) of two or more values. *)
Definition sample_std `{Sqrt} (obs : list Q) : Q :=
  sqrt (ssqdm obs / inject_Z (Z.of_nat (length obs) - 1)).

(** [Series.rolling(window).std()]: [min_periods] is [window], [ddof] is 1,
    and an infinite value counts as missing.  A row has a value when its
    window holds [window] finite observations and more than one. *)
Definition rolling_std_at `{Sqrt} (window : nat) (v : list float) (t : nat) : float :=
  let obs := omap Float.finite (window_at window t v) in
  let nobs := length obs in
  if Nat.ltb nobs window || Nat.leb nobs 1 then NaN
  else Fin (Qred (sample_std obs)).

Definition rolling_std `{Sqrt} (window : nat) (v : list float) : list float :=
  List.map (rolling_std_at window v) (seq 0 (length v)).

(** [x.rolling(window).corr(y)] for two series on one index: sample
    covariance over the square root of the product of the sample variances,
    on the rows of the window where both hold a finite value. *)
Definition rolling_corr_at `{Sqrt} (window : nat) (x y : list float) (t : nat) : float :=
  let obs := complete_pairs (window_at window t x) (window_at window t y) in
  let nobs := length obs in
  if Nat.ltb nobs window || Nat.leb nobs 1 then NaN
  else
    let d := inject_Z (Z.of_nat nobs - 1) in
    let numerator := (covxy obs / d)%Q in
    let denominator :=
      sqrt ((ssqdm (List.map fst obs) / d) * (ssqdm (List.map snd obs) / d))%Q in
    Float.div (Fin (Qred numerator)) (Fin (Qred denominator)).

Definition rolling_corr `{Sqrt} (window : nat) (x y : list float) : list float :=
  List.map (rolling_corr_at window x y) (seq 0 (length x)).

(** [DataFrame.rolling(window).corr()]: one row per date and instrument,
    one column per instrument.  The cell for the instruments at positions
    [i] and [j] is computed once, from the columns in position order. *)
Definition rolling_corr_pairwise `{Sqrt} (window : nat) (df : DataFrame) : PairwiseFrame :=
  let cols := numeric_columns df in
  let n := length (index df) in
  mkPairwiseFrame
    (flat_map (fun d => List.map (fun nc => (d, fst nc)) cols) (index df))
    (imap (fun j ncj =>
             (fst ncj,
              flat_map (fun t =>
                imap (fun i nci =>
                        rolling_corr_at window
                          (nth (Nat.min i j) (List.map snd cols) [])
                          (nth (Nat.max i j) (List.map snd cols) []) t) cols)
                (seq 0 n)))
          cols).

(** [DataFrame.dropna()]: the rows without a missing cell. *)
Definition row_complete (df : DataFrame) (t : nat) : bool :=
  forallb (fun nc => match snd nc with
                     | NumCol v => match v !! t with
                                   | Some x => negb (Float.isnan x)
                                   | None => true
                                   end
                     | ObjCol v => match v !! t with
                                   | Some o => notna_obj o
                                   | None => true
                                   end
                     end) (columns df).

Definition dropna_rows (df : DataFrame) : DataFrame :=
  let keep := List.filter (row_complete df) (seq 0 (length (index df))) in
  mkDataFrame (take_rows keep (index df))
              (List.map (fun nc => (fst nc, take_column keep (snd nc))) (columns df)).

(** [df.empty] *)
Definition empty (df : DataFrame) : bool :=
  Nat.eqb (length (index df)) 0 || Nat.eqb (length (columns df)) 0.

End Pandas.

(** What the theorems ask of the sort: it returns every position once, and
    the labels read in that order ascend. *)
Class ArgsortLaws `{Argsort} : Prop := {
  argsort_positions :
    forall labels : list Z, Permutation (argsort labels) (seq 0 (length labels));
  argsort_ascending :
    forall labels : list Z, StronglySorted Z.le (Pandas.take_rows (argsort labels) labels)
}.

(** ** base_analyzer.py *)

Module BaseAnalyzer.
Import Pandas.

(** [all(col in df.columns for col in required_cols)] *)
Definition _validate_dataframe (df : DataFrame) (required_cols : list string) : bool :=
  forallb (has_column df) required_cols.

(** [df[numeric_cols] = df[numeric_cols].fillna(method='ffill')] where
    [numeric_cols] are the columns of a numeric dtype. *)
Definition _handle_missing_values (df : DataFrame) : DataFrame :=
  mkDataFrame (index df)
              (List.map (fun nc => match snd nc with
                                   | NumCol v => (fst nc, NumCol (ffill v))
                                   | ObjCol v => (fst nc, ObjCol v)
                                   end) (columns df)).

Definition required_cols : list string := ["trade_date"; "close"].

Definition _prepare_data `{DateParser} `{Argsort} (df : DataFrame) : result DataFrame :=
  if negb (_validate_dataframe df required_cols)
  then Raise (ValueError_missing_columns required_cols)
  else
    trade_date ← getitem df "trade_date";
    labels ← to_datetime_column trade_date;
    let df := set_index df "trade_date" labels in
    let df := sort_index df in
    Ok (_handle_missing_values df).

(** [df['close'].pct_change()] followed by [fillna(0)]. *)
Definition _calculate_returns (df : DataFrame) : result Series :=
  close ← getitem df "close";
  returns ← pct_change_series close;
  Ok (mkSeries (index df) (fillna Float.zero returns)).

End BaseAnalyzer.

(** ** correlation_analyzer.py *)

Module CorrelationAnalyzer.
Import Pandas.

(** The loop that fills [returns_data]: for every instrument, in the order of
    the dictionary, [df['return'] = df['close'].pct_change()] and
    [returns_data[name] = df['return'].dropna()].  The changes of an object
    column keep the dtype object: where the division does not raise, the rows
    that [dropna] leaves are assigned as a column of missing object cells. *)
Fixpoint returns_data_loop (stock_data : list (string * DataFrame)) (returns_data : DataFrame)
  : result DataFrame :=
  match stock_data with
  | [] => Ok returns_data
  | (name, df) :: stock_data' =>
      close ← getitem df "close";
      match close with
      | NumCol v =>
          let ret := mkSeries (index df) (pct_change v) in
          returns_data ← setitem returns_data name (dropna ret);
          returns_data_loop stock_data' returns_data
      | ObjCol v =>
          returns ← pct_change_obj v;
          let ret := dropna (mkSeries (index df) returns) in
          returns_data ← setitem_column returns_data name (s_index ret)
                           (ObjCol (List.map (fun _ => None) (s_values ret)));
          returns_data_loop stock_data' returns_data
      end
  end.

Definition calculate_returns_correlation `{Sqrt} (stock_data : list (string * DataFrame))
  : result CorrelationMatrix :=
  returns_data ← returns_data_loop stock_data empty_frame;
  Ok (corr returns_data).

(** [correlation_matrix.index[i]]; the positions asked for are in range. *)
Definition name_at (correlation_matrix : CorrelationMatrix) (i : nat) : string :=
  nth i (names correlation_matrix) "".

Definition threshold : float := Fin (1 # 2).

(** The two nested loops of [_print_correlation_analysis]: [i] over the rows,
    [j] over [range(i+1, n)], keeping the pairs with [abs(corr) > 0.5]. *)
Definition high_corr_pairs (correlation_matrix : CorrelationMatrix)
  : list (string * string * float) :=
  let n := length (names correlation_matrix) in
  flat_map (fun i =>
    flat_map (fun j =>
      let corr := iloc correlation_matrix i j in
      if Float.gtb (Float.abs corr) threshold
      then [(name_at correlation_matrix i, name_at correlation_matrix j, corr)]
      else [])
      (seq (i + 1) (n - (i + 1))))
    (seq 0 n).

(** The positions above the diagonal, row by row: the order in which the
    loops visit them. *)
Definition upper_pairs (n : nat) : list (nat * nat) :=
  flat_map (fun i => List.map (pair i) (seq (i + 1) (n - (i + 1)))) (seq 0 n).

Definition strong (correlation_matrix : CorrelationMatrix) (p : nat * nat) : bool :=
  Float.gtb (Float.abs (iloc correlation_matrix (fst p) (snd p))) threshold.

Definition entry (correlation_matrix : CorrelationMatrix) (p : nat * nat)
  : string * string * float :=
  (name_at correlation_matrix (fst p), name_at correlation_matrix (snd p),
   iloc correlation_matrix (fst p) (snd p)).

(** The pairs whose coefficient has the absolute value [c]. *)
Definition tied_at (c : float) (x : string * string * float) : bool :=
  Float.eqb (Float.abs (snd x)) c.

(** [sort(key=lambda x: abs(x[2]), reverse=True)]: [x] stays ahead of [y]
    unless its key is smaller. *)
Definition by_abs_desc (x y : string * string * float) : bool :=
  negb (Float.ltb (Float.abs (snd x)) (Float.abs (snd y))).

(** The pairs in the order in which they are printed. *)
Definition _print_correlation_analysis (correlation_matrix : CorrelationMatrix)
  : list (string * string * float) :=
  stable_sort by_abs_desc (high_corr_pairs correlation_matrix).

End CorrelationAnalyzer.

(** ** correlation_analysis.py *)

Module CorrelationScript.
Import Pandas.

(** The tuples [(abs(corr), corr, stock1, stock2)] collected by
    [analyze_correlation]. *)
Definition high_corr_pairs (correlation_matrix : CorrelationMatrix)
  : list (float * float * string * string) :=
  let n := length (names correlation_matrix) in
  flat_map (fun i =>
    flat_map (fun j =>
      let corr := iloc correlation_matrix i j in
      if Float.gtb (Float.abs corr) CorrelationAnalyzer.threshold
      then [(Float.abs corr, corr,
             CorrelationAnalyzer.name_at correlation_matrix i,
             CorrelationAnalyzer.name_at correlation_matrix j)]
      else [])
      (seq (i + 1) (n - (i + 1))))
    (seq 0 n).

(** Python's [<] on these tuples: the first components that differ decide. *)
Definition tuple_ltb (x y : float * float * string * string) : bool :=
  let '(a, c, s, t) := x in
  let '(a', c', s', t') := y in
  if negb (Float.eqb a a') then Float.ltb a a'
  else if negb (Float.eqb c c') then Float.ltb c c'
  else if negb (String.eqb s s') then String.ltb s s'
  else String.ltb t t'.

(** [high_corr_pairs.sort(reverse=True)] *)
Definition by_tuple_desc (x y : float * float * string * string) : bool :=
  negb (tuple_ltb x y).

(** [analyze_correlation], without the plot: the correlation table, and the
    strong pairs in the order in which they are printed. *)
Definition analyze_correlation `{Sqrt} (stock_data : list (string * DataFrame))
  : result (CorrelationMatrix * list (string * string * float)) :=
  returns_data ← CorrelationAnalyzer.returns_data_loop stock_data empty_frame;
  let correlation_matrix := corr returns_data in
  let high_corr_pairs := stable_sort by_tuple_desc (high_corr_pairs correlation_matrix) in
  Ok (correlation_matrix,
      List.map (fun x => let '(_, c, s, t) := x in (s, t, c)) high_corr_pairs).

End CorrelationScript.

(** ** time_window_analyzer.py *)

Module TimeWindowAnalyzer.
Import Pandas BaseAnalyzer.

(** [np.sqrt(252)], the annualization factor. *)
Definition annualization `{Sqrt} : float := Fin (sqrt 252).

(** [returns.rolling(window=window).std() * np.sqrt(252)] *)
Definition volatility `{Sqrt} (returns : Series) (window : nat) : Series :=
  mkSeries (s_index returns)
           (List.map (fun x => Float.mul x annualization)
                     (rolling_std window (s_values returns))).

Fixpoint analyze_volatility_loop `{DateParser} `{Sqrt} `{Argsort}
    (stock_data : list (string * DataFrame)) (window : nat) (volatility_data : DataFrame)
  : result DataFrame :=
  match stock_data with
  | [] => Ok volatility_data
  | (name, df) :: stock_data' =>
      df ← _prepare_data df;
      returns ← _calculate_returns df;
      volatility_data ← setitem volatility_data name (volatility returns window);
      analyze_volatility_loop stock_data' window volatility_data
  end.

Definition analyze_volatility `{DateParser} `{Sqrt} `{Argsort}
    (stock_data : list (string * DataFrame)) (window : nat) : result DataFrame :=
  analyze_volatility_loop stock_data window empty_frame.

(** [if 'volume' not in df.columns and 'vol' in df.columns:
    df['volume'] = df['vol']] *)
Definition with_volume (df : DataFrame) : DataFrame :=
  if negb (has_column df "volume") && has_column df "vol"
  then match assoc "vol" (columns df) with
       | Some vol => mkDataFrame (index df) (set_column (columns df) "volume" vol)
       | None => df
       end
  else df.

Fixpoint analyze_volume_price_correlation_loop `{DateParser} `{Sqrt} `{Argsort}
    (stock_data : list (string * DataFrame)) (window : nat) (volume_price_corr : DataFrame)
  : result DataFrame :=
  match stock_data with
  | [] => Ok volume_price_corr
  | (name, df) :: stock_data' =>
      df ← _prepare_data df;
      let df := with_volume df in
      if has_column df "volume" then
        price_return ← _calculate_returns df;
        volume ← getitem df "volume";
        volume_change ← pct_change_series volume;
        let corr := mkSeries (s_index price_return)
                             (rolling_corr window (s_values price_return) volume_change) in
        volume_price_corr ← setitem volume_price_corr name corr;
        analyze_volume_price_correlation_loop stock_data' window volume_price_corr
      else analyze_volume_price_correlation_loop stock_data' window volume_price_corr
  end.

Definition analyze_volume_price_correlation `{DateParser} `{Sqrt} `{Argsort}
    (stock_data : list (string * DataFrame)) (window : nat) : result DataFrame :=
  analyze_volume_price_correlation_loop stock_data window empty_frame.

Fixpoint returns_data_loop `{DateParser} `{Argsort}
    (stock_data : list (string * DataFrame)) (returns_data : DataFrame)
  : result DataFrame :=
  match stock_data with
  | [] => Ok returns_data
  | (name, df) :: stock_data' =>
      df ← _prepare_data df;
      returns ← _calculate_returns df;
      returns_data ← setitem returns_data name returns;
      returns_data_loop stock_data' returns_data
  end.

(** The body of the [try] block. *)
Definition rolling_correlation_body `{DateParser} `{Sqrt} `{Argsort}
    (stock_data : list (string * DataFrame)) (window : nat) : result PairwiseFrame :=
  returns_data ← returns_data_loop stock_data empty_frame;
  let returns_data := dropna_rows returns_data in
  if empty returns_data then Raise ValueError_not_enough_data
  else Ok (rolling_corr_pairwise window returns_data).

(** [calculate_rolling_correlation]: whatever the body raises becomes a
    warning, and the empty table is returned. *)
Definition calculate_rolling_correlation `{DateParser} `{Sqrt} `{Argsort}
    (stock_data : list (string * DataFrame)) (window : nat)
  : option Exception * PairwiseFrame :=
  match rolling_correlation_body stock_data window with
  | Ok rolling_corr => (None, rolling_corr)
  | Raise e => (Some e, mkPairwiseFrame [] [])
  end.

(** *** Vocabulary for the statements about short histories *)

(** Every number in the table is undefined. *)
Definition all_undefined (df : DataFrame) : Prop :=
  forall name v, In (name, NumCol v) (columns df) -> List.Forall (fun x => x = NaN) v.

Definition all_undefined_pairwise (pf : PairwiseFrame) : Prop :=
  forall name v, In (name, v) (p_columns pf) -> List.Forall (fun x => x = NaN) v.

Definition numeric (c : Column) : Prop := exists v, c = NumCol v.

(** A raw table that the three operations can work on: accepted by
    [_prepare_data], with dates that do not repeat, a numeric [close], and a
    numeric [volume] or [vol] where there is one. *)
Definition usable `{DateParser} `{Argsort} (raw : DataFrame) : Prop :=
  exists df close,
    _prepare_data raw = Ok df /\
    getitem df "close" = Ok (NumCol close) /\
    NoDup (index df) /\
    (forall c, getitem df "volume" = Ok c -> numeric c) /\
    (forall c, getitem df "vol" = Ok c -> numeric c).

(** A raw table with fewer than [window] observations: once prepared, its
    index and each of its numeric columns are shorter than [window]. *)
Definition short_history `{DateParser} `{Argsort} (window : nat) (raw : DataFrame) : Prop :=
  forall df,
    _prepare_data raw = Ok df ->
    length (index df) < window /\
    forall name v, In (name, NumCol v) (columns df) -> length v < window.

End TimeWindowAnalyzer.

(** ** cluster_analyzer.py *)

(** [np.ndarray] of shape (samples, features) *)
Definition Matrix : Type := list (list float).

(** A fitted [sklearn.cluster.KMeans] object: its constructor arguments and
    the attributes [labels_] and [inertia_] set by [fit]. *)
Record KMeans : Type := mkKMeans {
  n_clusters : nat;
  random_state : nat;
  n_init : nat;
  labels_ : list nat;
  inertia_ : float
}.

(** scikit-learn as the analyzer uses it.  [KMeans_fit k seed restarts X] is
    [KMeans(n_clusters=k, random_state=seed, n_init=restarts).fit(X)]: with an
    integer [random_state] the fit is a function of its arguments.  Both
    calls raise on inputs they reject. *)
Class Sklearn : Type := {
  KMeans_fit : nat -> nat -> nat -> Matrix -> result KMeans;
  silhouette_score : Matrix -> list nat -> result float
}.

(** [pd.DataFrame({'Stock': range(len(clusters)), 'Cluster': clusters})] *)
Record ClusterFrame : Type := mkClusterFrame {
  Stock : list nat;
  Cluster : list nat
}.

Module ClusterAnalyzer.

(** The instance state that the clustering methods read and write:
    [self.max_clusters] and the cache [self.kmeans_models]. *)
Record t : Type := mk {
  max_clusters : nat;
  kmeans_models : gmap nat KMeans
}.

(** [ClusterAnalyzer(max_clusters=...)]: the cache starts empty. *)
Definition __init__ (max_clusters : nat) : t := mk max_clusters ∅.

Definition store (self : t) (k : nat) (kmeans : KMeans) : t :=
  mk (max_clusters self) (<[k := kmeans]> (kmeans_models self)).

(** The loop of [find_optimal_clusters] over the remaining values of [k];
    an exception leaves the models stored so far in the cache. *)
Fixpoint find_optimal_clusters_loop `{Sklearn} (k_range : list nat) (data_scaled : Matrix)
    (self : t) (inertias silhouette_scores : list float)
  : result (list float * list float) * t :=
  match k_range with
  | [] => (Ok (inertias, silhouette_scores), self)
  | k :: k_range' =>
      match KMeans_fit k 42 10 data_scaled with
      | Raise e => (Raise e, self)
      | Ok kmeans =>
          let self := store self k kmeans in
          match silhouette_score data_scaled (labels_ kmeans) with
          | Raise e => (Raise e, self)
          | Ok score =>
              find_optimal_clusters_loop k_range' data_scaled self
                (inertias ++ [inertia_ kmeans]) (silhouette_scores ++ [score])
          end
      end
  end.

(** [range(2, self.max_clusters + 1)] *)
Definition k_range (self : t) : list nat := seq 2 (max_clusters self + 1 - 2).

Definition find_optimal_clusters `{Sklearn} (self : t) (data_scaled : Matrix)
  : result (list float * list float) * t :=
  find_optimal_clusters_loop (k_range self) data_scaled self [] [].

Definition cluster_frame (clusters : list nat) : ClusterFrame :=
  mkClusterFrame (seq 0 (length clusters)) clusters.

Definition perform_clustering `{Sklearn} (self : t) (data_scaled : Matrix) (n_clusters : nat)
  : result ClusterFrame * t :=
  match kmeans_models self !! n_clusters with
  | Some kmeans => (Ok (cluster_frame (labels_ kmeans)), self)
  | None =>
      match KMeans_fit n_clusters 42 10 data_scaled with
      | Raise e => (Raise e, self)
      | Ok kmeans => (Ok (cluster_frame (labels_ kmeans)), store self n_clusters kmeans)
      end
  end.

End ClusterAnalyzer.

(** ** Concrete library instances, used to run the model *)

(** [pd.to_datetime] on an integer cell reads it as nanoseconds since the
    epoch; other cells are rejected by this instance. *)
Definition epoch_ns : DateParser := fun c =>
  match c with
  | CNum (Fin q) => if Pos.eqb (Qden q) 1 then Some (Qnum q) else None
  | _ => None
  end.

(** The sort of a short index.  On an array of 16 elements or fewer numpy's
    quicksort is an insertion sort, which keeps rows of one label in the order
    in which they came; this is the sort that the model is run with. *)
Definition insertion_argsort : Argsort := fun labels =>
  List.map snd (Pandas.stable_sort Pandas.key_le (Pandas.keyed labels)).

(** A square root on fractions, exact on squares and good to six decimal
    digits elsewhere. *)
Definition sqrt_scale : positive := 1000000.

Definition exact_sqrt : Sqrt := fun x =>
  let r := Qred x in
  Z.sqrt (Qnum r * Z.pos (Qden r) * (Z.pos sqrt_scale * Z.pos sqrt_scale))
  # (Qden r * sqrt_scale).

(** A stand-in for scikit-learn that makes the cache observable: sample [i]
    gets the label [0] when the first feature of its row is negative and [1]
    otherwise; fewer samples than clusters are rejected, as in scikit-learn. *)
Definition sign_label (row : list float) : nat :=
  match row with
  | Fin q :: _ => if Float.Qneg q then 0 else 1
  | _ => 1
  end.

Definition sign_sklearn : Sklearn := {|
  KMeans_fit := fun k seed restarts X =>
    if Nat.ltb (length X) k then Raise ValueError_sklearn
    else Ok (mkKMeans k seed restarts (List.map sign_label X) Float.zero);
  silhouette_score := fun X labels => Ok Float.zero
|}.

(** A raw table with the columns of a daily quote that the analyzers read:
    [trade_date], [close] and the traded volume [vol]. *)
Definition daily_table (dates : list Z) (close vol : list float) : DataFrame :=
  mkDataFrame (List.map Z.of_nat (seq 0 (length dates)))
              [("trade_date", NumCol (List.map (fun d => Fin (inject_Z d)) dates));
               ("close", NumCol close);
               ("vol", NumCol vol)].

(** The table with coefficients (A,B) 0.8, (A,C) 0.3 and (B,C) -0.6. *)
Definition example_matrix : CorrelationMatrix :=
  mkCorrelationMatrix ["A"; "B"; "C"]
    (fun i j =>
       match i, j with
       | 0, 1 | 1, 0 => Fin (8 # 10)
       | 0, 2 | 2, 0 => Fin (3 # 10)
       | 1, 2 | 2, 1 => Fin (-6 # 10)
       | _, _ => Fin 1
       end).

(** A table with a [close] column on a range index. *)
Definition close_table (close : list float) : DataFrame :=
  mkDataFrame (List.map Z.of_nat (seq 0 (length close))) [("close", NumCol close)].

(** Three instruments over three days whose prices are proportional: their
    returns are the same, so every pairwise coefficient is 1. *)
Definition three_rising : list (string * DataFrame) :=
  [("A", close_table [Fin 10; Fin 11; Fin 12]);
   ("B", close_table [Fin 20; Fin 22; Fin 24]);
   ("C", close_table [Fin 40; Fin 44; Fin 48])].

Definition two_groups : Matrix := [[Fin (-1)]; [Fin 1]; [Fin 2]].
Definition two_groups_mirrored : Matrix := [[Fin 1]; [Fin (-1)]; [Fin (-2)]].

(** The instance left by [find_optimal_clusters] on [two_groups] with
    [max_clusters = 3]. *)
Definition swept_on_two_groups : ClusterAnalyzer.t :=
  ClusterAnalyzer.mk 3
    (<[3 := mkKMeans 3 42 10 [0; 1; 1] Float.zero]>
       (<[2 := mkKMeans 2 42 10 [0; 1; 1] Float.zero]> ∅)).

(** A raw table as [pd.read_csv] gives it: a range index, an integer
    [trade_date] column and a [close] column. *)
Definition price_table (dates : list Z) (close : list float) : DataFrame :=
  mkDataFrame (List.map Z.of_nat (seq 0 (length dates)))
              [("trade_date", NumCol (List.map (fun d => Fin (inject_Z d)) dates));
               ("close", NumCol close)].

(** ** Vocabulary for the statements about whole tables *)

Definition column_length (c : Column) : nat :=
  match c with
  | NumCol v => length v
  | ObjCol v => length v
  end.

(** Every column has one cell per row. *)
Definition rectangular (df : DataFrame) : Prop :=
  forall name c, In (name, c) (columns df) -> column_length c = length (index df).

(** ** Vocabulary for the statements about column assignment *)

(** The assignments [df[name] = value] of a loop, one after the other. *)
Fixpoint assign_all (items : list (string * Series)) (df : DataFrame) : result DataFrame :=
  match items with
  | [] => Ok df
  | (name, value) :: items' =>
      df ← Pandas.setitem df name value;
      assign_all items' df
  end.

(** The index of the first series that has rows. *)
Fixpoint first_index (items : list (string * Series)) : list Z :=
  match items with
  | [] => []
  | (_, value) :: items' =>
      match s_index value with
      | [] => first_index items'
      | _ :: _ => s_index value
      end
  end.

(** A series with one value per label and labels that do not repeat. *)
Definition well_formed (value : Series) : Prop :=
  NoDup (s_index value) /\ length (s_values value) = length (s_index value).

(** The column [name] of [df] holds [value] looked up at the labels of [df];
    a frame without rows has only been assigned series without rows. *)
Definition aligned (df : DataFrame) (name : string) (value : Series) : Prop :=
  Pandas.assoc name (columns df) =
    Some (NumCol (List.map (Pandas.at_label (s_index value) (s_values value)) (index df))) /\
  (index df = [] -> s_index value = []).

(** ** Vocabulary for the statements about sorted tuples *)

(** Python's [<] on a pair: the first components decide unless they are
    equal, and then the second components do. *)
Definition lex_ltb {A B : Type} (eqb ltb : A -> A -> bool) (ltB : B -> B -> bool)
    (x y : A * B) : bool :=
  if negb (eqb (fst x) (fst y)) then ltb (fst x) (fst y) else ltB (snd x) (snd y).

(** ** cluster_analyzer.py: [prepare_data] *)

(** [StandardScaler().fit_transform] of scikit-learn, on an array of shape
    (samples, features); it raises on an array that it rejects. *)
Class StandardScaler : Type := fit_transform : Matrix -> result Matrix.

(** [returns_matrix.T]: a table with one row per instrument and one column
    per date. *)
Record ClusteringData : Type := mkClusteringData {
  stocks : list string;
  dates : list Z;
  rows : Matrix
}.

Module ClusterPreparation.
Import Pandas BaseAnalyzer.

(** The loop that fills [merged_data]: as long as the frame is empty it is
    replaced by a frame on the index of the current instrument, without
    columns; then the closing prices are assigned under the name of the
    instrument. *)
Fixpoint merged_data_loop `{DateParser} `{Argsort}
    (stock_data : list (string * DataFrame)) (merged_data : DataFrame) : result DataFrame :=
  match stock_data with
  | [] => Ok merged_data
  | (name, df) :: stock_data' =>
      df ← _prepare_data df;
      let merged_data :=
        if empty merged_data then mkDataFrame (index df) [] else merged_data in
      close ← getitem df "close";
      merged_data ← setitem_column merged_data name (index df) close;
      merged_data_loop stock_data' merged_data
  end.

(** One column of [merged_data.pct_change().fillna(0)]. *)
Definition pct_change_column (c : Column) : result (list float) :=
  returns ← pct_change_series c;
  Ok (fillna Float.zero returns).

Fixpoint pct_change_columns (cols : list (string * Column))
  : result (list (string * list float)) :=
  match cols with
  | [] => Ok []
  | (name, c) :: cols' =>
      v ← pct_change_column c;
      rest ← pct_change_columns cols';
      Ok ((name, v) :: rest)
  end.

(** [prepare_data]: the returns of every instrument on the dates of the
    merged table, one row per instrument, and the same array standardized.
    An exception is logged and raised again. *)
Definition prepare_data `{DateParser} `{StandardScaler} `{Argsort}
    (stock_data : list (string * DataFrame)) : result (ClusteringData * Matrix) :=
  merged_data ← merged_data_loop stock_data empty_frame;
  returns_matrix ← pct_change_columns (columns merged_data);
  let data_for_clustering :=
    mkClusteringData (List.map fst returns_matrix) (index merged_data)
                     (List.map snd returns_matrix) in
  data_scaled ← fit_transform (rows data_for_clustering);
  Ok (data_for_clustering, data_scaled).

End ClusterPreparation.

(** A stand-in for [StandardScaler] that leaves the values as they are and,
    as scikit-learn does, rejects an array without samples. *)
Definition plain_scaler : StandardScaler := fun X =>
  match X with
  | [] => Raise ValueError_sklearn
  | _ :: _ => Ok X
  end.

(** ** data_collector.py *)

Module DataCollector.

(** What [_retry_operation] does besides returning: the calls it makes and
    the pauses between them. *)
Inductive Event : Type :=
| Called (attempt : nat)   (* the call of the operation in the given pass of the loop *)
| Slept (seconds : nat).   (* the notice, then time.sleep(self.retry_delay) *)

(** How a call ends, for any type of exceptions. *)
Inductive outcome (E A : Type) : Type :=
| Returned (a : A)
| Raised (e : E).
Arguments Returned {E A} a.
Arguments Raised {E A} e.

(** The attributes of the collector that the retry loop reads. *)
Record t : Type := mk {
  retry_count : nat;
  retry_delay : nat
}.

(** [DataCollector(token)]: three attempts, two seconds apart. *)
Definition __init__ : t := mk 3 2.

(** The loop [for attempt in range(self.retry_count)] from the pass
    [attempt] on, with [remaining] passes to go.  The operation is a request
    to a remote service, so its outcome can differ from one call to the next:
    [operation attempt] is the outcome of the call made in pass [attempt].
    When the range is exhausted the method returns [None]. *)
Fixpoint retry_loop {E A : Type} (self : t) (operation : nat -> outcome E A)
    (attempt remaining : nat) : outcome E (option A) * list Event :=
  match remaining with
  | 0 => (Returned None, [])
  | S remaining' =>
      match operation attempt with
      | Returned a => (Returned (Some a), [Called attempt])
      | Raised e =>
          if Nat.eqb attempt (retry_count self - 1)
          then (Raised e, [Called attempt])
          else
            let '(result, events) := retry_loop self operation (S attempt) remaining' in
            (result, Called attempt :: Slept (retry_delay self) :: events)
      end
  end.

Definition _retry_operation {E A : Type} (self : t) (operation : nat -> outcome E A)
  : outcome E (option A) * list Event :=
  retry_loop self operation 0 (retry_count self).

(** The events of the passes [first], ..., [last]: a call in each of them,
    and a pause after each but the last. *)
Definition passes (self : t) (first last : nat) : list Event :=
  flat_map (fun attempt => [Called attempt; Slept (retry_delay self)])
           (seq first (last - first)) ++ [Called last].

End DataCollector.

(** ** Vocabulary for the statements about the order of the rows *)

(** [df.iloc[positions]]: the rows of [df] at the given positions, in that
    order. *)
Definition iloc_rows (df : DataFrame) (positions : list nat) : DataFrame :=
  mkDataFrame (Pandas.take_rows positions (index df))
              (List.map (fun nc => (fst nc, Pandas.take_column positions (snd nc)))
                        (columns df)).

(* ================================================================== *)
(** * Part II: lemmas and theorems                                     *)
(* ================================================================== *)

(** ** Facts about the float model *)

Section FloatFacts.

Lemma Qred_div_self (q : Q) : ~ q == 0 -> Qred (q / q) = 1%Q.
Proof.
  intros Hq.
  change 1%Q with (Qred 1).
  apply Qred_complete. field. exact Hq.
Qed.

Lemma Qis0_spec (q : Q) : Float.Qis0 q = true <-> q == 0.
Proof.
  unfold Float.Qis0, Qeq. simpl. rewrite Z.eqb_eq. lia.
Qed.

Lemma pct_of_equal_prices (q : Q) :
  (0 < q)%Q ->
  Float.sub (Float.div (Fin q) (Fin q)) Float.one = Float.zero.
Proof.
  intros Hq. unfold Float.div.
  destruct (Float.Qis0 q) eqn:E.
  - apply Qis0_spec in E. rewrite E in Hq. inversion Hq.
  - rewrite Qred_div_self; [reflexivity|].
    intros E'. apply Qis0_spec in E'. congruence.
Qed.

End FloatFacts.

(** ** Facts about forward fill *)

Section Ffill.
Import Pandas.

Lemma length_ffill_from (last : float) (v : list float) :
  length (ffill_from last v) = length v.
Proof.
  revert last. induction v as [|x v IH]; intros last; simpl; [reflexivity|].
  now rewrite IH.
Qed.

(** A valid observation is kept as it is. *)
Lemma ffill_from_keeps (last : float) (v : list float) (i : nat) (x : float) :
  v !! i = Some x -> Float.isnan x = false -> ffill_from last v !! i = Some x.
Proof.
  revert last i. induction v as [|y v IH]; intros last i Hi Hx; [discriminate|].
  destruct i as [|i]; simpl in *.
  - injection Hi as ->. now rewrite Hx.
  - now apply IH.
Qed.

(** Once the value carried forward is valid, every output is valid. *)
Lemma ffill_from_valid (last : float) (v : list float) :
  Float.isnan last = false ->
  Forall (fun y => Float.isnan y = false) (ffill_from last v).
Proof.
  revert last. induction v as [|x v IH]; intros last Hl; simpl; constructor.
  - destruct (Float.isnan x) eqn:E; assumption.
  - apply IH. destruct (Float.isnan x) eqn:E; assumption.
Qed.

(** No gap after a valid output. *)
Lemma ffill_from_no_gap (last : float) (v : list float) (i j : nat) (x : float) :
  i <= j < length v ->
  ffill_from last v !! i = Some x -> Float.isnan x = false ->
  exists y, ffill_from last v !! j = Some y /\ Float.isnan y = false.
Proof.
  revert last i j. induction v as [|z v IH]; intros last i j [Hij Hj] Hi Hx.
  - simpl in Hj. lia.
  - destruct i as [|i]; simpl in Hi.
    + injection Hi as Hi. destruct j as [|j]; simpl.
      * exists x. split; [now rewrite Hi | assumption].
      * rewrite Hi.
        pose proof (ffill_from_valid x v Hx) as Hall.
        rewrite Forall_lookup in Hall.
        destruct (lookup_lt_is_Some_2 (ffill_from x v) j) as [y Hy].
        { rewrite length_ffill_from. simpl in Hj. lia. }
        exists y. split; [exact Hy | exact (Hall _ _ Hy)].
    + destruct j as [|j]; [lia|]. simpl.
      apply (IH _ i j); [simpl in Hj; lia | exact Hi | exact Hx].
Qed.

(** A leading gap stays: nothing is filled backwards. *)
Lemma ffill_from_leading_gap (v : list float) (i : nat) :
  (forall j, j <= i -> v !! j = Some NaN) -> ffill_from NaN v !! i = Some NaN.
Proof.
  revert i. induction v as [|x v IH]; intros i Hgap.
  - specialize (Hgap 0 ltac:(lia)). discriminate.
  - pose proof (Hgap 0 ltac:(lia)) as H0. simpl in H0. injection H0 as ->.
    destruct i as [|i]; simpl; [reflexivity|].
    apply IH. intros j Hj. apply (Hgap (S j)). lia.
Qed.

(** Inside a gap the value carried forward is the output. *)
Lemma ffill_from_gap (last : float) (v : list float) (j : nat) :
  (forall k, k <= j -> v !! k = Some NaN) -> ffill_from last v !! j = Some last.
Proof.
  revert last j. induction v as [|x v IH]; intros last j Hgap.
  - specialize (Hgap 0 ltac:(lia)). discriminate.
  - pose proof (Hgap 0 ltac:(lia)) as H0. simpl in H0. injection H0 as ->.
    destruct j as [|j]; simpl; [reflexivity|].
    apply IH. intros k Hk. apply (Hgap (S k)). lia.
Qed.

(** A missing value takes the last valid observation before it. *)
Lemma ffill_from_fill_value (last : float) (v : list float) (i j : nat) (x : float) :
  i < j -> v !! i = Some x -> Float.isnan x = false ->
  (forall k, i < k <= j -> v !! k = Some NaN) ->
  ffill_from last v !! j = Some x.
Proof.
  revert last i j. induction v as [|a v IH]; intros last i j Hij Hi Hx Hgap; [discriminate|].
  destruct j as [|j]; [lia|]. destruct i as [|i]; simpl in Hi |- *.
  - injection Hi as ->. rewrite Hx.
    apply ffill_from_gap. intros k Hk. apply (Hgap (S k)). lia.
  - apply (IH _ i j); [lia|exact Hi|exact Hx|].
    intros k Hk. apply (Hgap (S k)). lia.
Qed.

Lemma ffill_from_idempotent (last : float) (v : list float) :
  ffill_from last (ffill_from last v) = ffill_from last v.
Proof.
  revert last. induction v as [|x v IH]; intros last; simpl; [reflexivity|].
  destruct (Float.isnan x) eqn:E.
  - destruct (Float.isnan last) eqn:E'; now rewrite IH.
  - rewrite E. now rewrite IH.
Qed.

Lemma ffill_idempotent (v : list float) : ffill (ffill v) = ffill v.
Proof. apply ffill_from_idempotent. Qed.

End Ffill.

(** ** Facts about the stable sort *)

Section StableSort.
Import Pandas.
Context {A : Type} (le : A -> A -> bool).

Lemma insert_by_Permutation (x : A) (l : list A) :
  Permutation (insert_by le x l) (x :: l).
Proof.
  induction l as [|y l IH]; simpl; [reflexivity|].
  destruct (le x y); [reflexivity|].
  rewrite IH. apply perm_swap.
Qed.

Lemma stable_sort_Permutation (l : list A) :
  Permutation (stable_sort le l) l.
Proof.
  induction l as [|x l IH]; simpl; [reflexivity|].
  rewrite insert_by_Permutation. now constructor.
Qed.

Lemma insert_by_sorted (P : A -> Prop) (x : A) (l : list A) :
  (forall a b, le a b = false -> le b a = true) ->
  (forall a b c, P b -> le a b = true -> le b c = true -> le a c = true) ->
  List.Forall P l ->
  StronglySorted (le_rel le) l -> StronglySorted (le_rel le) (insert_by le x l).
Proof.
  intros Htot Htrans HP Hs.
  induction Hs as [|y l Hs IH Hy]; simpl.
  - repeat constructor.
  - inversion HP as [|? ? Py HPl]; subst.
    destruct (le x y) eqn:E.
    + constructor; [now constructor|].
      constructor; [exact E|].
      eapply List.Forall_impl; [|exact Hy].
      intros z Hz. exact (Htrans _ _ _ Py E Hz).
    + constructor; [now apply IH|].
      rewrite (insert_by_Permutation x l).
      constructor; [now apply Htot | exact Hy].
Qed.

Lemma stable_sort_sorted (P : A -> Prop) (l : list A) :
  (forall a b, le a b = false -> le b a = true) ->
  (forall a b c, P b -> le a b = true -> le b c = true -> le a c = true) ->
  List.Forall P l ->
  StronglySorted (le_rel le) (stable_sort le l).
Proof.
  intros Htot Htrans HP.
  induction HP as [|x l Px HP IH]; simpl; [constructor|].
  apply (insert_by_sorted P); try assumption.
  eapply Permutation_Forall; [symmetry; apply stable_sort_Permutation | exact HP].
Qed.

(** Stability: the elements of one class [P] of mutually tied elements keep
    their relative order.  [P] is closed under ties on both sides of [le]. *)
Lemma insert_by_filter (P : A -> bool) (x : A) (l : list A) :
  (forall y, In y l -> P x = true -> P y = true -> le x y = true) ->
  List.filter P (insert_by le x l) = List.filter P (x :: l).
Proof.
  induction l as [|y l IH]; intros Htie; simpl; [reflexivity|].
  destruct (le x y) eqn:E; simpl; [reflexivity|].
  rewrite IH by (intros z Hz; apply Htie; now right).
  simpl.
  destruct (P x) eqn:Px; destruct (P y) eqn:Py; try reflexivity.
  assert (le x y = true) by (apply Htie; [now left | auto | auto]).
  congruence.
Qed.

Lemma stable_sort_filter (P : A -> bool) (l : list A) :
  (forall x y, P x = true -> P y = true -> le x y = true) ->
  List.filter P (stable_sort le l) = List.filter P l.
Proof.
  intros Htie.
  induction l as [|x l IH]; simpl; [reflexivity|].
  rewrite insert_by_filter by (intros; now apply Htie).
  simpl. now rewrite IH.
Qed.

End StableSort.

(** ** Facts about [take] *)

Section TakeRows.
Import Pandas.

Lemma take_rows_cons {A : Type} (i : nat) (indexer : list nat) (l : list A) :
  take_rows (i :: indexer) l =
  match l !! i with
  | Some x => x :: take_rows indexer l
  | None => take_rows indexer l
  end.
Proof. reflexivity. Qed.

Lemma length_take_rows {A : Type} (indexer : list nat) (l : list A) :
  (forall i, In i indexer -> i < length l) ->
  length (take_rows indexer l) = length indexer.
Proof.
  induction indexer as [|i indexer IH]; intros Hin; [reflexivity|].
  rewrite take_rows_cons.
  destruct (lookup_lt_is_Some_2 l i (Hin i (or_introl eq_refl))) as [x ->].
  simpl. f_equal. apply IH. intros j Hj. apply Hin. now right.
Qed.

Lemma take_rows_Permutation {A : Type} (indexer indexer' : list nat) (l : list A) :
  Permutation indexer indexer' -> Permutation (take_rows indexer l) (take_rows indexer' l).
Proof. intros Hperm. unfold take_rows. now rewrite Hperm. Qed.

Lemma take_rows_seq {A : Type} (pre l : list A) :
  take_rows (seq (length pre) (length l)) (pre ++ l) = l.
Proof.
  revert pre. induction l as [|x l IH]; intros pre; [reflexivity|].
  cbn [length seq]. rewrite take_rows_cons.
  rewrite lookup_app_r, Nat.sub_diag by lia. cbn. f_equal.
  specialize (IH (pre ++ [x])). rewrite length_app, <- app_assoc in IH. cbn in IH.
  now rewrite Nat.add_1_r in IH.
Qed.

Lemma take_rows_all {A : Type} (l : list A) : take_rows (seq 0 (length l)) l = l.
Proof. exact (take_rows_seq [] l). Qed.

Lemma take_rows_in_range_Permutation {A : Type} (positions : list nat) (l : list A) :
  Permutation positions (seq 0 (length l)) -> Permutation (take_rows positions l) l.
Proof.
  intros Hperm. rewrite (take_rows_Permutation _ _ _ Hperm). now rewrite take_rows_all.
Qed.

(** A row of the result is the row of the source at the position that the
    indexer names. *)
Lemma take_rows_lookup {A : Type} (indexer : list nat) (l : list A) (t i : nat) :
  (forall j, In j indexer -> j < length l) ->
  indexer !! t = Some i -> take_rows indexer l !! t = l !! i.
Proof.
  revert t. induction indexer as [|j indexer IH]; intros t Hin Ht; [discriminate|].
  rewrite take_rows_cons.
  destruct (lookup_lt_is_Some_2 l j (Hin j (or_introl eq_refl))) as [x Hx]. rewrite Hx.
  destruct t as [|t]; cbn in Ht |- *.
  - injection Ht as <-. now rewrite Hx.
  - apply IH; [|exact Ht]. intros k Hk. apply Hin. now right.
Qed.

End TakeRows.

(** ** Facts about the sort of an index *)

Section SortIndex.
Import Pandas.

Lemma key_le_total (p p' : Z * nat) : key_le p p' = false -> key_le p' p = true.
Proof. unfold key_le. rewrite Z.leb_gt, Z.leb_le. lia. Qed.

Lemma key_le_trans (p p' p'' : Z * nat) :
  key_le p p' = true -> key_le p' p'' = true -> key_le p p'' = true.
Proof. unfold key_le. rewrite !Z.leb_le. lia. Qed.

Lemma keyed_lookup_from (labels : list Z) (start : nat) (k : Z) (i : nat) :
  In (k, i) (combine labels (seq start (length labels))) ->
  start <= i /\ labels !! (i - start) = Some k.
Proof.
  revert start. induction labels as [|a labels IH]; intros start Hin; simpl in Hin.
  - contradiction.
  - destruct Hin as [Heq | Hin].
    + injection Heq as -> ->. rewrite Nat.sub_diag. split; [lia | reflexivity].
    + apply IH in Hin. destruct Hin as [Hle Hl].
      split; [lia|].
      replace (i - start) with (S (i - S start)) by lia. exact Hl.
Qed.

Lemma keyed_lookup (labels : list Z) (k : Z) (i : nat) :
  In (k, i) (keyed labels) -> labels !! i = Some k.
Proof.
  intros Hin. apply keyed_lookup_from in Hin.
  rewrite Nat.sub_0_r in Hin. tauto.
Qed.

Lemma take_snd_fst (labels : list Z) (ps : list (Z * nat)) :
  (forall p, In p ps -> labels !! (snd p) = Some (fst p)) ->
  take_rows (List.map snd ps) labels = List.map fst ps.
Proof.
  induction ps as [|p ps IH]; intros Hps; [reflexivity|].
  unfold take_rows in *. simpl.
  rewrite (Hps p) by now left.
  f_equal. apply IH. intros q Hq. apply Hps. now right.
Qed.

(** The labels taken in the order of the insertion sort are the keys of the
    sorted pairs. *)
Lemma take_insertion_argsort (labels : list Z) :
  take_rows (insertion_argsort labels) labels =
  List.map fst (stable_sort key_le (keyed labels)).
Proof.
  unfold insertion_argsort. apply take_snd_fst.
  intros [k i] Hin. simpl.
  apply keyed_lookup.
  eapply Permutation_in; [apply stable_sort_Permutation | exact Hin].
Qed.

Lemma fst_keyed (labels : list Z) : List.map fst (keyed labels) = labels.
Proof.
  unfold keyed.
  assert (H : forall start, List.map fst (combine labels (seq start (length labels))) = labels).
  { induction labels as [|a labels IH]; intros start; simpl; [reflexivity|].
    now rewrite IH. }
  apply H.
Qed.

Lemma snd_keyed (labels : list Z) : List.map snd (keyed labels) = seq 0 (length labels).
Proof.
  unfold keyed. generalize 0. induction labels as [|l labels IH]; intros start; [reflexivity|].
  cbn. f_equal. apply IH.
Qed.

Lemma insertion_argsort_positions (labels : list Z) :
  Permutation (insertion_argsort labels) (seq 0 (length labels)).
Proof.
  unfold insertion_argsort. rewrite <- snd_keyed.
  apply Permutation_map, stable_sort_Permutation.
Qed.

Lemma insertion_argsort_ascending (labels : list Z) :
  StronglySorted Z.le (take_rows (insertion_argsort labels) labels).
Proof.
  rewrite take_insertion_argsort.
  assert (Hs : StronglySorted (le_rel key_le) (stable_sort key_le (keyed labels))).
  { apply (stable_sort_sorted key_le (fun _ => True)).
    - apply key_le_total.
    - intros a b c _. apply key_le_trans.
    - apply List.Forall_forall. trivial. }
  induction Hs as [|p ps Hs IH Hp]; simpl; constructor; [exact IH|].
  rewrite List.Forall_forall in Hp. apply List.Forall_forall.
  intros k Hk. apply in_map_iff in Hk. destruct Hk as [q [<- Hq]].
  specialize (Hp q Hq). unfold le_rel, key_le in Hp. now apply Z.leb_le.
Qed.

(** An ascending list is strictly ascending exactly when it has no
    repetition. *)
Lemma sorted_strict_iff_NoDup (l : list Z) :
  StronglySorted Z.le l -> (NoDup l <-> StronglySorted Z.lt l).
Proof.
  intros Hs. induction Hs as [|a l Hs IH Ha]; split; intros H.
  - constructor.
  - constructor.
  - inversion H as [|? ? Hnotin Hnd]; subst.
    constructor; [now apply IH|].
    rewrite List.Forall_forall in Ha. apply List.Forall_forall.
    intros b Hb. specialize (Ha b Hb).
    assert (a <> b) by (intros ->; apply Hnotin, list_elem_of_In, Hb).
    lia.
  - inversion H as [|? ? Hs' Hlt]; subst.
    constructor; [|now apply IH].
    intros Hin. apply list_elem_of_In in Hin.
    rewrite List.Forall_forall in Hlt.
    specialize (Hlt a Hin). lia.
Qed.

End SortIndex.

(** The insertion sort is a sort. *)
#[global] Instance insertion_argsort_laws : @ArgsortLaws insertion_argsort.
Proof.
  split; [exact insertion_argsort_positions | exact insertion_argsort_ascending].
Qed.

(** What follows from the laws, for any sort. *)
Section AnySort.
Import Pandas.
Context `{Argsort} `{!ArgsortLaws}.

Lemma argsort_Permutation (labels : list Z) :
  Permutation (argsort labels) (seq 0 (length labels)).
Proof. apply argsort_positions. Qed.

Lemma argsort_in_range (labels : list Z) (i : nat) :
  In i (argsort labels) -> i < length labels.
Proof.
  intros Hin. apply (Permutation_in _ (argsort_Permutation labels)), in_seq in Hin. lia.
Qed.

Lemma length_argsort (labels : list Z) : length (argsort labels) = length labels.
Proof. rewrite (Permutation_length (argsort_Permutation labels)). apply length_seq. Qed.

Lemma take_argsort_Permutation (labels : list Z) :
  Permutation labels (take_rows (argsort labels) labels).
Proof.
  symmetry. apply take_rows_in_range_Permutation, argsort_Permutation.
Qed.

Lemma take_argsort_sorted (labels : list Z) :
  StronglySorted Z.le (take_rows (argsort labels) labels).
Proof. apply argsort_ascending. Qed.

End AnySort.

(** ** base_analyzer.py: [_prepare_data] *)

Section PrepareData.
Import Pandas BaseAnalyzer.
Context `{DateParser} `{Argsort}.

Lemma has_column_assoc (df : DataFrame) (name : string) :
  has_column df name = true <-> is_Some (assoc name (columns df)).
Proof.
  unfold has_column. induction (columns df) as [|[n c] l IH]; simpl.
  - split; [discriminate | intros [? ?]; discriminate].
  - destruct (String.eqb name n); simpl; [|exact IH].
    split; eauto.
Qed.

Lemma validate_required (df : DataFrame) :
  _validate_dataframe df required_cols =
  has_column df "trade_date" && has_column df "close".
Proof. unfold _validate_dataframe, required_cols. simpl. now rewrite andb_true_r. Qed.

(** The shape of a successful run. *)
Lemma prepare_data_Ok (raw df : DataFrame) :
  _prepare_data raw = Ok df ->
  exists trade_date labels,
    getitem raw "trade_date" = Ok trade_date /\
    to_datetime_column trade_date = Ok labels /\
    df = _handle_missing_values (sort_index (set_index raw "trade_date" labels)).
Proof.
  unfold _prepare_data.
  destruct (_validate_dataframe raw required_cols); simpl; [|discriminate].
  destruct (getitem raw "trade_date") as [trade_date|e] eqn:Hget; simpl; [|discriminate].
  destruct (to_datetime_column trade_date) as [labels|e] eqn:Hparse; simpl; [|discriminate].
  intros Heq. injection Heq as <-.
  exists trade_date, labels. repeat split; assumption.
Qed.

Lemma handle_missing_values_columns (df : DataFrame) (name : string) (v : list float) :
  In (name, NumCol v) (columns (_handle_missing_values df)) ->
  exists u, In (name, NumCol u) (columns df) /\ v = ffill u.
Proof.
  unfold _handle_missing_values. simpl. intros Hin.
  apply in_map_iff in Hin. destruct Hin as [[n c] [Heq Hin]].
  destruct c as [u|u]; simpl in Heq; [|discriminate].
  injection Heq as -> <-. eauto.
Qed.

End PrepareData.

(** C4. A raw table that lacks [trade_date] or [close] makes [_prepare_data]
    raise the missing-columns [ValueError] (no default is substituted: the
    result is [Raise], never [Ok]); a table that has both columns never gets
    that error. *)
Theorem prepare_data_schema_error `{DateParser} `{Argsort} (df : DataFrame) :
  (Pandas.has_column df "trade_date" = false \/ Pandas.has_column df "close" = false ->
   BaseAnalyzer._prepare_data df =
   Raise (ValueError_missing_columns ["trade_date"; "close"]))
  /\
  (Pandas.has_column df "trade_date" = true /\ Pandas.has_column df "close" = true ->
   forall cols, BaseAnalyzer._prepare_data df <> Raise (ValueError_missing_columns cols)).
Proof.
  unfold BaseAnalyzer._prepare_data. rewrite validate_required. split.
  - intros [-> | ->]; [reflexivity | now rewrite andb_false_r].
  - intros [Hd Hc] cols. rewrite Hd, Hc. simpl.
    apply has_column_assoc in Hd. destruct Hd as [trade_date Hd].
    unfold Pandas.getitem. rewrite Hd. simpl.
    unfold Pandas.to_datetime_column.
    destruct (mapM to_datetime (Pandas.cells trade_date)); simpl; discriminate.
Qed.

(** The table that a successful run returns, column by column. *)
Lemma prepare_data_columns `{DateParser} `{Argsort} (raw : DataFrame) (labels : list Z) :
  columns (BaseAnalyzer._handle_missing_values
             (Pandas.sort_index (Pandas.set_index raw "trade_date" labels))) =
  List.map (fun nc => (fst nc,
                       match snd nc with
                       | NumCol u => NumCol (Pandas.ffill (Pandas.take_rows (argsort labels) u))
                       | ObjCol u => ObjCol (Pandas.take_rows (argsort labels) u)
                       end))
           (List.filter (fun nc => negb (String.eqb "trade_date" (fst nc))) (columns raw)).
Proof.
  unfold BaseAnalyzer._handle_missing_values, Pandas.sort_index, Pandas.set_index.
  cbn [index columns]. rewrite List.map_map. apply List.map_ext.
  intros [n [u|u]]; reflexivity.
Qed.

(** C1 (as the code has it). For a raw table that [_prepare_data] accepts, the
    rows of the result are the raw rows in the order [order] that the sort
    gives for the parsed dates: every raw row once, the dates ascending.  The
    index is strictly ascending, that is free of duplicates, exactly when the
    parsed dates are pairwise distinct; rows of one date are all kept, in the
    order that the sort decides.  Every numeric column is the forward fill of
    the raw column read in that order: a valid observation is kept, a missing
    value takes the last valid observation before it, a leading gap stays
    undefined, and no value is undefined after the first valid one.  The other
    columns are the raw columns read in that order. *)
Theorem prepare_data_invariants `{DateParser} `{Argsort} `{!ArgsortLaws}
    (raw df : DataFrame) :
  BaseAnalyzer._prepare_data raw = Ok df ->
  exists trade_date labels,
    Pandas.getitem raw "trade_date" = Ok trade_date /\
    Pandas.to_datetime_column trade_date = Ok labels /\
    let order := argsort labels in
    Permutation order (seq 0 (length labels)) /\
    index df = Pandas.take_rows order labels /\
    (forall t i, order !! t = Some i -> index df !! t = labels !! i) /\
    StronglySorted Z.le (index df) /\
    Permutation labels (index df) /\
    (NoDup labels <-> StronglySorted Z.lt (index df)) /\
    columns df =
      List.map (fun nc => (fst nc,
                           match snd nc with
                           | NumCol u => NumCol (Pandas.ffill (Pandas.take_rows order u))
                           | ObjCol u => ObjCol (Pandas.take_rows order u)
                           end))
               (List.filter (fun nc => negb (String.eqb "trade_date" (fst nc)))
                            (columns raw)) /\
    forall name v, In (name, NumCol v) (columns df) ->
      exists u,
        In (name, NumCol u) (columns raw) /\
        let sorted := Pandas.take_rows order u in
        v = Pandas.ffill sorted /\
        length v = length sorted /\
        (length u = length labels ->
         forall t i, order !! t = Some i -> sorted !! t = u !! i) /\
        (forall i x, sorted !! i = Some x -> Float.isnan x = false -> v !! i = Some x) /\
        (forall i j x, i < j -> sorted !! i = Some x -> Float.isnan x = false ->
           (forall k, i < k <= j -> sorted !! k = Some NaN) -> v !! j = Some x) /\
        (forall i, (forall j, j <= i -> sorted !! j = Some NaN) -> v !! i = Some NaN) /\
        (forall i j x, i <= j < length v ->
           v !! i = Some x -> Float.isnan x = false ->
           exists y, v !! j = Some y /\ Float.isnan y = false).
Proof.
  intros Hok. apply prepare_data_Ok in Hok.
  destruct Hok as [trade_date [labels [Hget [Hparse ->]]]].
  exists trade_date, labels. split; [exact Hget|]. split; [exact Hparse|].
  cbv zeta. rewrite prepare_data_columns.
  change (index (BaseAnalyzer._handle_missing_values
                   (Pandas.sort_index (Pandas.set_index raw "trade_date" labels))))
    with (Pandas.take_rows (argsort labels) labels).
  pose proof (take_argsort_sorted labels) as Hsorted.
  pose proof (take_argsort_Permutation labels) as Hperm.
  split; [apply argsort_Permutation|]. split; [reflexivity|].
  split; [intros t i; apply take_rows_lookup, argsort_in_range|].
  split; [exact Hsorted|]. split; [exact Hperm|]. split.
  { rewrite <- (sorted_strict_iff_NoDup _ Hsorted). now rewrite <- Hperm. }
  split; [reflexivity|].
  intros name v Hin.
  apply in_map_iff in Hin. destruct Hin as [[n c] [Heq Hin]].
  apply filter_In in Hin as [Hin _].
  destruct c as [u|u]; cbn [fst snd] in Heq; [|discriminate].
  injection Heq as -> <-.
  exists u. split; [exact Hin|].
  unfold Pandas.ffill. split; [reflexivity|].
  split; [apply length_ffill_from|]. split.
  { intros Hlen t i. apply take_rows_lookup.
    intros j Hj. rewrite Hlen. now apply argsort_in_range. }
  split; [intros i x; apply ffill_from_keeps|].
  split; [intros i j x; apply ffill_from_fill_value|].
  split; [apply ffill_from_leading_gap|].
  intros i j x Hij. rewrite length_ffill_from in Hij.
  now apply ffill_from_no_gap.
Qed.

Lemma prepare_data_schema_error_witness :
  (Pandas.has_column (mkDataFrame [0%Z] [("close", NumCol [Fin 1])]) "trade_date" = false /\
   BaseAnalyzer._prepare_data
       (H := epoch_ns) (H0 := insertion_argsort) (mkDataFrame [0%Z] [("close", NumCol [Fin 1])]) =
   Raise (ValueError_missing_columns ["trade_date"; "close"]))
  /\
  (Pandas.has_column (price_table [1%Z] [Fin 1]) "trade_date" = true /\
   Pandas.has_column (price_table [1%Z] [Fin 1]) "close" = true /\
   forall cols, BaseAnalyzer._prepare_data
       (H := epoch_ns) (H0 := insertion_argsort) (price_table [1%Z] [Fin 1]) <>
                Raise (ValueError_missing_columns cols)).
Proof.
  split.
  - split; [reflexivity|].
    apply (prepare_data_schema_error (H := epoch_ns) (H0 := insertion_argsort)). left. reflexivity.
  - split; [reflexivity|]. split; [reflexivity|].
    apply (prepare_data_schema_error (H := epoch_ns) (H0 := insertion_argsort)). split; reflexivity.
Defined.

Lemma prepare_data_invariants_witness :
  BaseAnalyzer._prepare_data (H := epoch_ns) (H0 := insertion_argsort)
    (price_table [4; 1; 3; 2]%Z [NaN; Fin 10; Fin 30; NaN]) =
  Ok (mkDataFrame [1; 2; 3; 4]%Z [("close", NumCol [Fin 10; Fin 10; Fin 30; Fin 30])])
  /\ StronglySorted Z.le [1; 2; 3; 4]%Z.
Proof.
  split; [reflexivity|].
  destruct (prepare_data_invariants (H := epoch_ns) (H0 := insertion_argsort)
              (price_table [4; 1; 3; 2]%Z [NaN; Fin 10; Fin 30; NaN])
              (mkDataFrame [1; 2; 3; 4]%Z
                 [("close", NumCol [Fin 10; Fin 10; Fin 30; Fin 30])])
              eq_refl) as (trade_date & labels & _ & _ & _ & _ & _ & Hsorted & _).
  exact Hsorted.
Defined.

(** C1, the claim as stated fails: two rows of one date stay two rows, so the
    prepared index repeats the date and is not strictly ascending. *)
Lemma prepare_data_duplicate_dates :
  BaseAnalyzer._prepare_data (H := epoch_ns) (H0 := insertion_argsort)
    (price_table [20240102; 20240102]%Z [Fin 10; Fin 11]) =
  Ok (mkDataFrame [20240102; 20240102]%Z [("close", NumCol [Fin 10; Fin 11])])
  /\ ~ NoDup [20240102; 20240102]%Z
  /\ ~ StronglySorted Z.lt [20240102; 20240102]%Z.
Proof.
  split; [reflexivity|]. split.
  - intros Hnd. inversion Hnd as [|? ? Hnotin _]; subst.
    apply Hnotin. left.
  - intros Hs. inversion Hs as [|? ? _ Hlt]; subst.
    inversion Hlt as [|? ? Hlt' _]; subst. lia.
Qed.

(** ** base_analyzer.py: [_calculate_returns] *)

Section CalculateReturns.
Import Pandas BaseAnalyzer.

Lemma length_shift (v : list float) : length (shift v) = length v.
Proof. unfold shift. rewrite length_take. simpl. lia. Qed.

Lemma shift_lookup_0 (v : list float) (x : float) :
  v !! 0 = Some x -> shift v !! 0 = Some NaN.
Proof. destruct v; [discriminate | reflexivity]. Qed.

Lemma shift_lookup_S (v : list float) (t : nat) (x : float) :
  v !! S t = Some x -> shift v !! S t = v !! t.
Proof.
  intros Hx. unfold shift.
  rewrite lookup_take_lt by (apply lookup_lt_Some in Hx; lia).
  reflexivity.
Qed.

Lemma length_pct_change (v : list float) : length (pct_change v) = length v.
Proof.
  unfold pct_change. rewrite length_zip_with, length_shift.
  unfold ffill. rewrite length_ffill_from. lia.
Qed.

Lemma div_NaN (x : float) : Float.div x NaN = NaN.
Proof. destruct x; reflexivity. Qed.

(** The first change has no predecessor. *)
Lemma pct_change_lookup_0 (v : list float) (x : float) :
  v !! 0 = Some x -> pct_change v !! 0 = Some NaN.
Proof.
  intros Hx. unfold pct_change. rewrite lookup_zip_with.
  destruct (ffill v !! 0) as [d|] eqn:Hd.
  - rewrite (shift_lookup_0 _ _ Hd). simpl. now rewrite div_NaN.
  - apply lookup_ge_None in Hd. apply lookup_lt_Some in Hx.
    unfold ffill in Hd. rewrite length_ffill_from in Hd. lia.
Qed.

Lemma pct_change_lookup_S (v : list float) (t : nat) (cp ct : float) :
  ffill v !! t = Some cp -> ffill v !! S t = Some ct ->
  pct_change v !! S t = Some (Float.sub (Float.div ct cp) Float.one).
Proof.
  intros Hp Hc. unfold pct_change. rewrite lookup_zip_with.
  rewrite Hc. simpl. rewrite (shift_lookup_S _ _ _ Hc), Hp. reflexivity.
Qed.

Lemma fillna_lookup (value : float) (v : list float) (i : nat) (x : float) :
  v !! i = Some x ->
  fillna value v !! i = Some (if Float.isnan x then value else x).
Proof. intros Hx. unfold fillna. now rewrite list_lookup_fmap, Hx. Qed.

Lemma length_fillna (value : float) (v : list float) :
  length (fillna value v) = length v.
Proof. apply length_map. Qed.

Lemma assoc_In {A : Type} (name : string) (l : list (string * A)) (a : A) :
  assoc name l = Some a -> In (name, a) l.
Proof.
  induction l as [|[n b] l IH]; simpl; [discriminate|].
  destruct (String.eqb name n) eqn:E.
  - apply String.eqb_eq in E. intros Heq. injection Heq as ->. subst. now left.
  - intros Ha. right. now apply IH.
Qed.

Lemma getitem_In (df : DataFrame) (name : string) (c : Column) :
  getitem df name = Ok c -> In (name, c) (columns df).
Proof.
  unfold getitem. destruct (assoc name (columns df)) eqn:E; [|discriminate].
  intros Heq. injection Heq as ->. now apply assoc_In.
Qed.

(** *** The changes of an object column *)

Lemma length_ffill_obj_from (last : option string) (v : list (option string)) :
  length (ffill_obj_from last v) = length v.
Proof.
  revert last. induction v as [|x v IH]; intros last; simpl; [reflexivity|].
  now rewrite IH.
Qed.

Lemma map_const_length {A B C : Type} (c : C) (l : list A) (l' : list B) :
  length l = length l' -> List.map (fun _ => c) l = List.map (fun _ => c) l'.
Proof.
  revert l'. induction l as [|a l IH]; intros [|b l'] Hlen; try discriminate; [reflexivity|].
  simpl. f_equal. apply IH. now injection Hlen.
Qed.

Lemma adjacent_values_cons (prev x : option string) (data : list (option string)) :
  adjacent_values prev (x :: data) =
  (notna_obj x && notna_obj prev) || adjacent_values x data.
Proof. reflexivity. Qed.

(** Once a string is carried forward, the next row is divided by it. *)
Lemma adjacent_values_after_string (s : string) (v : list (option string)) :
  v <> [] -> adjacent_values (Some s) (ffill_obj_from (Some s) v) = true.
Proof.
  destruct v as [|x v]; [congruence|]. intros _.
  cbn [ffill_obj_from]. rewrite adjacent_values_cons.
  now destruct x.
Qed.

Lemma adjacent_values_no_string (v : list (option string)) :
  adjacent_values None (ffill_obj_from None v) = true <->
  exists t s, v !! t = Some (Some s) /\ S t < length v.
Proof.
  induction v as [|x v IH].
  - split; [discriminate|]. intros (t & s & Ht & _). destruct t; discriminate.
  - cbn [ffill_obj_from]. rewrite adjacent_values_cons.
    destruct x as [s|]; cbn [notna_obj andb orb].
    + destruct v as [|y v].
      * split; [discriminate|]. intros (t & s' & _ & Hlt). simpl in Hlt. lia.
      * rewrite adjacent_values_after_string by discriminate.
        split; [|reflexivity]. intros _. exists 0, s. split; [reflexivity|simpl; lia].
    + rewrite IH. split.
      * intros (t & s & Ht & Hlt). exists (S t), s. split; [exact Ht|simpl; lia].
      * intros (t & s & Ht & Hlt). destruct t as [|t]; [discriminate|].
        exists t, s. split; [exact Ht|simpl in Hlt; lia].
Qed.

(** The division raises exactly when a string is followed by another row. *)
Lemma pct_change_obj_raises (v : list (option string)) :
  (exists t s, v !! t = Some (Some s) /\ S t < length v) ->
  pct_change_obj v = Raise TypeError.
Proof.
  intros Hrow. apply adjacent_values_no_string in Hrow.
  unfold pct_change_obj, ffill_obj. now rewrite Hrow.
Qed.

Lemma pct_change_obj_Ok (v : list (option string)) :
  (forall t s, v !! t = Some (Some s) -> S t = length v) ->
  pct_change_obj v = Ok (List.map (fun _ => NaN) v).
Proof.
  intros Hlast.
  destruct (adjacent_values None (ffill_obj_from None v)) eqn:E.
  - apply adjacent_values_no_string in E as (t & s & Ht & Hlt).
    specialize (Hlast t s Ht). lia.
  - unfold pct_change_obj, ffill_obj. rewrite E.
    f_equal. apply map_const_length, length_ffill_obj_from.
Qed.

(** Whatever the dtype, the changes that are returned have one entry per
    row, and the first of them is undefined. *)
Lemma pct_change_series_length (c : Column) (w : list float) :
  pct_change_series c = Ok w -> length w = column_length c.
Proof.
  destruct c as [v|v]; cbn [pct_change_series column_length].
  - intros [= <-]. apply length_pct_change.
  - unfold pct_change_obj. destruct (adjacent_values _ _); [discriminate|].
    intros [= <-]. rewrite length_map. apply length_ffill_obj_from.
Qed.

Lemma pct_change_series_lookup_0 (c : Column) (w : list float) (x : float) :
  pct_change_series c = Ok w -> w !! 0 = Some x -> x = NaN.
Proof.
  destruct c as [v|v]; cbn [pct_change_series].
  - intros [= <-] Hx. destruct v as [|a v]; [discriminate|].
    rewrite (pct_change_lookup_0 (a :: v) a eq_refl) in Hx. now injection Hx.
  - unfold pct_change_obj. destruct (adjacent_values _ _); [discriminate|].
    intros [= <-] Hx. rewrite list_lookup_fmap in Hx.
    destruct (ffill_obj v !! 0); [now injection Hx|discriminate].
Qed.

(** A prepared numeric column is its own forward fill. *)
Lemma prepared_column_filled `{DateParser} `{Argsort} (raw df : DataFrame) (name : string)
    (v : list float) :
  _prepare_data raw = Ok df -> getitem df name = Ok (NumCol v) -> ffill v = v.
Proof.
  intros Hok Hget. apply prepare_data_Ok in Hok.
  destruct Hok as (trade_date & labels & _ & _ & ->).
  apply getitem_In, handle_missing_values_columns in Hget.
  destruct Hget as [u [_ ->]]. apply ffill_idempotent.
Qed.

Lemma calculate_returns_numeric (df : DataFrame) (close : list float) :
  getitem df "close" = Ok (NumCol close) ->
  _calculate_returns df =
  Ok (mkSeries (index df) (fillna Float.zero (pct_change close))).
Proof. intros Hget. unfold _calculate_returns. now rewrite Hget. Qed.

End CalculateReturns.

(** C2 (as the code has it). On a prepared table whose [close] column holds at
    least two observations, [_calculate_returns] returns a series on the same
    index and of the same length; [r[0] = 0]; for every [t > 0],
    [r[t] = close[t]/close[t-1] - 1] where that value is defined and [r[t] = 0]
    where it is undefined; and a constant close [c > 0] gives all zeros. *)
Theorem calculate_returns_spec `{DateParser} `{Argsort} (raw df : DataFrame) (close : list float) :
  BaseAnalyzer._prepare_data raw = Ok df ->
  Pandas.getitem df "close" = Ok (NumCol close) ->
  2 <= length close ->
  exists r,
    BaseAnalyzer._calculate_returns df = Ok r /\
    s_index r = index df /\
    length (s_values r) = length close /\
    s_values r !! 0 = Some (Fin 0) /\
    (forall t cp ct,
        close !! t = Some cp -> close !! S t = Some ct ->
        s_values r !! S t =
        Some (let x := Float.sub (Float.div ct cp) Float.one in
              if Float.isnan x then Fin 0 else x)) /\
    (forall c, (0 < c)%Q -> Forall (fun x => x = Fin c) close ->
               Forall (fun x => x = Fin 0) (s_values r)).
Proof.
  intros Hok Hget Hlen.
  pose proof (prepared_column_filled _ _ _ _ Hok Hget) as Hfilled.
  rewrite (calculate_returns_numeric _ _ Hget).
  eexists. split; [reflexivity|]. simpl.
  assert (Hstep : forall t cp ct,
             close !! t = Some cp -> close !! S t = Some ct ->
             Pandas.fillna Float.zero (Pandas.pct_change close) !! S t =
             Some (let x := Float.sub (Float.div ct cp) Float.one in
                   if Float.isnan x then Fin 0 else x)).
  { intros t cp ct Hp Hc.
    erewrite fillna_lookup; [reflexivity|].
    apply pct_change_lookup_S; now rewrite Hfilled. }
  assert (Hfirst : Pandas.fillna Float.zero (Pandas.pct_change close) !! 0 = Some (Fin 0)).
  { destruct (lookup_lt_is_Some_2 close 0 ltac:(lia)) as [x Hx].
    erewrite fillna_lookup; [|exact (pct_change_lookup_0 _ _ Hx)]. reflexivity. }
  split; [reflexivity|].
  split; [now rewrite length_fillna, length_pct_change|].
  split; [exact Hfirst|]. split; [exact Hstep|].
  intros c Hc Hconst. apply Forall_lookup. intros i x Hx.
  destruct i as [|t]; [rewrite Hfirst in Hx; congruence|].
  assert (Hi : S t < length close).
  { apply lookup_lt_Some in Hx.
    now rewrite length_fillna, length_pct_change in Hx. }
  destruct (lookup_lt_is_Some_2 close t ltac:(lia)) as [cp Hp].
  destruct (lookup_lt_is_Some_2 close (S t) Hi) as [ct Ht].
  rewrite Forall_lookup in Hconst.
  rewrite (Hconst _ _ Hp) in Hp. rewrite (Hconst _ _ Ht) in Ht.
  rewrite (Hstep _ _ _ Hp Ht) in Hx.
  rewrite (pct_of_equal_prices c Hc) in Hx. simpl in Hx.
  injection Hx as <-. reflexivity.
Qed.

Lemma calculate_returns_spec_witness :
  BaseAnalyzer._prepare_data (H := epoch_ns) (H0 := insertion_argsort)
    (price_table [1; 2; 3]%Z [Fin 100; Fin 110; Fin 99]) =
  Ok (mkDataFrame [1; 2; 3]%Z [("close", NumCol [Fin 100; Fin 110; Fin 99])])
  /\ 2 <= length [Fin 100; Fin 110; Fin 99]
  /\ exists r,
       BaseAnalyzer._calculate_returns
         (mkDataFrame [1; 2; 3]%Z [("close", NumCol [Fin 100; Fin 110; Fin 99])]) = Ok r
       /\ s_index r = [1; 2; 3]%Z
       /\ length (s_values r) = 3
       /\ s_values r !! 0 = Some (Fin 0).
Proof.
  split; [reflexivity|]. split; [simpl; lia|].
  destruct (calculate_returns_spec (H := epoch_ns) (H0 := insertion_argsort)
              (price_table [1; 2; 3]%Z [Fin 100; Fin 110; Fin 99])
              (mkDataFrame [1; 2; 3]%Z [("close", NumCol [Fin 100; Fin 110; Fin 99])])
              [Fin 100; Fin 110; Fin 99] eq_refl eq_refl ltac:(simpl; lia))
    as (r & Hr & Hindex & Hlength & Hfirst & _).
  exists r. repeat split; assumption.
Defined.

(** C2, the claim as stated fails: after a leading gap the quotient
    [close[1]/close[0] - 1] is undefined, yet [r[1]] is 0. *)
Lemma calculate_returns_leading_gap :
  BaseAnalyzer._prepare_data (H := epoch_ns) (H0 := insertion_argsort)
    (price_table [1; 2; 3]%Z [NaN; Fin 100; Fin 110]) =
  Ok (mkDataFrame [1; 2; 3]%Z [("close", NumCol [NaN; Fin 100; Fin 110])])
  /\ BaseAnalyzer._calculate_returns
       (mkDataFrame [1; 2; 3]%Z [("close", NumCol [NaN; Fin 100; Fin 110])]) =
     Ok (mkSeries [1; 2; 3]%Z [Fin 0; Fin 0; Fin (1 # 10)])
  /\ Float.sub (Float.div (Fin 100) NaN) Float.one = NaN
  /\ Fin 0 <> Float.sub (Float.div (Fin 100) NaN) Float.one.
Proof. repeat split; try reflexivity. discriminate. Qed.

(** C3 (as the code has it). On a [close] column of fewer than two
    observations [_calculate_returns] does not fail: it returns the series of
    the same length on the same index, zero at every position. *)
Theorem calculate_returns_short_series (df : DataFrame) (close : list float) :
  Pandas.getitem df "close" = Ok (NumCol close) ->
  length close < 2 ->
  BaseAnalyzer._calculate_returns df =
  Ok (mkSeries (index df) (List.map (fun _ => Fin 0) close)).
Proof.
  intros Hget Hlen. rewrite (calculate_returns_numeric _ _ Hget).
  destruct close as [|x [|y close]]; [reflexivity | | simpl in Hlen; lia].
  destruct x as [|neg|q]; reflexivity.
Qed.

Lemma calculate_returns_short_series_witness :
  Pandas.getitem (mkDataFrame [1%Z] [("close", NumCol [Fin 10])]) "close" =
  Ok (NumCol [Fin 10])
  /\ length [Fin 10] < 2
  /\ BaseAnalyzer._calculate_returns (mkDataFrame [1%Z] [("close", NumCol [Fin 10])]) =
     Ok (mkSeries [1%Z] [Fin 0]).
Proof.
  split; [reflexivity|]. split; [simpl; lia|].
  apply (calculate_returns_short_series
           (mkDataFrame [1%Z] [("close", NumCol [Fin 10])]) [Fin 10]);
    [reflexivity | simpl; lia].
Defined.

(** C3, the claim as stated fails: a prepared table of one observation gets a
    one-point return series, not an error. *)
Lemma calculate_returns_single_observation :
  BaseAnalyzer._prepare_data
      (H := epoch_ns) (H0 := insertion_argsort) (price_table [20240102%Z] [Fin 10]) =
  Ok (mkDataFrame [20240102%Z] [("close", NumCol [Fin 10])])
  /\ BaseAnalyzer._calculate_returns
       (mkDataFrame [20240102%Z] [("close", NumCol [Fin 10])]) =
     Ok (mkSeries [20240102%Z] [Fin 0]).
Proof. split; reflexivity. Qed.

(** ** cluster_analyzer.py: the model cache *)

Section Clustering.
Import ClusterAnalyzer.
Context `{Sklearn}.

Lemma perform_clustering_cached (self : t) (data_scaled : Matrix) (k : nat) (kmeans : KMeans) :
  kmeans_models self !! k = Some kmeans ->
  perform_clustering self data_scaled k = (Ok (cluster_frame (labels_ kmeans)), self).
Proof. intros Hk. unfold perform_clustering. now rewrite Hk. Qed.

Lemma perform_clustering_fresh (self : t) (data_scaled : Matrix) (k : nat) :
  kmeans_models self !! k = None ->
  fst (perform_clustering self data_scaled k) =
  kmeans ← KMeans_fit k 42 10 data_scaled; Ok (cluster_frame (labels_ kmeans)).
Proof.
  intros Hk. unfold perform_clustering. rewrite Hk.
  destruct (KMeans_fit k 42 10 data_scaled); reflexivity.
Qed.

(** The loop stores, for every [k] it gets through, the model fitted on its
    own argument, and leaves the other entries alone. *)
Lemma find_optimal_clusters_loop_cache (ks : list nat) (X : Matrix) (self self' : t)
    (ins sils : list float) (out : list float * list float) (k : nat) :
  find_optimal_clusters_loop ks X self ins sils = (Ok out, self') ->
  (In k ks ->
   exists kmeans, KMeans_fit k 42 10 X = Ok kmeans /\ kmeans_models self' !! k = Some kmeans)
  /\ (~ In k ks -> kmeans_models self' !! k = kmeans_models self !! k).
Proof.
  revert self ins sils.
  induction ks as [|k0 ks IH]; intros self ins sils Hrun; simpl in Hrun.
  - injection Hrun as _ <-. split; [intros [] | reflexivity].
  - destruct (KMeans_fit k0 42 10 X) as [kmeans|e] eqn:Hfit; [|discriminate].
    destruct (silhouette_score X (labels_ kmeans)) as [score|e]; [|discriminate].
    apply IH in Hrun. destruct Hrun as [Hin Hout].
    destruct (in_dec Nat.eq_dec k ks) as [Hk|Hk].
    + split; [intros _; now apply Hin | intros Hno; exfalso; apply Hno; now right].
    + split.
      * intros [-> | Hk']; [|contradiction].
        exists kmeans. split; [exact Hfit|].
        rewrite (Hout Hk). simpl. apply lookup_insert_eq.
      * intros Hno. rewrite (Hout Hk). simpl.
        apply lookup_insert_ne. intros ->. apply Hno. now left.
Qed.

End Clustering.

(** C7. For a fixed standardized matrix and a fixed [k], [perform_clustering]
    called twice gives the same outcome: on one instance, whatever its cache
    holds, the second call repeats the result of the first; and on any two
    fresh instances both calls give the labels of the one fit with seed 42 and
    10 restarts. *)
Theorem perform_clustering_deterministic `{Sklearn}
    (self : ClusterAnalyzer.t) (data_scaled : Matrix) (k : nat) :
  fst (ClusterAnalyzer.perform_clustering
         (snd (ClusterAnalyzer.perform_clustering self data_scaled k)) data_scaled k) =
  fst (ClusterAnalyzer.perform_clustering self data_scaled k)
  /\
  forall max_clusters max_clusters',
    fst (ClusterAnalyzer.perform_clustering
           (ClusterAnalyzer.__init__ max_clusters) data_scaled k) =
    fst (ClusterAnalyzer.perform_clustering
           (ClusterAnalyzer.__init__ max_clusters') data_scaled k)
    /\
    fst (ClusterAnalyzer.perform_clustering
           (ClusterAnalyzer.__init__ max_clusters) data_scaled k) =
    (kmeans ← KMeans_fit k 42 10 data_scaled;
     Ok (ClusterAnalyzer.cluster_frame (labels_ kmeans))).
Proof.
  split.
  - unfold ClusterAnalyzer.perform_clustering at 2 3.
    destruct (ClusterAnalyzer.kmeans_models self !! k) as [kmeans|] eqn:Hk; simpl.
    + now rewrite (perform_clustering_cached _ _ _ _ Hk).
    + destruct (KMeans_fit k 42 10 data_scaled) as [kmeans|e] eqn:Hfit; simpl.
      * erewrite perform_clustering_cached; [reflexivity|].
        simpl. apply lookup_insert_eq.
      * unfold ClusterAnalyzer.perform_clustering. now rewrite Hk, Hfit.
  - intros m m'.
    rewrite !perform_clustering_fresh by apply lookup_empty.
    split; reflexivity.
Qed.

(** C10. [perform_clustering] on an instance whose cache holds a model for [k]
    returns the labels of that model whatever matrix it is given; so after
    [find_optimal_clusters] has run on [X], [perform_clustering Y k] for a [k]
    of the sweep returns the labels fitted on [X], not labels computed from
    [Y]. *)
Theorem perform_clustering_reuses_cache `{Sklearn}
    (self : ClusterAnalyzer.t) (Y : Matrix) (k : nat) :
  (forall kmeans,
      ClusterAnalyzer.kmeans_models self !! k = Some kmeans ->
      ClusterAnalyzer.perform_clustering self Y k =
      (Ok (ClusterAnalyzer.cluster_frame (labels_ kmeans)), self))
  /\
  (forall before X metrics,
      ClusterAnalyzer.find_optimal_clusters before X = (Ok metrics, self) ->
      2 <= k <= ClusterAnalyzer.max_clusters before ->
      exists kmeans,
        KMeans_fit k 42 10 X = Ok kmeans /\
        ClusterAnalyzer.perform_clustering self Y k =
        (Ok (ClusterAnalyzer.cluster_frame (labels_ kmeans)), self)).
Proof.
  split; [intros kmeans; apply perform_clustering_cached|].
  intros before X metrics Hrun Hk.
  unfold ClusterAnalyzer.find_optimal_clusters in Hrun.
  apply (find_optimal_clusters_loop_cache _ _ _ _ _ _ _ k) in Hrun.
  destruct Hrun as [Hin _].
  destruct Hin as [kmeans [Hfit Hcache]].
  { unfold ClusterAnalyzer.k_range. apply in_seq. lia. }
  exists kmeans. split; [exact Hfit|].
  now apply perform_clustering_cached.
Qed.

Lemma perform_clustering_reuses_cache_witness :
  ClusterAnalyzer.find_optimal_clusters (H := sign_sklearn)
    (ClusterAnalyzer.__init__ 3) two_groups =
  (Ok ([Fin 0; Fin 0], [Fin 0; Fin 0]), swept_on_two_groups)
  /\ 2 <= 2 <= ClusterAnalyzer.max_clusters (ClusterAnalyzer.__init__ 3)
  /\ fst (ClusterAnalyzer.perform_clustering (H := sign_sklearn)
            swept_on_two_groups two_groups_mirrored 2) =
     Ok (mkClusterFrame [0; 1; 2] [0; 1; 1])
  /\ fst (ClusterAnalyzer.perform_clustering (H := sign_sklearn)
            (ClusterAnalyzer.__init__ 3) two_groups_mirrored 2) =
     Ok (mkClusterFrame [0; 1; 2] [1; 0; 0]).
Proof.
  split; [reflexivity|]. split; [simpl; lia|].
  destruct (perform_clustering_reuses_cache (H := sign_sklearn)
              swept_on_two_groups two_groups_mirrored 2) as [_ Hsweep].
  destruct (Hsweep (ClusterAnalyzer.__init__ 3) two_groups
              ([Fin 0; Fin 0], [Fin 0; Fin 0]) eq_refl ltac:(simpl; lia))
    as (kmeans & Hfit & Hrun).
  split; [|reflexivity].
  rewrite Hrun. simpl. injection Hfit as <-. reflexivity.
Defined.

(** ** Order on floats *)

Section FloatOrder.

Lemma Qle_bool_false (x y : Q) : Qle_bool x y = false -> (y <= x)%Q.
Proof.
  intros Hf. destruct (Qlt_le_dec y x) as [Hlt|Hle].
  - now apply Qlt_le_weak.
  - apply Qle_bool_iff in Hle. congruence.
Qed.

Ltac split_signs :=
  repeat match goal with
         | s : bool |- _ => destruct s
         end;
  simpl; try congruence; try reflexivity.

Lemma ltb_asym (a b : float) : Float.ltb a b = true -> Float.ltb b a = false.
Proof.
  destruct a as [|s|x], b as [|s'|y]; simpl; try discriminate; try reflexivity;
    try solve [split_signs].
  intros Hlt. apply negb_true_iff in Hlt. apply Qle_bool_false in Hlt.
  apply negb_false_iff. now apply Qle_bool_iff.
Qed.

Lemma not_ltb_trans (a b c : float) :
  Float.isnan b = false ->
  Float.ltb a b = false -> Float.ltb b c = false -> Float.ltb a c = false.
Proof.
  destruct a as [|s|x], b as [|s'|y], c as [|s''|z]; simpl;
    try discriminate; try reflexivity; intros _; try solve [split_signs].
  intros Hxy Hyz. apply negb_false_iff in Hxy, Hyz.
  apply Qle_bool_iff in Hxy, Hyz.
  apply negb_false_iff, Qle_bool_iff. now apply (Qle_trans _ y).
Qed.

Lemma eqb_not_ltb (a b c : float) :
  Float.eqb a c = true -> Float.eqb b c = true -> Float.ltb a b = false.
Proof.
  destruct a as [|s|x], b as [|s'|y], c as [|s''|z]; simpl;
    try discriminate; try reflexivity; try solve [split_signs].
  intros Hx Hy. apply Qeq_bool_iff in Hx, Hy.
  apply negb_false_iff, Qle_bool_iff. rewrite Hx, Hy. apply Qle_refl.
Qed.

Lemma gtb_not_nan (a b : float) : Float.gtb a b = true -> Float.isnan a = false.
Proof. destruct a, b; simpl; try discriminate; reflexivity. Qed.

Lemma abs_not_nan (a : float) : Float.isnan (Float.abs a) = Float.isnan a.
Proof. now destruct a. Qed.

End FloatOrder.

(** ** correlation_analyzer.py: the strong pairs *)

Section StrongPairs.
Import Pandas CorrelationAnalyzer.

Lemma flat_map_pairs {B : Type} (g : nat -> nat -> list B) (r : nat -> list nat) (l : list nat) :
  flat_map (fun i => flat_map (g i) (r i)) l =
  flat_map (fun p => g (fst p) (snd p)) (flat_map (fun i => List.map (pair i) (r i)) l).
Proof.
  induction l as [|i l IH]; simpl; [reflexivity|].
  rewrite flat_map_app, IH. f_equal.
  induction (r i) as [|j js IHj]; simpl; [reflexivity|].
  now rewrite IHj.
Qed.

Lemma flat_map_if {B C : Type} (f : B -> bool) (h : B -> C) (l : list B) :
  flat_map (fun p => if f p then [h p] else []) l = List.map h (List.filter f l).
Proof.
  induction l as [|p l IH]; simpl; [reflexivity|].
  destruct (f p); simpl; now rewrite IH.
Qed.

(** The loops collect the strong entries above the diagonal, in row order. *)
Lemma high_corr_pairs_upper (m : CorrelationMatrix) :
  high_corr_pairs m =
  List.map (entry m) (List.filter (strong m) (upper_pairs (length (names m)))).
Proof.
  unfold high_corr_pairs, upper_pairs.
  rewrite (flat_map_pairs
             (fun i j => if Float.gtb (Float.abs (iloc m i j)) threshold
                         then [(name_at m i, name_at m j, iloc m i j)] else [])
             (fun i => seq (i + 1) (length (names m) - (i + 1)))).
  apply (flat_map_if (strong m) (entry m)).
Qed.

Lemma upper_pairs_In (n i j : nat) : In (i, j) (upper_pairs n) <-> i < j < n.
Proof.
  unfold upper_pairs. rewrite in_flat_map. split.
  - intros [i' [Hi' Hin]]. apply in_map_iff in Hin.
    destruct Hin as [j' [Heq Hj']]. injection Heq as -> ->.
    apply in_seq in Hi', Hj'. lia.
  - intros Hij. exists i. split; [apply in_seq; lia|].
    apply in_map_iff. exists j. split; [reflexivity | apply in_seq; lia].
Qed.

Lemma upper_pairs_row_NoDup (i : nat) (js : list nat) :
  List.NoDup js -> List.NoDup (List.map (pair i) js).
Proof.
  intros Hnd. apply Finite.Injective_map_NoDup; [|exact Hnd].
  intros a b Heq. now injection Heq.
Qed.

Lemma flat_map_rows_NoDup (r : nat -> list nat) (l : list nat) :
  List.NoDup l -> (forall i, List.NoDup (r i)) ->
  List.NoDup (flat_map (fun i => List.map (pair i) (r i)) l).
Proof.
  intros Hl Hr. induction Hl as [|i l Hi Hl IH]; simpl; [constructor|].
  apply NoDup_ListNoDup, NoDup_app. split; [|split].
  - apply NoDup_ListNoDup, upper_pairs_row_NoDup, Hr.
  - intros [a b] Hin Hin'.
    apply list_elem_of_In, in_map_iff in Hin. destruct Hin as [b' [Heq _]].
    injection Heq as <- <-.
    apply list_elem_of_In, in_flat_map in Hin'. destruct Hin' as [i' [Hi' Hin']].
    apply in_map_iff in Hin'. destruct Hin' as [b'' [Heq _]].
    injection Heq as -> _. contradiction.
  - apply NoDup_ListNoDup, IH.
Qed.

(** Each position above the diagonal is visited once. *)
Lemma upper_pairs_NoDup (n : nat) : List.NoDup (upper_pairs n).
Proof.
  apply (flat_map_rows_NoDup (fun i => seq (i + 1) (n - (i + 1)))).
  - apply List.seq_NoDup.
  - intros i. apply List.seq_NoDup.
Qed.

Lemma by_abs_desc_total (x y : string * string * float) :
  by_abs_desc x y = false -> by_abs_desc y x = true.
Proof.
  unfold by_abs_desc. intros Hf. apply negb_false_iff in Hf.
  apply negb_true_iff. now apply ltb_asym.
Qed.

Lemma by_abs_desc_trans (x y z : string * string * float) :
  Float.isnan (snd y) = false ->
  by_abs_desc x y = true -> by_abs_desc y z = true -> by_abs_desc x z = true.
Proof.
  unfold by_abs_desc. intros Hy Hxy Hyz.
  apply negb_true_iff in Hxy, Hyz. apply negb_true_iff.
  apply (not_ltb_trans _ (Float.abs (snd y))); [|assumption|assumption].
  now rewrite abs_not_nan.
Qed.

Lemma high_corr_pairs_not_nan (m : CorrelationMatrix) :
  List.Forall (fun x => Float.isnan (snd x) = false) (high_corr_pairs m).
Proof.
  rewrite high_corr_pairs_upper. apply List.Forall_forall.
  intros x Hx. apply in_map_iff in Hx. destruct Hx as [p [<- Hp]].
  apply filter_In in Hp. destruct Hp as [_ Hp].
  unfold strong in Hp. apply gtb_not_nan in Hp.
  now rewrite abs_not_nan in Hp.
Qed.

(** What [_print_correlation_analysis] prints: every position above the
    diagonal with [abs(corr) > 0.5] once and no other, by descending absolute
    coefficient, ties in the order of the loops. *)
Theorem print_correlation_analysis_spec (m : CorrelationMatrix) :
  let n := length (names m) in
  let visited := List.map (entry m) (List.filter (strong m) (upper_pairs n)) in
  List.NoDup (upper_pairs n) /\
  (forall i j, In (i, j) (upper_pairs n) <-> i < j < n) /\
  Permutation (_print_correlation_analysis m) visited /\
  StronglySorted (fun x y => Float.ltb (Float.abs (snd x)) (Float.abs (snd y)) = false)
                 (_print_correlation_analysis m) /\
  (forall c, List.filter (tied_at c) (_print_correlation_analysis m) =
             List.filter (tied_at c) visited).
Proof.
  intros n visited.
  split; [apply upper_pairs_NoDup|].
  split; [intros i j; apply upper_pairs_In|].
  unfold _print_correlation_analysis, visited, n.
  rewrite <- high_corr_pairs_upper.
  split; [apply stable_sort_Permutation|]. split.
  - assert (Hs : StronglySorted (le_rel by_abs_desc)
                   (stable_sort by_abs_desc (high_corr_pairs m))).
    { apply (stable_sort_sorted by_abs_desc (fun x => Float.isnan (snd x) = false)).
      - apply by_abs_desc_total.
      - apply by_abs_desc_trans.
      - apply high_corr_pairs_not_nan. }
    induction Hs as [|x l Hs IH Hx]; constructor; [exact IH|].
    eapply List.Forall_impl; [|exact Hx].
    intros y Hy. unfold le_rel, by_abs_desc in Hy. now apply negb_true_iff in Hy.
  - intros c. apply stable_sort_filter.
    intros x y Hx Hy. unfold by_abs_desc. apply negb_true_iff.
    now apply (eqb_not_ltb _ _ c).
Qed.

(** On the table with coefficients (A,B) 0.8, (A,C) 0.3, (B,C) -0.6 both
    implementations print (A,B,0.8) and then (B,C,-0.6). *)
Lemma strong_pairs_example :
  _print_correlation_analysis example_matrix =
  [("A", "B", Fin (8 # 10)); ("B", "C", Fin (-6 # 10))]
  /\ stable_sort CorrelationScript.by_tuple_desc
       (CorrelationScript.high_corr_pairs example_matrix) =
     [(Fin (8 # 10), Fin (8 # 10), "A", "B"); (Fin (6 # 10), Fin (-6 # 10), "B", "C")].
Proof. split; reflexivity. Qed.

End StrongPairs.

(** C6, where the code departs from the claim.  Three instruments whose
    pairwise coefficients are all 1: [_print_correlation_analysis] lists the
    ties in the order of the rows and columns, (A,B), (A,C), (B,C);
    [analyze_correlation] sorts whole tuples in reverse and lists them as
    (B,C), (A,C), (A,B). *)
Theorem analyze_correlation_tie_order :
  snd <$> CorrelationScript.analyze_correlation (H := exact_sqrt) three_rising =
  Ok [("B", "C", Fin 1); ("A", "C", Fin 1); ("A", "B", Fin 1)]
  /\
  CorrelationAnalyzer._print_correlation_analysis <$>
    CorrelationAnalyzer.calculate_returns_correlation (H := exact_sqrt) three_rising =
  Ok [("A", "B", Fin 1); ("A", "C", Fin 1); ("B", "C", Fin 1)].
Proof. split; vm_compute; reflexivity. Qed.

(** ** Sums of squared deviations *)

Section SquaredDeviations.
Import Pandas.
Local Open Scope Q_scope.

Lemma Qsum_zero (l : list Q) : List.Forall (fun t => t == 0) l -> Qsum l == 0.
Proof.
  induction 1 as [|t l Ht _ IH]; simpl; [reflexivity|].
  rewrite Ht, IH. reflexivity.
Qed.

Lemma Qsum_nonneg (l : list Q) : List.Forall (fun t => 0 <= t) l -> 0 <= Qsum l.
Proof.
  induction 1 as [|t l Ht _ IH]; simpl; [apply Qle_refl|].
  cbv beta in Ht. lra.
Qed.

Lemma Qsum_zero_inv (l : list Q) :
  List.Forall (fun t => 0 <= t) l -> Qsum l == 0 -> List.Forall (fun t => t == 0) l.
Proof.
  induction 1 as [|t l Ht Hl IH]; simpl; intros Hsum; [constructor|].
  pose proof (Qsum_nonneg l Hl) as Hnn. cbv beta in Ht.
  constructor; [lra|]. apply IH. lra.
Qed.

Lemma square_nonneg (d : Q) : 0 <= d * d.
Proof.
  destruct (Qlt_le_dec d 0) as [Hneg|Hpos].
  - assert (E : d * d == (- d) * (- d)) by ring.
    rewrite E. apply Qmult_le_0_compat; lra.
  - now apply Qmult_le_0_compat.
Qed.

Lemma squares_nonneg (m : Q) (l : list Q) :
  List.Forall (fun t => 0 <= t) (List.map (fun v => (v - m) * (v - m)) l).
Proof.
  apply List.Forall_forall. intros t Ht.
  apply in_map_iff in Ht. destruct Ht as [v [<- _]]. apply square_nonneg.
Qed.

Lemma ssqdm_nonneg (l : list Q) : 0 <= ssqdm l.
Proof. apply Qsum_nonneg, squares_nonneg. Qed.

(** The sum vanishes only when every value is the mean. *)
Lemma ssqdm_zero_inv (l : list Q) (v : Q) :
  ssqdm l == 0 -> In v l -> v == mean l.
Proof.
  intros Hz Hv. unfold ssqdm in Hz.
  apply Qsum_zero_inv in Hz; [|apply squares_nonneg].
  rewrite List.Forall_forall in Hz.
  assert (Hsq : (v - mean l) * (v - mean l) == 0).
  { apply Hz. apply in_map_iff. exists v. split; [reflexivity | exact Hv]. }
  apply Qmult_integral in Hsq. lra.
Qed.

Lemma Qsum_constant (c : Q) (l : list Q) :
  (forall v, In v l -> v == c) -> Qsum l == inject_Z (Z.of_nat (length l)) * c.
Proof.
  induction l as [|a l IH]; intros Hc.
  - change (0 == 0 * c). ring.
  - change (a + Qsum l == inject_Z (Z.of_nat (S (length l))) * c).
    rewrite (Hc a) by now left.
    rewrite IH by (intros v Hv; apply Hc; now right).
    rewrite Nat2Z.inj_succ. unfold Z.succ. rewrite inject_Z_plus. ring.
Qed.

Lemma mean_constant (c : Q) (l : list Q) :
  l <> [] -> (forall v, In v l -> v == c) -> mean l == c.
Proof.
  intros Hne Hc. unfold mean. rewrite (Qsum_constant c l Hc).
  assert (Hn : ~ inject_Z (Z.of_nat (length l)) == 0).
  { destruct l as [|a l]; [congruence|].
    unfold Qeq. simpl. lia. }
  field. exact Hn.
Qed.

(** Values that are all equal have no deviation. *)
Lemma ssqdm_constant (l : list Q) :
  (forall u v, In u l -> In v l -> u == v) -> ssqdm l == 0.
Proof.
  intros Heq. destruct l as [|a l]; [reflexivity|].
  assert (Hmean : mean (a :: l) == a).
  { apply mean_constant; [discriminate|].
    intros v Hv. apply Heq; [exact Hv | now left]. }
  unfold ssqdm. apply Qsum_zero. apply List.Forall_forall.
  intros t Ht. apply in_map_iff in Ht. destruct Ht as [v [<- Hv]].
  rewrite Hmean. rewrite (Heq v a Hv) by now left. lra.
Qed.

Lemma ssqdm_differ (l : list Q) (u v : Q) :
  In u l -> In v l -> ~ u == v -> ~ ssqdm l == 0.
Proof.
  intros Hu Hv Hne Hz. apply Hne.
  rewrite (ssqdm_zero_inv l u Hz Hu), (ssqdm_zero_inv l v Hz Hv). reflexivity.
Qed.

End SquaredDeviations.

(** ** The correlation table *)

Section Nancorr.
Import Pandas.
Context `{Sqrt}.

Lemma nancorr_write_symmetric (mat : list (list float)) (xi yi : nat)
    (result : gmap (nat * nat) float) :
  symmetric_cells result -> symmetric_cells (nancorr_write mat xi result yi).
Proof.
  intros Hsym a b. unfold nancorr_write. cbv zeta.
  rewrite !lookup_insert.
  repeat case_decide; simplify_eq; try reflexivity; apply Hsym.
Qed.

Lemma foldl_invariant {S E : Type} (P : S -> Prop) (f : S -> E -> S) (l : list E) (s : S) :
  (forall s e, P s -> P (f s e)) -> P s -> P (foldl f s l).
Proof.
  intros Hstep. revert s. induction l as [|e l IH]; intros s Hs; simpl; [exact Hs|].
  apply IH, Hstep, Hs.
Qed.

Lemma nancorr_symmetric (mat : list (list float)) : symmetric_cells (nancorr mat).
Proof.
  unfold nancorr. apply foldl_invariant.
  - intros result xi Hsym. unfold nancorr_row. apply foldl_invariant; [|exact Hsym].
    intros result' yi. apply nancorr_write_symmetric.
  - intros a b. now rewrite !lookup_empty.
Qed.

(** A row of writes leaves alone the cells that have neither coordinate pair
    of the row. *)
Lemma nancorr_writes_untouched (mat : list (list float)) (xi : nat) (ys : list nat)
    (result : gmap (nat * nat) float) (a b : nat) :
  (a <> xi \/ ~ In b ys) -> (b <> xi \/ ~ In a ys) ->
  foldl (nancorr_write mat xi) result ys !! (a, b) = result !! (a, b).
Proof.
  revert result. induction ys as [|y ys IH]; intros result Ha Hb; simpl; [reflexivity|].
  rewrite IH.
  2: { destruct Ha as [Ha|Ha]; [left; exact Ha | right; intros Hin; apply Ha; right; exact Hin]. }
  2: { destruct Hb as [Hb|Hb]; [left; exact Hb | right; intros Hin; apply Hb; right; exact Hin]. }
  unfold nancorr_write. cbv zeta.
  rewrite !lookup_insert.
  repeat case_decide; simplify_eq; try reflexivity; simpl in *; intuition congruence.
Qed.

Lemma nancorr_writes_written (mat : list (list float)) (xi : nat) (ys : list nat)
    (result : gmap (nat * nat) float) (yi : nat) :
  In yi ys ->
  foldl (nancorr_write mat xi) result ys !! (xi, yi) =
    Some (nancorr_pair (nth xi mat []) (nth yi mat [])) /\
  foldl (nancorr_write mat xi) result ys !! (yi, xi) =
    Some (nancorr_pair (nth xi mat []) (nth yi mat [])).
Proof.
  revert result. induction ys as [|y ys IH]; intros result Hin; [contradiction|].
  simpl. destruct (in_dec Nat.eq_dec yi ys) as [Hlater|Hlast].
  - now apply IH.
  - destruct Hin as [-> | Hin]; [|contradiction].
    assert (Hside : yi <> xi \/ ~ In xi ys).
    { destruct (Nat.eq_dec yi xi) as [<-|Hne]; [right; exact Hlast | left; exact Hne]. }
    rewrite !nancorr_writes_untouched by tauto.
    unfold nancorr_write. cbv zeta. rewrite !lookup_insert.
    repeat case_decide; simplify_eq; split; reflexivity.
Qed.

(** Every cell of the table holds the value computed for the pair of its
    larger and its smaller coordinate. *)
Lemma nancorr_rows_lookup (mat : list (list float)) (n i j : nat) :
  i < n -> j < n ->
  foldl (nancorr_row mat) ∅ (seq 0 n) !! (i, j) =
  Some (nancorr_pair (nth (Nat.max i j) mat []) (nth (Nat.min i j) mat [])).
Proof.
  induction n as [|n IH]; intros Hi Hj; [lia|].
  rewrite seq_S, foldl_app. simpl. unfold nancorr_row at 1.
  destruct (Nat.eq_dec i n) as [->|Hin].
  - replace (Nat.max n j) with n by lia. replace (Nat.min n j) with j by lia.
    apply nancorr_writes_written. apply in_seq. lia.
  - destruct (Nat.eq_dec j n) as [->|Hjn].
    + replace (Nat.max i n) with n by lia. replace (Nat.min i n) with i by lia.
      apply nancorr_writes_written. apply in_seq. lia.
    + rewrite nancorr_writes_untouched by tauto.
      apply IH; lia.
Qed.

Lemma nancorr_lookup (mat : list (list float)) (i j : nat) :
  i < length mat -> j < length mat ->
  nancorr mat !! (i, j) =
  Some (nancorr_pair (nth (Nat.max i j) mat []) (nth (Nat.min i j) mat [])).
Proof. apply nancorr_rows_lookup. Qed.

Lemma complete_pairs_self (x : list float) :
  complete_pairs x x = List.map (fun q => (q, q)) (omap Float.finite x).
Proof.
  unfold complete_pairs. induction x as [|a x IH]; [reflexivity|].
  destruct a as [| |q]; simpl; [exact IH | exact IH | f_equal; exact IH].
Qed.

Lemma covxy_self (l : list Q) : covxy (List.map (fun q => (q, q)) l) = ssqdm l.
Proof.
  unfold covxy, ssqdm. rewrite !List.map_map. simpl. now rewrite List.map_id.
Qed.

(** A column against itself: 1 unless its finite values have no spread. *)
Lemma nancorr_pair_self `{!SqrtLaws} (x : list float) :
  nancorr_pair x x =
  if Float.Qis0 (ssqdm (omap Float.finite x)) then NaN else Fin 1.
Proof.
  unfold nancorr_pair. rewrite complete_pairs_self.
  set (xs := omap Float.finite x).
  rewrite length_map, !List.map_map. simpl. rewrite List.map_id, covxy_self.
  pose proof (sqrt_square (ssqdm xs) (ssqdm_nonneg xs)) as Hsq.
  destruct (Nat.ltb (length xs) 1) eqn:Hlen.
  - apply Nat.ltb_lt in Hlen. destruct xs; [reflexivity | simpl in Hlen; lia].
  - assert (Hz : Float.Qis0 (sqrt (ssqdm xs * ssqdm xs)) = Float.Qis0 (ssqdm xs)).
    { apply eq_true_iff_eq. rewrite !Qis0_spec, Hsq. reflexivity. }
    rewrite Hz. destruct (Float.Qis0 (ssqdm xs)) eqn:E; [reflexivity|].
    f_equal. change 1%Q with (Qred 1). apply Qred_complete.
    rewrite Hsq. field. intros E'. apply Qis0_spec in E'. congruence.
Qed.

End Nancorr.

(** ** The square root used to run the model obeys the laws *)

Section ExactSqrt.
Local Open Scope Q_scope.

Lemma reduced_square (r : Q) : Qred r = r -> Qred (r * r) = r * r.
Proof.
  intros Hr. apply Qcanon.Qred_identity. apply Qcanon.Qred_identity2 in Hr.
  destruct r as [a b]. simpl in *.
  rewrite Pos2Z.inj_mul.
  change (Z.coprime (a * a) (Z.pos b * Z.pos b)).
  change (Z.coprime a (Z.pos b)) in Hr.
  apply Z.coprime_mul_l; apply Z.coprime_mul_r; assumption.
Qed.

Lemma exact_sqrt_proper (x y : Q) : x == y -> exact_sqrt x == exact_sqrt y.
Proof.
  intros Hxy. unfold exact_sqrt. rewrite (Qred_complete x y Hxy). reflexivity.
Qed.

Lemma exact_sqrt_square (s : Q) : 0 <= s -> exact_sqrt (s * s) == s.
Proof.
  intros Hs. unfold exact_sqrt.
  assert (Hred : Qred (s * s) = Qred s * Qred s).
  { rewrite <- (reduced_square (Qred s) (Qcanon.Qred_involutive s)).
    apply Qred_complete. now rewrite !Qred_correct. }
  rewrite Hred.
  assert (Hnn : 0 <= Qred s) by now rewrite Qred_correct.
  apply (Qeq_trans _ (Qred s)); [|apply Qred_correct].
  destruct (Qred s) as [a b]. simpl.
  assert (Ha : (0 <= a)%Z) by (unfold Qle in Hnn; simpl in Hnn; lia).
  replace (a * a * Z.pos (b * b) * (Z.pos sqrt_scale * Z.pos sqrt_scale))%Z
    with ((a * Z.pos b * Z.pos sqrt_scale) * (a * Z.pos b * Z.pos sqrt_scale))%Z
    by (rewrite Pos2Z.inj_mul; ring).
  rewrite Z.sqrt_square by nia.
  unfold Qeq. simpl. rewrite !Pos2Z.inj_mul. ring.
Qed.

#[global] Instance exact_sqrt_laws : @SqrtLaws exact_sqrt.
Proof. split; [exact exact_sqrt_proper | exact exact_sqrt_square]. Qed.

End ExactSqrt.

(** ** correlation_analyzer.py: [calculate_returns_correlation] *)

Section ReturnsCorrelation.
Import Pandas CorrelationAnalyzer.
Context `{Sqrt}.

Lemma corr_symmetric (df : DataFrame) (i j : nat) :
  iloc (corr df) i j = iloc (corr df) j i.
Proof. unfold corr. simpl. now rewrite nancorr_symmetric. Qed.

Lemma corr_diagonal `{!SqrtLaws} (df : DataFrame) (i : nat) (name : string)
    (column : list float) :
  numeric_columns df !! i = Some (name, column) ->
  iloc (corr df) i i =
  if Float.Qis0 (ssqdm (omap Float.finite column)) then NaN else Fin 1.
Proof.
  intros Hi. unfold corr. simpl.
  assert (Hlen : i < length (List.map snd (numeric_columns df))).
  { rewrite length_map. now apply lookup_lt_Some in Hi. }
  rewrite (nancorr_lookup _ i i Hlen Hlen), Nat.max_id, Nat.min_id. simpl.
  assert (Hcol : nth i (List.map snd (numeric_columns df)) [] = column).
  { apply nth_lookup_Some with (d := []).
    now rewrite list_lookup_fmap, Hi. }
  rewrite Hcol. apply nancorr_pair_self.
Qed.

End ReturnsCorrelation.

(** C5 (as the code has it). The table returned by
    [calculate_returns_correlation] is symmetric.  The diagonal entry of an
    instrument is exactly 1 when its column of the aligned returns holds two
    different finite values, and undefined when all its finite returns are
    equal or it has none. *)
Theorem calculate_returns_correlation_spec `{Sqrt} `{!SqrtLaws}
    (stock_data : list (string * DataFrame)) (m : CorrelationMatrix) :
  CorrelationAnalyzer.calculate_returns_correlation stock_data = Ok m ->
  (forall i j, iloc m i j = iloc m j i) /\
  exists returns_data,
    CorrelationAnalyzer.returns_data_loop stock_data Pandas.empty_frame = Ok returns_data /\
    names m = List.map fst (Pandas.numeric_columns returns_data) /\
    forall i name column,
      Pandas.numeric_columns returns_data !! i = Some (name, column) ->
      ((exists u v, In u (omap Float.finite column) /\
                    In v (omap Float.finite column) /\ ~ (u == v)%Q) ->
       iloc m i i = Fin 1) /\
      ((forall u v, In u (omap Float.finite column) ->
                    In v (omap Float.finite column) -> (u == v)%Q) ->
       iloc m i i = NaN).
Proof.
  unfold CorrelationAnalyzer.calculate_returns_correlation.
  destruct (CorrelationAnalyzer.returns_data_loop stock_data Pandas.empty_frame)
    as [returns_data|e]; simpl; [|discriminate].
  intros Hm. injection Hm as <-.
  split; [apply corr_symmetric|].
  exists returns_data. split; [reflexivity|]. split; [reflexivity|].
  intros i name column Hi. rewrite (corr_diagonal _ _ _ _ Hi).
  split.
  - intros (u & v & Hu & Hv & Hne).
    destruct (Float.Qis0 (Pandas.ssqdm _)) eqn:E; [|reflexivity].
    apply Qis0_spec in E. exfalso. exact (ssqdm_differ _ u v Hu Hv Hne E).
  - intros Heq. apply ssqdm_constant in Heq. apply Qis0_spec in Heq.
    now rewrite Heq.
Qed.

Lemma calculate_returns_correlation_spec_witness :
  CorrelationAnalyzer.calculate_returns_correlation (H := exact_sqrt) three_rising =
  Ok (Pandas.corr (H := exact_sqrt)
        (mkDataFrame [1; 2]%Z
           [("A", NumCol [Fin (1 # 10); Fin (1 # 11)]);
            ("B", NumCol [Fin (1 # 10); Fin (1 # 11)]);
            ("C", NumCol [Fin (1 # 10); Fin (1 # 11)])]))
  /\ forall i j,
       iloc (Pandas.corr (H := exact_sqrt)
               (mkDataFrame [1; 2]%Z
                  [("A", NumCol [Fin (1 # 10); Fin (1 # 11)]);
                   ("B", NumCol [Fin (1 # 10); Fin (1 # 11)]);
                   ("C", NumCol [Fin (1 # 10); Fin (1 # 11)])])) i j =
       iloc (Pandas.corr (H := exact_sqrt)
               (mkDataFrame [1; 2]%Z
                  [("A", NumCol [Fin (1 # 10); Fin (1 # 11)]);
                   ("B", NumCol [Fin (1 # 10); Fin (1 # 11)]);
                   ("C", NumCol [Fin (1 # 10); Fin (1 # 11)])])) j i.
Proof.
  split; [reflexivity|].
  apply (calculate_returns_correlation_spec (H := exact_sqrt) three_rising).
  reflexivity.
Defined.

(** C5, the claim as stated fails: an instrument whose price does not move has
    constant returns, and its diagonal entry is undefined, not 1. *)
Lemma calculate_returns_correlation_constant_price :
  (fun m => iloc m 0 0) <$>
    CorrelationAnalyzer.calculate_returns_correlation (H := exact_sqrt)
      [("A", close_table [Fin 10; Fin 10; Fin 10])] = Ok NaN
  /\ NaN <> Fin 1.
Proof. split; [vm_compute; reflexivity | discriminate]. Qed.

(** ** Rolling windows *)

Section Rolling.
Import Pandas.

Lemma length_window_at {A : Type} (window t : nat) (v : list A) :
  t < length v -> length (window_at window t v) = Nat.min (S t) window.
Proof.
  intros Ht. unfold window_at. rewrite length_skipn, length_firstn. lia.
Qed.

Lemma window_at_lookup {A : Type} (window t k : nat) (v : list A) :
  t < length v -> k < Nat.min (S t) window ->
  window_at window t v !! k = v !! (S t - window + k).
Proof.
  intros Ht Hk. unfold window_at.
  rewrite lookup_drop, lookup_take_lt by lia. reflexivity.
Qed.

(** A window whose rows all hold [x] is [x] repeated. *)
Lemma window_at_constant {A : Type} (window t : nat) (v : list A) (x : A) :
  window - 1 <= t < length v ->
  (forall i, t + 1 - window <= i <= t -> v !! i = Some x) ->
  window_at window t v = replicate window x.
Proof.
  intros [Hw Ht] Hx. apply list_eq. intros k.
  destruct (Nat.lt_ge_cases k window) as [Hk|Hk].
  - rewrite window_at_lookup by lia.
    rewrite Hx by lia. symmetry. apply lookup_replicate_2. exact Hk.
  - rewrite !(proj2 (lookup_ge_None _ _)); [reflexivity | |].
    + now rewrite length_replicate.
    + rewrite length_window_at by lia. lia.
Qed.

Lemma length_omap_le {A B : Type} (f : A -> option B) (l : list A) :
  length (omap f l) <= length l.
Proof.
  induction l as [|a l IH]; [reflexivity|].
  change (omap f (a :: l)) with (match f a with Some b => b :: omap f l | None => omap f l end).
  destruct (f a); simpl; lia.
Qed.

Lemma omap_finite_Fin (obs : list Q) : omap Float.finite (List.map Fin obs) = obs.
Proof.
  induction obs as [|q obs IH]; [reflexivity|].
  change (omap Float.finite (List.map Fin (q :: obs)))
    with (q :: omap Float.finite (List.map Fin obs)).
  now rewrite IH.
Qed.

Section WithSqrt.
Context `{Sqrt}.

Lemma length_rolling_std (window : nat) (v : list float) :
  length (rolling_std window v) = length v.
Proof. unfold rolling_std. now rewrite length_map, length_seq. Qed.

Lemma rolling_std_lookup (window : nat) (v : list float) (t : nat) :
  t < length v -> rolling_std window v !! t = Some (rolling_std_at window v t).
Proof.
  intros Ht. unfold rolling_std.
  rewrite list_lookup_fmap, lookup_seq_lt by exact Ht. reflexivity.
Qed.

(** A window shorter than [window] gives no value. *)
Lemma rolling_std_at_short (window : nat) (v : list float) (t : nat) :
  length (window_at window t v) < window -> rolling_std_at window v t = NaN.
Proof.
  intros Hshort. unfold rolling_std_at.
  pose proof (length_omap_le Float.finite (window_at window t v)) as Hle.
  destruct (Nat.ltb_spec (length (omap Float.finite (window_at window t v))) window);
    [reflexivity | lia].
Qed.

Lemma rolling_std_at_early (window : nat) (v : list float) (t : nat) :
  t < length v -> t < window - 1 -> rolling_std_at window v t = NaN.
Proof.
  intros Ht Hw. apply rolling_std_at_short.
  rewrite length_window_at by exact Ht. lia.
Qed.

(** With [window <= 1] no row has a value. *)
Lemma rolling_std_at_window_1 (window : nat) (v : list float) (t : nat) :
  window <= 1 -> t < length v -> rolling_std_at window v t = NaN.
Proof.
  intros Hw Ht. unfold rolling_std_at.
  pose proof (length_omap_le Float.finite (window_at window t v)) as Hle.
  rewrite length_window_at in Hle by exact Ht.
  destruct (Nat.leb_spec (length (omap Float.finite (window_at window t v))) 1);
    [now rewrite orb_true_r | lia].
Qed.

(** A full window of finite values gives their sample standard deviation. *)
Lemma rolling_std_at_full (window : nat) (v : list float) (t : nat) (obs : list Q) :
  2 <= window -> window - 1 <= t < length v ->
  window_at window t v = List.map Fin obs ->
  length obs = window /\ rolling_std_at window v t = Fin (Qred (sample_std obs)).
Proof.
  intros Hw Ht Hobs.
  assert (Hlen : length obs = window).
  { rewrite <- (length_map Fin obs), <- Hobs, length_window_at by lia. lia. }
  split; [exact Hlen|].
  unfold rolling_std_at. rewrite Hobs, omap_finite_Fin, Hlen.
  destruct (Nat.ltb_spec window window); [lia|].
  destruct (Nat.leb_spec window 1); [lia|]. reflexivity.
Qed.

Lemma ssqdm_replicate (r : Q) (n : nat) : (ssqdm (replicate n r) == 0)%Q.
Proof.
  apply ssqdm_constant. intros u v Hu Hv.
  apply list_elem_of_In, elem_of_replicate in Hu, Hv.
  destruct Hu as [-> _], Hv as [-> _]. reflexivity.
Qed.

(** Equal values have standard deviation zero. *)
Lemma sample_std_replicate `{!SqrtLaws} (r : Q) (n : nat) :
  2 <= n -> Qred (sample_std (replicate n r)) = 0%Q.
Proof.
  intros Hn. change 0%Q with (Qred 0). apply Qred_complete.
  unfold sample_std.
  rewrite (sqrt_proper _ (0 * 0)%Q).
  - apply sqrt_square. apply Qle_refl.
  - rewrite ssqdm_replicate, length_replicate.
    assert (Hd : ~ (inject_Z (Z.of_nat n - 1) == 0)%Q) by (unfold Qeq; simpl; lia).
    field. exact Hd.
Qed.

End WithSqrt.
End Rolling.

(** ** time_window_analyzer.py: [analyze_volatility] *)

Section Volatility.
Import Pandas BaseAnalyzer TimeWindowAnalyzer.

(** The first assignment to [pd.DataFrame()] makes the table of the series. *)
Lemma setitem_empty_frame (name : string) (value : Series) :
  setitem empty_frame name value =
  Ok (mkDataFrame (s_index value) [(name, NumCol (s_values value))]).
Proof.
  unfold setitem, _ensure_valid_index, _reindex_for_setitem, empty_frame. simpl.
  destruct (s_index value) as [|l labels] eqn:E; simpl.
  - reflexivity.
  - rewrite bool_decide_eq_true_2 by reflexivity. reflexivity.
Qed.

Context `{DateParser} `{Sqrt} `{Argsort}.

Lemma analyze_volatility_single (name : string) (raw df : DataFrame) (returns : Series)
    (window : nat) :
  _prepare_data raw = Ok df -> _calculate_returns df = Ok returns ->
  analyze_volatility [(name, raw)] window =
  Ok (mkDataFrame (s_index returns)
        [(name, NumCol (s_values (volatility returns window)))]).
Proof.
  intros Hprep Hret. unfold analyze_volatility. simpl.
  rewrite Hprep. simpl. rewrite Hret. simpl.
  rewrite setitem_empty_frame. reflexivity.
Qed.

Lemma volatility_lookup (returns : Series) (window t : nat) :
  t < length (s_values returns) ->
  s_values (volatility returns window) !! t =
  Some (Float.mul (rolling_std_at window (s_values returns) t) annualization).
Proof.
  intros Ht. unfold volatility. simpl.
  rewrite list_lookup_fmap, rolling_std_lookup by exact Ht. reflexivity.
Qed.

Lemma length_volatility (returns : Series) (window : nat) :
  length (s_values (volatility returns window)) = length (s_values returns).
Proof. unfold volatility. simpl. now rewrite length_map, length_rolling_std. Qed.

End Volatility.

(** C9 (as the code has it). For one instrument, [analyze_volatility] returns
    the table whose column is the volatility series of its returns: same
    index and length, the first [window - 1] rows undefined.  For
    [window >= 2], a row whose window holds [window] finite returns is their
    sample standard deviation multiplied by the square root of 252, and it is
    0 when those returns are all equal.  For [window <= 1] every row is
    undefined. *)
Theorem analyze_volatility_spec `{DateParser} `{Sqrt} `{!SqrtLaws} `{Argsort}
    (name : string) (raw df : DataFrame) (returns : Series) (window : nat) :
  BaseAnalyzer._prepare_data raw = Ok df ->
  BaseAnalyzer._calculate_returns df = Ok returns ->
  exists vol,
    TimeWindowAnalyzer.analyze_volatility [(name, raw)] window =
      Ok (mkDataFrame (s_index returns) [(name, NumCol vol)]) /\
    length vol = length (s_values returns) /\
    (forall t, t < length vol -> t < window - 1 -> vol !! t = Some NaN) /\
    (2 <= window ->
     forall t obs,
       window - 1 <= t < length vol ->
       Pandas.window_at window t (s_values returns) = List.map Fin obs ->
       length obs = window /\
       vol !! t = Some (Float.mul (Fin (Qred (Pandas.sample_std obs)))
                                  TimeWindowAnalyzer.annualization)) /\
    (2 <= window ->
     forall t r,
       window - 1 <= t < length vol ->
       (forall i, t + 1 - window <= i <= t -> s_values returns !! i = Some (Fin r)) ->
       vol !! t = Some (Fin 0)) /\
    (window <= 1 -> forall t, t < length vol -> vol !! t = Some NaN).
Proof.
  intros Hprep Hret.
  exists (s_values (TimeWindowAnalyzer.volatility returns window)).
  split; [now apply (analyze_volatility_single name raw df)|].
  rewrite length_volatility.
  split; [reflexivity|]. split; [|split; [|split]].
  - intros t Ht Hearly. rewrite volatility_lookup by exact Ht.
    now rewrite rolling_std_at_early.
  - intros Hw t obs Ht Hobs. rewrite volatility_lookup by lia.
    destruct (rolling_std_at_full window _ t obs Hw Ht Hobs) as [Hlen ->].
    split; [exact Hlen | reflexivity].
  - intros Hw t r Ht Hconst. rewrite volatility_lookup by lia.
    assert (Hobs : Pandas.window_at window t (s_values returns) =
                   List.map Fin (replicate window r)).
    { rewrite (window_at_constant window t _ (Fin r) Ht Hconst).
      symmetry. apply (fmap_replicate Fin). }
    destruct (rolling_std_at_full window _ t _ Hw Ht Hobs) as [_ ->].
    rewrite sample_std_replicate by exact Hw.
    unfold TimeWindowAnalyzer.annualization, Float.mul.
    replace (Qred (0 * sqrt 252)) with 0%Q; [reflexivity|].
    change 0%Q with (Qred 0) at 1. apply Qred_complete. ring.
  - intros Hw t Ht. rewrite volatility_lookup by exact Ht.
    now rewrite rolling_std_at_window_1.
Qed.

Lemma analyze_volatility_spec_witness :
  BaseAnalyzer._prepare_data (H := epoch_ns) (H0 := insertion_argsort)
    (price_table [1; 2; 3; 4]%Z [Fin 10; Fin 10; Fin 10; Fin 10]) =
  Ok (mkDataFrame [1; 2; 3; 4]%Z [("close", NumCol [Fin 10; Fin 10; Fin 10; Fin 10])])
  /\ BaseAnalyzer._calculate_returns
       (mkDataFrame [1; 2; 3; 4]%Z [("close", NumCol [Fin 10; Fin 10; Fin 10; Fin 10])]) =
     Ok (mkSeries [1; 2; 3; 4]%Z [Fin 0; Fin 0; Fin 0; Fin 0])
  /\ exists vol,
       TimeWindowAnalyzer.analyze_volatility
           (H := epoch_ns) (H0 := exact_sqrt) (H1 := insertion_argsort)
         [("A", price_table [1; 2; 3; 4]%Z [Fin 10; Fin 10; Fin 10; Fin 10])] 2 =
       Ok (mkDataFrame [1; 2; 3; 4]%Z [("A", NumCol vol)])
       /\ length vol = 4.
Proof.
  split; [reflexivity|]. split; [reflexivity|].
  destruct (analyze_volatility_spec (H := epoch_ns) (H0 := exact_sqrt) (H2 := insertion_argsort) "A"
              (price_table [1; 2; 3; 4]%Z [Fin 10; Fin 10; Fin 10; Fin 10])
              (mkDataFrame [1; 2; 3; 4]%Z [("close", NumCol [Fin 10; Fin 10; Fin 10; Fin 10])])
              (mkSeries [1; 2; 3; 4]%Z [Fin 0; Fin 0; Fin 0; Fin 0])
              2 eq_refl eq_refl) as (vol & Htable & Hlen & _).
  exists vol. split; [exact Htable | exact Hlen].
Defined.

(** C9, the claim as stated fails.  With a window of one row the returns of a
    constant price, all 0, have no sample deviation: every row is undefined,
    not 0.  And in a table of several instruments a column is aligned to the
    dates of the first one: B has a date more than A, so the first row of its
    column holds a value although the window is 2. *)
Lemma analyze_volatility_window_1 :
  TimeWindowAnalyzer.analyze_volatility (H := epoch_ns) (H0 := exact_sqrt) (H1 := insertion_argsort)
    [("A", price_table [1; 2; 3]%Z [Fin 10; Fin 10; Fin 10])] 1 =
  Ok (mkDataFrame [1; 2; 3]%Z [("A", NumCol [NaN; NaN; NaN])])
  /\ NaN <> Fin 0
  /\ TimeWindowAnalyzer.analyze_volatility
      (H := epoch_ns) (H0 := exact_sqrt) (H1 := insertion_argsort)
       [("A", price_table [1; 2]%Z [Fin 10; Fin 10]);
        ("B", price_table [0; 1; 2]%Z [Fin 10; Fin 10; Fin 10])] 2 =
     Ok (mkDataFrame [1; 2]%Z [("A", NumCol [NaN; Fin 0]); ("B", NumCol [Fin 0; Fin 0])]).
Proof. split; [|split]; [vm_compute; reflexivity | discriminate | vm_compute; reflexivity]. Qed.

(** ** Column assignment *)

Section Setitem.
Import Pandas TimeWindowAnalyzer.

Lemma set_column_In (cols : list (string * Column)) (name : string) (c : Column)
    (x : string * Column) :
  In x (set_column cols name c) -> snd x = c \/ In x cols.
Proof.
  induction cols as [|[n c'] cols IH]; simpl.
  - intros [<- | []]. now left.
  - destruct (String.eqb name n); simpl.
    + intros [<- | Hin]; [now left | right; now right].
    + intros [<- | Hin]; [right; now left|].
      destruct (IH Hin) as [Hc | Hc]; [now left | right; now right].
Qed.

Lemma at_label_undefined (labels : list Z) (values : list float) (label : Z) :
  List.Forall (fun x => x = NaN) values -> at_label labels values label = NaN.
Proof.
  intros Hall. revert labels.
  induction Hall as [|x values Hx _ IH]; intros [|l labels]; simpl; try reflexivity.
  destruct (Z.eqb l label); [exact Hx | apply IH].
Qed.

Lemma ensure_valid_index_index (df : DataFrame) (value : Series) :
  index (_ensure_valid_index df value) = index df \/
  index (_ensure_valid_index df value) = s_index value.
Proof.
  unfold _ensure_valid_index.
  destruct (index df) eqn:E, (s_index value); simpl; auto.
Qed.

Lemma ensure_valid_index_undefined (df : DataFrame) (value : Series) :
  all_undefined df -> all_undefined (_ensure_valid_index df value).
Proof.
  intros Hall. unfold _ensure_valid_index.
  destruct (index df), (s_index value); try exact Hall.
  intros name v Hin. cbn [columns] in Hin.
  apply in_map_iff in Hin. destruct Hin as [[n c] [Heq _]].
  destruct c; cbn [fst snd blank_column] in Heq; [|discriminate].
  injection Heq as _ <-.
  constructor; [reflexivity | now apply Forall_replicate].
Qed.

(** Assignment succeeds when the labels of the value do not repeat. *)
Lemma setitem_NoDup (df : DataFrame) (name : string) (value : Series) :
  NoDup (s_index value) -> exists df', setitem df name value = Ok df'.
Proof.
  intros Hnd. unfold setitem, _reindex_for_setitem, reindex, has_duplicates.
  destruct (_ || _); simpl; [eauto|].
  rewrite bool_decide_eq_true_2 by exact Hnd. simpl. eauto.
Qed.

Lemma setitem_index (df df' : DataFrame) (name : string) (value : Series) :
  setitem df name value = Ok df' ->
  index df' = index df \/ index df' = s_index value.
Proof.
  unfold setitem.
  destruct (_reindex_for_setitem value (_ensure_valid_index df value)); simpl;
    [|discriminate].
  intros Heq. injection Heq as <-. simpl. apply ensure_valid_index_index.
Qed.

(** Assigning an undefined series to an undefined table leaves it undefined. *)
Lemma setitem_undefined (df df' : DataFrame) (name : string) (value : Series) :
  all_undefined df -> List.Forall (fun x => x = NaN) (s_values value) ->
  setitem df name value = Ok df' -> all_undefined df'.
Proof.
  intros Hdf Hvalue. unfold setitem.
  pose proof (ensure_valid_index_undefined df value Hdf) as Hdf0.
  set (df0 := _ensure_valid_index df value) in *.
  destruct (_reindex_for_setitem value df0) as [values|e] eqn:Hre; simpl; [|discriminate].
  intros Heq. injection Heq as <-.
  assert (Hvalues : List.Forall (fun x => x = NaN) values).
  { unfold _reindex_for_setitem, reindex in Hre.
    destruct (_ || _); [now injection Hre as <-|].
    destruct (has_duplicates (s_index value)); [discriminate|].
    injection Hre as <-. apply List.Forall_forall. intros x Hx.
    apply in_map_iff in Hx. destruct Hx as [l [<- _]].
    now apply at_label_undefined. }
  intros n v Hin. simpl in Hin.
  apply set_column_In in Hin. destruct Hin as [Hc | Hin].
  - simpl in Hc. injection Hc as ->. exact Hvalues.
  - exact (Hdf0 n v Hin).
Qed.

Lemma set_column_names (cols : list (string * Column)) (name : string) (c : Column) :
  ~ In name (List.map fst cols) ->
  List.map fst (set_column cols name c) = List.map fst cols ++ [name].
Proof.
  induction cols as [|[n c'] cols IH]; simpl; intros Hnew; [reflexivity|].
  destruct (String.eqb name n) eqn:E.
  - apply String.eqb_eq in E. exfalso. apply Hnew. now left.
  - simpl. f_equal. apply IH. intros Hin. apply Hnew. now right.
Qed.

Lemma ensure_valid_index_names (df : DataFrame) (value : Series) :
  List.map fst (columns (_ensure_valid_index df value)) = List.map fst (columns df).
Proof.
  unfold _ensure_valid_index.
  destruct (index df), (s_index value); try reflexivity.
  cbn [columns]. rewrite List.map_map. reflexivity.
Qed.

(** Assigning under a new name adds one column, after the others. *)
Lemma setitem_names (df df' : DataFrame) (name : string) (value : Series) :
  ~ In name (List.map fst (columns df)) ->
  setitem df name value = Ok df' ->
  List.map fst (columns df') = List.map fst (columns df) ++ [name].
Proof.
  intros Hnew. unfold setitem.
  destruct (_reindex_for_setitem value (_ensure_valid_index df value)); simpl;
    [|discriminate].
  intros Heq. injection Heq as <-. cbn [columns].
  rewrite set_column_names; rewrite ensure_valid_index_names; [reflexivity | exact Hnew].
Qed.

End Setitem.

(** ** time_window_analyzer.py: short histories *)

Section ShortHistory.
Import Pandas BaseAnalyzer TimeWindowAnalyzer.
Context `{DateParser} `{Sqrt} `{Argsort}.

Lemma length_window_at_le {A : Type} (window t : nat) (v : list A) :
  length (window_at window t v) <= length v.
Proof. unfold window_at. rewrite length_skipn, length_firstn. lia. Qed.

Lemma volatility_undefined (returns : Series) (window : nat) :
  length (s_values returns) < window ->
  List.Forall (fun x => x = NaN) (s_values (volatility returns window)).
Proof.
  intros Hshort. apply Forall_lookup. intros t x Hx.
  assert (Ht : t < length (s_values returns)).
  { apply lookup_lt_Some in Hx. now rewrite length_volatility in Hx. }
  rewrite volatility_lookup in Hx by exact Ht. injection Hx as <-.
  rewrite rolling_std_at_short; [reflexivity|].
  pose proof (length_window_at_le window t (s_values returns)). lia.
Qed.

Lemma length_complete_pairs_le (x y : list float) :
  length (complete_pairs x y) <= length x.
Proof.
  unfold complete_pairs.
  etransitivity; [apply length_omap_le|].
  rewrite length_combine. lia.
Qed.

Lemma rolling_corr_at_short (window : nat) (x y : list float) (t : nat) :
  length x < window -> rolling_corr_at window x y t = NaN.
Proof.
  intros Hshort. unfold rolling_corr_at.
  pose proof (length_complete_pairs_le (window_at window t x) (window_at window t y)) as Hle.
  pose proof (length_window_at_le window t x) as Hle'.
  destruct (Nat.ltb_spec (length (complete_pairs (window_at window t x)
                                                 (window_at window t y))) window);
    [reflexivity | lia].
Qed.

Lemma rolling_corr_undefined (window : nat) (x y : list float) :
  length x < window -> List.Forall (fun c => c = NaN) (rolling_corr window x y).
Proof.
  intros Hshort. unfold rolling_corr. apply List.Forall_forall.
  intros c Hc. apply in_map_iff in Hc. destruct Hc as [t [<- _]].
  now apply rolling_corr_at_short.
Qed.

Lemma calculate_returns_index (df : DataFrame) (returns : Series) :
  _calculate_returns df = Ok returns -> s_index returns = index df.
Proof.
  unfold _calculate_returns.
  destruct (getitem df "close") as [c|e]; simpl; [|discriminate].
  destruct (pct_change_series c) as [r|e]; simpl; [|discriminate].
  intros Heq. now injection Heq as <-.
Qed.

Lemma calculate_returns_length (df : DataFrame) (close : list float) (returns : Series) :
  getitem df "close" = Ok (NumCol close) ->
  _calculate_returns df = Ok returns -> length (s_values returns) = length close.
Proof.
  intros Hclose. rewrite (calculate_returns_numeric _ _ Hclose).
  intros Heq. injection Heq as <-. simpl.
  now rewrite length_fillna, length_pct_change.
Qed.

(** [analyze_volatility] gets through usable tables, and a table of short
    histories is undefined throughout. *)
Lemma analyze_volatility_loop_total (stock_data : list (string * DataFrame)) (window : nat) :
  (forall name raw, In (name, raw) stock_data -> usable raw) ->
  forall volatility_data,
  exists table,
    analyze_volatility_loop stock_data window volatility_data = Ok table /\
    ((forall name raw, In (name, raw) stock_data -> short_history window raw) ->
     all_undefined volatility_data -> all_undefined table).
Proof.
  induction stock_data as [|[name raw] stock_data IH]; intros Husable acc.
  - exists acc. split; [reflexivity | auto].
  - destruct (Husable name raw (or_introl eq_refl))
      as (df & close & Hprep & Hclose & Hnd & _).
    pose proof (calculate_returns_numeric _ _ Hclose) as Hret.
    set (returns := mkSeries (index df) (fillna Float.zero (pct_change close))) in Hret.
    destruct (setitem_NoDup acc name (volatility returns window) Hnd) as [acc' Hset].
    destruct (IH (fun n r Hin => Husable n r (or_intror Hin)) acc') as [table [Hrun Hund]].
    exists table. split.
    + simpl. rewrite Hprep. simpl. rewrite Hret. simpl. rewrite Hset. exact Hrun.
    + intros Hshort Hacc.
      apply Hund; [intros n r Hin; apply (Hshort n r); now right|].
      apply (setitem_undefined acc acc' name (volatility returns window) Hacc);
        [|exact Hset].
      apply volatility_undefined.
      rewrite (calculate_returns_length _ _ _ Hclose Hret).
      destruct (Hshort name raw (or_introl eq_refl) df Hprep) as [_ Hcols].
      apply (Hcols "close"). now apply getitem_In.
Qed.

(** The table gets one column per instrument, in the order of the
    dictionary. *)
Lemma analyze_volatility_loop_names (stock_data : list (string * DataFrame)) (window : nat) :
  forall volatility_data table,
    analyze_volatility_loop stock_data window volatility_data = Ok table ->
    List.NoDup (List.map fst (columns volatility_data) ++ List.map fst stock_data) ->
    List.map fst (columns table) =
    List.map fst (columns volatility_data) ++ List.map fst stock_data.
Proof.
  induction stock_data as [|[name raw] stock_data IH]; intros acc table Hrun Hnd.
  - simpl in Hrun. injection Hrun as <-. simpl. now rewrite app_nil_r.
  - simpl in Hrun.
    destruct (_prepare_data raw) as [df|e]; simpl in Hrun; [|discriminate].
    destruct (_calculate_returns df) as [returns|e]; simpl in Hrun; [|discriminate].
    destruct (setitem acc name (volatility returns window)) as [acc'|e] eqn:Hset;
      simpl in Hrun; [|discriminate].
    simpl in Hnd.
    assert (Hnew : ~ In name (List.map fst (columns acc))).
    { apply List.NoDup_remove_2 in Hnd. intros Hin. apply Hnd.
      apply in_or_app. now left. }
    pose proof (setitem_names _ _ _ _ Hnew Hset) as Hnames.
    rewrite (IH acc' table Hrun); rewrite Hnames.
    + simpl. now rewrite <- app_assoc.
    + rewrite <- app_assoc. simpl.
      apply List.NoDup_remove_1 in Hnd as Hrest.
      apply List.NoDup_remove_2 in Hnd as Hfresh.
      apply NoDup_ListNoDup. apply NoDup_ListNoDup in Hrest.
      apply NoDup_app in Hrest. destruct Hrest as (Hl & Hdisj & Hr).
      apply NoDup_app. split; [exact Hl|]. split.
      * intros x Hx Hx'. apply elem_of_cons in Hx'. destruct Hx' as [-> | Hx'].
        -- apply Hnew. now apply list_elem_of_In.
        -- exact (Hdisj x Hx Hx').
      * apply NoDup_cons. split; [|exact Hr].
        intros Hin. apply Hfresh. apply in_or_app. right. now apply list_elem_of_In.
Qed.

Lemma assoc_set_column_eq (cols : list (string * Column)) (name : string) (c : Column) :
  assoc name (set_column cols name c) = Some c.
Proof.
  induction cols as [|[n c'] cols IH]; simpl.
  - now rewrite String.eqb_refl.
  - destruct (String.eqb name n) eqn:E; simpl; now rewrite E.
Qed.

Lemma assoc_set_column_ne (cols : list (string * Column)) (name name' : string) (c : Column) :
  name <> name' -> assoc name (set_column cols name' c) = assoc name cols.
Proof.
  intros Hne. induction cols as [|[n c'] cols IH]; simpl.
  - apply String.eqb_neq in Hne. now rewrite Hne.
  - destruct (String.eqb name' n) eqn:E; simpl.
    + apply String.eqb_eq in E. subst n.
      apply String.eqb_neq in Hne. now rewrite Hne.
    + now rewrite IH.
Qed.

Lemma with_volume_index (df : DataFrame) : index (with_volume df) = index df.
Proof.
  unfold with_volume.
  destruct (_ && _); [|reflexivity].
  destruct (assoc "vol" (columns df)); reflexivity.
Qed.

Lemma with_volume_close (df : DataFrame) :
  getitem (with_volume df) "close" = getitem df "close".
Proof.
  unfold with_volume.
  destruct (_ && _); [|reflexivity].
  destruct (assoc "vol" (columns df)); [|reflexivity].
  unfold getitem. simpl. now rewrite assoc_set_column_ne.
Qed.

(** The [volume] column that the loop reads is the [volume] or the [vol]
    column of the prepared table. *)
Lemma with_volume_volume (df : DataFrame) (c : Column) :
  getitem (with_volume df) "volume" = Ok c ->
  getitem df "volume" = Ok c \/ getitem df "vol" = Ok c.
Proof.
  unfold with_volume.
  destruct (_ && _); [|now left].
  destruct (assoc "vol" (columns df)) as [vol|] eqn:E; [|now left].
  unfold getitem. simpl. rewrite assoc_set_column_eq, E. now right.
Qed.

Lemma has_column_getitem (df : DataFrame) (name : string) :
  has_column df name = true -> exists c, getitem df name = Ok c.
Proof.
  intros Hhas. apply has_column_assoc in Hhas. destruct Hhas as [c Hc].
  exists c. unfold getitem. now rewrite Hc.
Qed.

Lemma analyze_volume_price_correlation_loop_total
    (stock_data : list (string * DataFrame)) (window : nat) :
  (forall name raw, In (name, raw) stock_data -> usable raw) ->
  forall volume_price_corr,
  exists table,
    analyze_volume_price_correlation_loop stock_data window volume_price_corr = Ok table /\
    ((forall name raw, In (name, raw) stock_data -> short_history window raw) ->
     all_undefined volume_price_corr -> all_undefined table).
Proof.
  induction stock_data as [|[name raw] stock_data IH]; intros Husable acc.
  - exists acc. split; [reflexivity | auto].
  - destruct (Husable name raw (or_introl eq_refl))
      as (df & close & Hprep & Hclose & Hnd & Hvolume & Hvol).
    assert (Hnext : forall acc',
      exists table,
        analyze_volume_price_correlation_loop stock_data window acc' = Ok table /\
        ((forall n r, In (n, r) ((name, raw) :: stock_data) -> short_history window r) ->
         all_undefined acc' -> all_undefined table)).
    { intros acc'.
      destruct (IH (fun n r Hin => Husable n r (or_intror Hin)) acc') as [table [Hrun Hund]].
      exists table. split; [exact Hrun|].
      intros Hshort. apply Hund. intros n r Hin. apply (Hshort n r). now right. }
    simpl. rewrite Hprep. simpl.
    destruct (has_column (with_volume df) "volume") eqn:Hhas; [|apply Hnext].
    assert (Hclose' : getitem (with_volume df) "close" = Ok (NumCol close))
      by now rewrite with_volume_close.
    pose proof (calculate_returns_numeric _ _ Hclose') as Hret.
    rewrite Hret. simpl.
    destruct (has_column_getitem _ _ Hhas) as [c Hc]. rewrite Hc. simpl.
    assert (Hnum : numeric c).
    { destruct (with_volume_volume df c Hc); [now apply Hvolume | now apply Hvol]. }
    destruct Hnum as [v ->]. cbn [pct_change_series mbind result_bind].
    set (corr := mkSeries _ _).
    assert (Hnd' : NoDup (s_index corr)) by (simpl; now rewrite with_volume_index).
    destruct (setitem_NoDup acc name corr Hnd') as [acc' Hset].
    rewrite Hset. simpl.
    destruct (Hnext acc') as [table [Hrun Hund]].
    exists table. split; [exact Hrun|].
    intros Hshort Hacc. apply Hund; [exact Hshort|].
    apply (setitem_undefined acc acc' name corr Hacc); [|exact Hset].
    apply rolling_corr_undefined. simpl.
    rewrite length_fillna, length_pct_change.
    destruct (Hshort name raw (or_introl eq_refl) df Hprep) as [_ Hcols].
    apply (Hcols "close"). now apply getitem_In.
Qed.

(** *** The pairwise table *)

Lemma returns_data_loop_rows (stock_data : list (string * DataFrame)) (window : nat) :
  (forall name raw, In (name, raw) stock_data -> short_history window raw) ->
  forall acc returns_data,
    returns_data_loop stock_data acc = Ok returns_data ->
    length (index acc) < window -> length (index returns_data) < window.
Proof.
  induction stock_data as [|[name raw] stock_data IH]; intros Hshort acc rd Hrun Hacc.
  - simpl in Hrun. now injection Hrun as <-.
  - simpl in Hrun.
    destruct (_prepare_data raw) as [df|e] eqn:Hprep; simpl in Hrun; [|discriminate].
    destruct (_calculate_returns df) as [returns|e] eqn:Hret; simpl in Hrun; [|discriminate].
    destruct (setitem acc name returns) as [acc'|e] eqn:Hset; simpl in Hrun; [|discriminate].
    apply (IH (fun n r Hin => Hshort n r (or_intror Hin)) acc' rd Hrun).
    destruct (setitem_index _ _ _ _ Hset) as [-> | ->]; [exact Hacc|].
    rewrite (calculate_returns_index _ _ Hret).
    apply (Hshort name raw (or_introl eq_refl) df Hprep).
Qed.

Lemma length_take_rows_le {A : Type} (indexer : list nat) (l : list A) :
  length (take_rows indexer l) <= length indexer.
Proof. apply length_omap_le. Qed.

Lemma dropna_rows_columns (df : DataFrame) (name : string) (v : list float) :
  In (name, v) (numeric_columns (dropna_rows df)) -> length v <= length (index df).
Proof.
  unfold numeric_columns, dropna_rows. cbn [columns index].
  intros Hin. apply list_elem_of_In, list_elem_of_omap in Hin.
  destruct Hin as [[n c] [Hin Heq]].
  apply list_elem_of_In, in_map_iff in Hin. destruct Hin as [[n' c'] [Heq' _]].
  cbn [fst snd] in Heq'. injection Heq' as <- <-.
  destruct c' as [u|u]; cbn [fst snd take_column] in Heq; [|discriminate].
  injection Heq as _ <-.
  etransitivity; [apply length_take_rows_le|].
  etransitivity; [apply List.filter_length_le|].
  now rewrite length_seq.
Qed.

Lemma nth_column_short (window : nat) (cols : list (string * list float)) (k : nat) :
  0 < window ->
  (forall name v, In (name, v) cols -> length v < window) ->
  length (nth k (List.map snd cols) []) < window.
Proof.
  intros Hw Hcols.
  destruct (nth_in_or_default k (List.map snd cols) []) as [Hin | ->]; [|exact Hw].
  apply in_map_iff in Hin. destruct Hin as [[name v] [Heq Hin]].
  simpl in Heq. rewrite <- Heq. exact (Hcols name v Hin).
Qed.

Lemma rolling_corr_pairwise_undefined (window : nat) (df : DataFrame) :
  0 < window ->
  (forall name v, In (name, v) (numeric_columns df) -> length v < window) ->
  all_undefined_pairwise (rolling_corr_pairwise window df).
Proof.
  intros Hw Hcols name v Hin. unfold rolling_corr_pairwise in Hin. cbn [p_columns] in Hin.
  apply list_elem_of_In, elem_of_lookup_imap in Hin.
  destruct Hin as (j & ncj & Heq & _). injection Heq as _ ->.
  apply List.Forall_forall. intros c Hc.
  apply in_flat_map in Hc. destruct Hc as (t & _ & Hc).
  apply list_elem_of_In, elem_of_lookup_imap in Hc.
  destruct Hc as (i & nci & -> & _).
  apply rolling_corr_at_short. now apply nth_column_short.
Qed.

Lemma calculate_rolling_correlation_undefined
    (stock_data : list (string * DataFrame)) (window : nat) :
  (forall name raw, In (name, raw) stock_data -> short_history window raw) ->
  all_undefined_pairwise (snd (calculate_rolling_correlation stock_data window)).
Proof.
  intros Hshort. unfold calculate_rolling_correlation, rolling_correlation_body.
  destruct (returns_data_loop stock_data empty_frame) as [rd|e] eqn:Hrun; simpl;
    [|intros name v []].
  destruct (empty (dropna_rows rd)) eqn:Hempty; simpl; [intros name v []|].
  assert (Hrows : length (index rd) < window).
  { destruct (Nat.eq_dec (length (index rd)) 0) as [Hz|Hnz].
    - exfalso. unfold empty, dropna_rows in Hempty. cbn [index columns] in Hempty.
      apply orb_false_iff in Hempty. destruct Hempty as [Hempty _].
      apply Nat.eqb_neq in Hempty. apply Hempty.
      pose proof (length_take_rows_le
                    (List.filter (row_complete rd) (seq 0 (length (index rd))))
                    (index rd)) as Hle.
      pose proof (List.filter_length_le (row_complete rd) (seq 0 (length (index rd)))) as Hle'.
      rewrite length_seq in Hle'. lia.
    - destruct stock_data as [|[name raw] stock_data].
      + simpl in Hrun. injection Hrun as <-. simpl in Hnz. congruence.
      + assert (Hw : 0 < window).
        { destruct (_prepare_data raw) as [df|e] eqn:Hprep.
          - destruct (Hshort name raw (or_introl eq_refl) df Hprep). lia.
          - simpl in Hrun. rewrite Hprep in Hrun. discriminate. }
        apply (returns_data_loop_rows _ window Hshort empty_frame rd Hrun). exact Hw. }
  apply rolling_corr_pairwise_undefined; [lia|].
  intros name v Hin. apply dropna_rows_columns in Hin. lia.
Qed.

End ShortHistory.

(** C8 (as the code has it). None of the three rolling operations fails for
    lack of observations.  On usable tables, whatever their length,
    [analyze_volatility] and [analyze_volume_price_correlation] return a
    table, the former with one column per instrument;
    [calculate_rolling_correlation] always returns one.  When no instrument
    has [window] observations, every entry of the returned tables is
    undefined. *)
Theorem rolling_operations_short_history `{DateParser} `{Sqrt} `{Argsort}
    (stock_data : list (string * DataFrame)) (window : nat) :
  (forall name raw, In (name, raw) stock_data -> TimeWindowAnalyzer.usable raw) ->
  (exists table,
      TimeWindowAnalyzer.analyze_volatility stock_data window = Ok table /\
      (List.NoDup (List.map fst stock_data) ->
       List.map fst (columns table) = List.map fst stock_data) /\
      ((forall name raw, In (name, raw) stock_data ->
                         TimeWindowAnalyzer.short_history window raw) ->
       TimeWindowAnalyzer.all_undefined table)) /\
  (exists table,
      TimeWindowAnalyzer.analyze_volume_price_correlation stock_data window = Ok table /\
      ((forall name raw, In (name, raw) stock_data ->
                         TimeWindowAnalyzer.short_history window raw) ->
       TimeWindowAnalyzer.all_undefined table)) /\
  (exists warning table,
      TimeWindowAnalyzer.calculate_rolling_correlation stock_data window = (warning, table) /\
      ((forall name raw, In (name, raw) stock_data ->
                         TimeWindowAnalyzer.short_history window raw) ->
       TimeWindowAnalyzer.all_undefined_pairwise table)).
Proof.
  intros Husable.
  assert (Hblank : TimeWindowAnalyzer.all_undefined Pandas.empty_frame)
    by (intros name v []).
  split; [|split].
  - destruct (analyze_volatility_loop_total stock_data window Husable Pandas.empty_frame)
      as [table [Hrun Hund]].
    exists table. split; [exact Hrun|]. split; [|auto].
    intros Hnames.
    apply (analyze_volatility_loop_names stock_data window Pandas.empty_frame table Hrun).
    exact Hnames.
  - destruct (analyze_volume_price_correlation_loop_total
                stock_data window Husable Pandas.empty_frame) as [table [Hrun Hund]].
    exists table. split; [exact Hrun | auto].
  - exists (fst (TimeWindowAnalyzer.calculate_rolling_correlation stock_data window)),
           (snd (TimeWindowAnalyzer.calculate_rolling_correlation stock_data window)).
    split; [now destruct (TimeWindowAnalyzer.calculate_rolling_correlation _ _)|].
    apply calculate_rolling_correlation_undefined.
Qed.

Lemma one_observation_usable :
  TimeWindowAnalyzer.usable
      (H := epoch_ns) (H0 := insertion_argsort) (daily_table [20240102%Z] [Fin 10] [Fin 1000]).
Proof.
  exists (mkDataFrame [20240102%Z] [("close", NumCol [Fin 10]); ("vol", NumCol [Fin 1000])]),
         [Fin 10].
  split; [reflexivity|]. split; [reflexivity|]. split; [|split].
  - apply NoDup_singleton.
  - intros c Hc. discriminate.
  - intros c Hc. injection Hc as <-. now exists [Fin 1000].
Defined.

Lemma one_observation_short :
  TimeWindowAnalyzer.short_history (H := epoch_ns) (H0 := insertion_argsort) 2
    (daily_table [20240102%Z] [Fin 10] [Fin 1000]).
Proof.
  intros df Hprep. vm_compute in Hprep. injection Hprep as <-.
  split; [simpl; lia|].
  intros name v [Heq | [Heq | []]]; injection Heq as _ <-; simpl; lia.
Defined.

Lemma rolling_operations_short_history_witness :
  (forall name raw,
      In (name, raw) [("A", daily_table [20240102%Z] [Fin 10] [Fin 1000])] ->
      TimeWindowAnalyzer.usable (H := epoch_ns) (H0 := insertion_argsort) raw)
  /\ (forall name raw,
        In (name, raw) [("A", daily_table [20240102%Z] [Fin 10] [Fin 1000])] ->
        TimeWindowAnalyzer.short_history (H := epoch_ns) (H0 := insertion_argsort) 2 raw)
  /\ exists table,
       TimeWindowAnalyzer.analyze_volatility
           (H := epoch_ns) (H0 := exact_sqrt) (H1 := insertion_argsort)
         [("A", daily_table [20240102%Z] [Fin 10] [Fin 1000])] 2 = Ok table
       /\ TimeWindowAnalyzer.all_undefined table.
Proof.
  assert (Husable : forall name raw,
             In (name, raw) [("A", daily_table [20240102%Z] [Fin 10] [Fin 1000])] ->
             TimeWindowAnalyzer.usable (H := epoch_ns) (H0 := insertion_argsort) raw).
  { intros name raw [Heq | []]. injection Heq as _ <-. exact one_observation_usable. }
  assert (Hshort : forall name raw,
             In (name, raw) [("A", daily_table [20240102%Z] [Fin 10] [Fin 1000])] ->
             TimeWindowAnalyzer.short_history (H := epoch_ns) (H0 := insertion_argsort) 2 raw).
  { intros name raw [Heq | []]. injection Heq as _ <-. exact one_observation_short. }
  split; [exact Husable|]. split; [exact Hshort|].
  destruct (rolling_operations_short_history
      (H := epoch_ns) (H0 := exact_sqrt) (H1 := insertion_argsort)
              [("A", daily_table [20240102%Z] [Fin 10] [Fin 1000])] 2 Husable)
    as [[table [Hrun [_ Hund]]] _].
  exists table. split; [exact Hrun | exact (Hund Hshort)].
Defined.

(** C8, the claim as stated fails: one instrument with a single observation
    and a window of 2.  No instrument has two observations, yet each of the
    three operations returns a table, with its one entry undefined. *)
Lemma rolling_operations_one_observation :
  TimeWindowAnalyzer.analyze_volatility (H := epoch_ns) (H0 := exact_sqrt) (H1 := insertion_argsort)
    [("A", daily_table [20240102%Z] [Fin 10] [Fin 1000])] 2 =
  Ok (mkDataFrame [20240102%Z] [("A", NumCol [NaN])])
  /\ TimeWindowAnalyzer.calculate_rolling_correlation
      (H := epoch_ns) (H0 := exact_sqrt) (H1 := insertion_argsort)
       [("A", daily_table [20240102%Z] [Fin 10] [Fin 1000])] 2 =
     (None, mkPairwiseFrame [(20240102%Z, "A")] [("A", [NaN])])
  /\ TimeWindowAnalyzer.analyze_volume_price_correlation
      (H := epoch_ns) (H0 := exact_sqrt) (H1 := insertion_argsort)
       [("A", daily_table [20240102%Z] [Fin 10] [Fin 1000])] 2 =
     Ok (mkDataFrame [20240102%Z] [("A", NumCol [NaN])]).
Proof. repeat split; vm_compute; reflexivity. Qed.

(** ** base_analyzer.py: the shape of a prepared table *)

Section PreparedShape.
Import Pandas BaseAnalyzer.

Lemma column_length_take (indexer : list nat) (c : Column) :
  (forall i, In i indexer -> i < column_length c) ->
  column_length (take_column indexer c) = length indexer.
Proof. destruct c; simpl; apply length_take_rows. Qed.

Lemma length_ffill (v : list float) : length (ffill v) = length v.
Proof. apply length_ffill_from. Qed.

Lemma handle_missing_values_names (df : DataFrame) :
  List.map fst (columns (_handle_missing_values df)) = List.map fst (columns df).
Proof.
  unfold _handle_missing_values. cbn [columns]. rewrite List.map_map.
  apply List.map_ext. intros [n [v|v]]; reflexivity.
Qed.

Lemma sort_index_names `{Argsort} (df : DataFrame) :
  List.map fst (columns (sort_index df)) = List.map fst (columns df).
Proof.
  unfold sort_index. cbn [columns]. rewrite List.map_map. reflexivity.
Qed.

Lemma filter_map_fst {A : Type} (P : string -> bool) (l : list (string * A)) :
  List.map fst (List.filter (fun nc => P (fst nc)) l) = List.filter P (List.map fst l).
Proof.
  induction l as [|[n a] l IH]; [reflexivity|]. simpl.
  destruct (P n); simpl; now rewrite IH.
Qed.

Lemma prepare_data_names `{DateParser} `{Argsort} (raw df : DataFrame) :
  _prepare_data raw = Ok df ->
  List.map fst (columns df) =
  List.filter (fun n => negb (String.eqb "trade_date" n)) (List.map fst (columns raw)).
Proof.
  intros Hp. apply prepare_data_Ok in Hp as (trade_date & labels & _ & _ & ->).
  rewrite handle_missing_values_names, sort_index_names.
  unfold set_index. cbn [columns].
  apply (filter_map_fst (fun n => negb (String.eqb "trade_date" n))).
Qed.

Lemma has_column_filtered (names : list string) (name : string) :
  existsb (String.eqb name)
          (List.filter (fun n => negb (String.eqb name n)) names) = false.
Proof.
  induction names as [|n names IH]; [reflexivity|]. simpl.
  destruct (String.eqb name n) eqn:E; simpl; [exact IH|]. now rewrite E.
Qed.

Lemma to_datetime_column_length `{DateParser} (c : Column) (labels : list Z) :
  to_datetime_column c = Ok labels -> length labels = column_length c.
Proof.
  unfold to_datetime_column. destruct (mapM to_datetime (cells c)) as [l|] eqn:E; [|discriminate].
  intros [= <-]. apply length_mapM in E. rewrite <- E.
  destruct c; simpl; now rewrite length_map.
Qed.

Lemma prepare_data_rectangular `{DateParser} `{Argsort} `{!ArgsortLaws} (raw df : DataFrame) :
  rectangular raw -> _prepare_data raw = Ok df ->
  length (index df) = length (index raw) /\ rectangular df.
Proof.
  intros Hrect Hp.
  apply prepare_data_Ok in Hp as (trade_date & labels & Hget & Hlabels & ->).
  apply to_datetime_column_length in Hlabels.
  apply getitem_In in Hget. apply Hrect in Hget. rewrite Hget in Hlabels.
  assert (Hidx : length (take_rows (argsort labels) labels) = length labels).
  { rewrite length_take_rows by apply argsort_in_range. apply length_argsort. }
  split.
  - cbn [_handle_missing_values sort_index set_index index].
    now rewrite Hidx.
  - intros name c Hin.
    cbn [_handle_missing_values sort_index set_index index columns] in Hin |- *.
    rewrite Hidx.
    apply in_map_iff in Hin as [[n c1] [Heq Hin]].
    apply in_map_iff in Hin as [[n0 c0] [Heq0 Hin]].
    apply filter_In in Hin as [Hin _]. apply Hrect in Hin.
    cbn [fst snd] in Heq0. injection Heq0 as <- <-.
    assert (Hc1 : column_length (take_column (argsort labels) c0) = length labels).
    { rewrite column_length_take; [apply length_argsort|].
      intros i Hi. apply argsort_in_range in Hi. lia. }
    cbn [fst snd] in Heq.
    destruct (take_column (argsort labels) c0) as [v|v] eqn:E;
      injection Heq as <- <-; simpl in Hc1 |- *; [|exact Hc1].
    now rewrite length_ffill.
Qed.

End PreparedShape.

(** X1.  [_prepare_data] moves [trade_date] from the columns to the
    index, so a prepared table no longer has the columns that [_prepare_data]
    asks for: applied to its own output it raises the missing-columns
    ValueError. *)
Theorem prepare_data_not_reentrant `{DateParser} `{Argsort} (raw df : DataFrame) :
  BaseAnalyzer._prepare_data raw = Ok df ->
  Pandas.has_column df "trade_date" = false /\
  BaseAnalyzer._prepare_data df =
  Raise (ValueError_missing_columns ["trade_date"; "close"]).
Proof.
  intros Hp.
  assert (Hno : Pandas.has_column df "trade_date" = false).
  { unfold Pandas.has_column. rewrite (prepare_data_names raw df Hp).
    apply has_column_filtered. }
  split; [exact Hno|].
  unfold BaseAnalyzer._prepare_data. rewrite validate_required, Hno. reflexivity.
Qed.

Lemma prepare_data_not_reentrant_witness :
  BaseAnalyzer._prepare_data
      (H := epoch_ns) (H0 := insertion_argsort) (price_table [2; 1]%Z [Fin 10; Fin 11]) =
  Ok (mkDataFrame [1; 2]%Z [("close", NumCol [Fin 11; Fin 10])])
  /\ BaseAnalyzer._prepare_data (H := epoch_ns) (H0 := insertion_argsort)
       (mkDataFrame [1; 2]%Z [("close", NumCol [Fin 11; Fin 10])]) =
     Raise (ValueError_missing_columns ["trade_date"; "close"]).
Proof.
  split; [vm_compute; reflexivity|].
  apply (prepare_data_not_reentrant (H := epoch_ns) (H0 := insertion_argsort)
           (price_table [2; 1]%Z [Fin 10; Fin 11])).
  vm_compute. reflexivity.
Defined.

(** X2.  The shape of a prepared table: it has the columns of the
    raw table other than [trade_date], in the same order, and as many rows;
    when every raw column has one cell per row, so has every prepared
    column. *)
Theorem prepare_data_shape `{DateParser} `{Argsort} `{!ArgsortLaws} (raw df : DataFrame) :
  rectangular raw ->
  BaseAnalyzer._prepare_data raw = Ok df ->
  List.map fst (columns df) =
    List.filter (fun n => negb (String.eqb "trade_date" n)) (List.map fst (columns raw)) /\
  length (index df) = length (index raw) /\
  rectangular df.
Proof.
  intros Hrect Hp. split; [now apply prepare_data_names|].
  now apply prepare_data_rectangular.
Qed.

Lemma prepare_data_shape_witness :
  rectangular (mkDataFrame [0; 1]%Z
                 [("trade_date", NumCol [Fin 2; Fin 1]);
                  ("close", NumCol [Fin 10; Fin 11]);
                  ("name", ObjCol [Some "a"; Some "b"])])
  /\ BaseAnalyzer._prepare_data (H := epoch_ns) (H0 := insertion_argsort)
       (mkDataFrame [0; 1]%Z
          [("trade_date", NumCol [Fin 2; Fin 1]);
           ("close", NumCol [Fin 10; Fin 11]);
           ("name", ObjCol [Some "a"; Some "b"])]) =
     Ok (mkDataFrame [1; 2]%Z
           [("close", NumCol [Fin 11; Fin 10]); ("name", ObjCol [Some "b"; Some "a"])])
  /\ rectangular (mkDataFrame [1; 2]%Z
                    [("close", NumCol [Fin 11; Fin 10]); ("name", ObjCol [Some "b"; Some "a"])]).
Proof.
  assert (Hrect : rectangular (mkDataFrame [0; 1]%Z
                    [("trade_date", NumCol [Fin 2; Fin 1]);
                     ("close", NumCol [Fin 10; Fin 11]);
                     ("name", ObjCol [Some "a"; Some "b"])])).
  { intros name c [E|[E|[E|[]]]]; injection E as <- <-; reflexivity. }
  split; [exact Hrect|]. split; [vm_compute; reflexivity|].
  apply (prepare_data_shape
      (H := epoch_ns) (H0 := insertion_argsort) _ _ Hrect). vm_compute. reflexivity.
Defined.

(** X3.  Forward filling is idempotent: [_handle_missing_values]
    changes nothing in a table it has already filled, and it never touches
    the index, the column names or a column that is not numeric. *)
Theorem handle_missing_values_idempotent (df : DataFrame) :
  BaseAnalyzer._handle_missing_values (BaseAnalyzer._handle_missing_values df) =
  BaseAnalyzer._handle_missing_values df /\
  index (BaseAnalyzer._handle_missing_values df) = index df /\
  List.map fst (columns (BaseAnalyzer._handle_missing_values df)) =
  List.map fst (columns df) /\
  (forall name v, In (name, ObjCol v) (columns df) <->
                  In (name, ObjCol v) (columns (BaseAnalyzer._handle_missing_values df))).
Proof.
  split; [|split; [reflexivity|split; [apply handle_missing_values_names|]]].
  - unfold BaseAnalyzer._handle_missing_values. cbn [index columns]. f_equal.
    rewrite List.map_map. apply List.map_ext.
    intros [n [v|v]]; cbn [fst snd]; [|reflexivity].
    now rewrite ffill_idempotent.
  - intros name v. unfold BaseAnalyzer._handle_missing_values. cbn [columns].
    rewrite in_map_iff. split.
    + intros Hin. exists (name, ObjCol v). split; [reflexivity|exact Hin].
    + intros [[n [u|u]] [Heq Hin]]; cbn [fst snd] in Heq; [discriminate|].
      now injection Heq as <- <-.
Qed.

(** X4.  With both required columns present, [_prepare_data] can
    only fail on a date: it returns a table when [pd.to_datetime] accepts
    every cell of [trade_date], and raises the parser's error as soon as one
    cell is rejected. *)
Theorem prepare_data_outcomes `{DateParser} `{Argsort} (raw : DataFrame) (trade_date : Column) :
  Pandas.has_column raw "close" = true ->
  Pandas.getitem raw "trade_date" = Ok trade_date ->
  ((forall cell, In cell (Pandas.cells trade_date) -> is_Some (to_datetime cell)) ->
   exists df, BaseAnalyzer._prepare_data raw = Ok df) /\
  (forall cell, In cell (Pandas.cells trade_date) -> to_datetime cell = None ->
   BaseAnalyzer._prepare_data raw = Raise ParserError).
Proof.
  intros Hclose Hget.
  assert (Hdate : Pandas.has_column raw "trade_date" = true).
  { apply has_column_assoc. unfold Pandas.getitem in Hget.
    destruct (Pandas.assoc "trade_date" (columns raw)); [eauto|discriminate]. }
  unfold BaseAnalyzer._prepare_data.
  rewrite validate_required, Hdate, Hclose, Hget.
  cbn [andb negb mbind result_bind]. unfold Pandas.to_datetime_column. split.
  - intros Hall.
    destruct (mapM_is_Some_2 to_datetime (Pandas.cells trade_date)) as [labels ->].
    + apply Forall_forall. intros cell Hin. apply Hall. now apply list_elem_of_In.
    + eexists. reflexivity.
  - intros cell Hin Hnone.
    rewrite (mapM_None_2 to_datetime (Pandas.cells trade_date)); [reflexivity|].
    apply Exists_exists. exists cell. split; [now apply list_elem_of_In|exact Hnone].
Qed.

Lemma prepare_data_outcomes_witness :
  BaseAnalyzer._prepare_data (H := epoch_ns) (H0 := insertion_argsort)
    (mkDataFrame [0; 1]%Z
       [("trade_date", ObjCol [Some "soon"; Some "later"]); ("close", NumCol [Fin 10; Fin 11])]) =
  Raise ParserError
  /\ exists df,
       BaseAnalyzer._prepare_data
           (H := epoch_ns) (H0 := insertion_argsort)
           (price_table [2; 1]%Z [Fin 10; Fin 11]) = Ok df.
Proof.
  split.
  - destruct (prepare_data_outcomes (H := epoch_ns) (H0 := insertion_argsort)
                (mkDataFrame [0; 1]%Z
                   [("trade_date", ObjCol [Some "soon"; Some "later"]);
                    ("close", NumCol [Fin 10; Fin 11])])
                (ObjCol [Some "soon"; Some "later"])) as [_ Hfail]; [reflexivity|reflexivity|].
    apply (Hfail (CStr "soon")); [now left|reflexivity].
  - destruct (prepare_data_outcomes
      (H := epoch_ns) (H0 := insertion_argsort) (price_table [2; 1]%Z [Fin 10; Fin 11])
                (NumCol [Fin 2; Fin 1])) as [Hok _]; [reflexivity|reflexivity|].
    apply Hok. intros cell [<-|[<-|[]]]; eexists; reflexivity.
Defined.

Lemma handle_missing_values_idempotent_witness :
  BaseAnalyzer._handle_missing_values
    (mkDataFrame [1; 2; 3]%Z
       [("close", NumCol [Fin 10; NaN; Fin 12]); ("name", ObjCol [Some "a"; Some "b"; Some "c"])]) =
  mkDataFrame [1; 2; 3]%Z
    [("close", NumCol [Fin 10; Fin 10; Fin 12]); ("name", ObjCol [Some "a"; Some "b"; Some "c"])]
  /\ BaseAnalyzer._handle_missing_values
       (BaseAnalyzer._handle_missing_values
          (mkDataFrame [1; 2; 3]%Z
             [("close", NumCol [Fin 10; NaN; Fin 12]);
              ("name", ObjCol [Some "a"; Some "b"; Some "c"])])) =
     BaseAnalyzer._handle_missing_values
       (mkDataFrame [1; 2; 3]%Z
          [("close", NumCol [Fin 10; NaN; Fin 12]);
           ("name", ObjCol [Some "a"; Some "b"; Some "c"])]).
Proof.
  split; [reflexivity|].
  apply (handle_missing_values_idempotent
           (mkDataFrame [1; 2; 3]%Z
              [("close", NumCol [Fin 10; NaN; Fin 12]);
               ("name", ObjCol [Some "a"; Some "b"; Some "c"])])).
Defined.

(** X5.  The outcomes of [_calculate_returns]: a KeyError where the
    table has no [close] column; for a numeric [close], a series on the index
    of the table, as long as [close], that holds no missing value; for a
    [close] of dtype object, a TypeError when a string is followed by another
    row, as in every column of two strings or more, and the series of zeros
    otherwise, as for a single row or none. *)
Theorem calculate_returns_outcomes (df : DataFrame) :
  (Pandas.has_column df "close" = false ->
   BaseAnalyzer._calculate_returns df = Raise (KeyError "close")) /\
  (forall v, Pandas.getitem df "close" = Ok (ObjCol v) ->
     ((exists t s, v !! t = Some (Some s) /\ S t < length v) ->
      BaseAnalyzer._calculate_returns df = Raise TypeError) /\
     ((forall t s, v !! t = Some (Some s) -> S t = length v) ->
      BaseAnalyzer._calculate_returns df =
      Ok (mkSeries (index df) (List.map (fun _ => Fin 0) v)))) /\
  (forall close, Pandas.getitem df "close" = Ok (NumCol close) ->
   exists returns,
     BaseAnalyzer._calculate_returns df = Ok returns /\
     s_index returns = index df /\
     length (s_values returns) = length close /\
     List.Forall (fun x => Float.isnan x = false) (s_values returns)).
Proof.
  split; [|split].
  - intros Hno. unfold BaseAnalyzer._calculate_returns, Pandas.getitem.
    destruct (Pandas.assoc "close" (columns df)) as [c|] eqn:E; [|reflexivity].
    assert (Hs : is_Some (Pandas.assoc "close" (columns df))) by (rewrite E; eauto).
    apply has_column_assoc in Hs. congruence.
  - intros v Hget. unfold BaseAnalyzer._calculate_returns. rewrite Hget.
    cbn [mbind result_bind Pandas.pct_change_series]. split.
    + intros Hrow. now rewrite (pct_change_obj_raises v Hrow).
    + intros Hlast. rewrite (pct_change_obj_Ok v Hlast).
      cbn [mbind result_bind]. do 2 f_equal.
      unfold Pandas.fillna. rewrite List.map_map. reflexivity.
  - intros close Hget. eexists. split; [exact (calculate_returns_numeric df close Hget)|].
    cbn [s_index s_values]. split; [reflexivity|].
    split; [now rewrite length_fillna, length_pct_change|].
    unfold Pandas.fillna. apply List.Forall_forall. intros x Hin.
    apply in_map_iff in Hin as [y [<- _]]. now destruct y.
Qed.

Lemma calculate_returns_outcomes_witness :
  Pandas.has_column (mkDataFrame [1%Z] [("open", NumCol [Fin 1])]) "close" = false
  /\ BaseAnalyzer._calculate_returns (mkDataFrame [1%Z] [("open", NumCol [Fin 1])]) =
     Raise (KeyError "close")
  /\ BaseAnalyzer._calculate_returns
       (mkDataFrame [1; 2]%Z [("close", ObjCol [Some "x"; Some "y"])]) =
     Raise TypeError
  /\ BaseAnalyzer._calculate_returns (mkDataFrame [1%Z] [("close", ObjCol [Some "x"])]) =
     Ok (mkSeries [1%Z] [Fin 0])
  /\ exists returns,
       BaseAnalyzer._calculate_returns
         (mkDataFrame [1; 2; 3]%Z [("close", NumCol [Fin 0; Fin 5; NaN])]) = Ok returns
       /\ List.Forall (fun x => Float.isnan x = false) (s_values returns).
Proof.
  pose proof (calculate_returns_outcomes (mkDataFrame [1%Z] [("open", NumCol [Fin 1])]))
    as (Hkey & _ & _).
  pose proof (calculate_returns_outcomes
                (mkDataFrame [1; 2]%Z [("close", ObjCol [Some "x"; Some "y"])]))
    as (_ & Htype & _).
  pose proof (calculate_returns_outcomes (mkDataFrame [1%Z] [("close", ObjCol [Some "x"])]))
    as (_ & Hone & _).
  pose proof (calculate_returns_outcomes
                (mkDataFrame [1; 2; 3]%Z [("close", NumCol [Fin 0; Fin 5; NaN])]))
    as (_ & _ & Hnum).
  split; [reflexivity|]. split; [apply Hkey; reflexivity|].
  split.
  { apply (Htype [Some "x"; Some "y"] eq_refl).
    exists 0, "x". split; [reflexivity|simpl; lia]. }
  split.
  { apply (Hone [Some "x"] eq_refl).
    intros [|t] s Ht; [reflexivity|destruct t; discriminate]. }
  destruct (Hnum [Fin 0; Fin 5; NaN] eq_refl) as (returns & Hr & _ & _ & Hall).
  exists returns. split; assumption.
Defined.

(** ** cluster_analyzer.py: the sweep over [k] *)

Section Sweep.
Import ClusterAnalyzer.
Context `{Sklearn}.

Lemma max_clusters_store (self : t) (k : nat) (kmeans : KMeans) :
  max_clusters (store self k kmeans) = max_clusters self.
Proof. reflexivity. Qed.

(** The metrics returned by the loop: what it was given, then one entry for
    each [k], in the order of the range. *)
Lemma find_optimal_clusters_loop_metrics (ks : list nat) (X : Matrix) :
  forall (self self' : t) (ins sils ins' sils' : list float),
    find_optimal_clusters_loop ks X self ins sils = (Ok (ins', sils'), self') ->
    max_clusters self' = max_clusters self /\
    length ins' = length ins + length ks /\
    length sils' = length sils + length ks /\
    forall i k, ks !! i = Some k ->
      exists kmeans score,
        KMeans_fit k 42 10 X = Ok kmeans /\
        silhouette_score X (labels_ kmeans) = Ok score /\
        ins' !! (length ins + i) = Some (inertia_ kmeans) /\
        sils' !! (length sils + i) = Some score.
Proof.
  assert (Hprefix : forall ks (self self' : t) (ins sils ins' sils' : list float),
             find_optimal_clusters_loop ks X self ins sils = (Ok (ins', sils'), self') ->
             exists a b, ins' = ins ++ a /\ sils' = sils ++ b).
  { clear ks. induction ks as [|k ks IH]; intros self self' ins sils ins' sils' Hloop.
    - injection Hloop as <- <- <-. exists [], []. now rewrite !app_nil_r.
    - simpl in Hloop.
      destruct (KMeans_fit k 42 10 X) as [kmeans|e]; [|discriminate].
      destruct (silhouette_score X (labels_ kmeans)) as [score|e]; [|discriminate].
      apply IH in Hloop as (a & b & -> & ->).
      exists (inertia_ kmeans :: a), (score :: b). now rewrite <- !app_assoc. }
  induction ks as [|k ks IH]; intros self self' ins sils ins' sils' Hloop.
  - injection Hloop as <- <- <-. rewrite !Nat.add_0_r.
    repeat split. intros i k Hi. destruct i; discriminate.
  - simpl in Hloop.
    destruct (KMeans_fit k 42 10 X) as [kmeans|e] eqn:Hfit; [|discriminate].
    destruct (silhouette_score X (labels_ kmeans)) as [score|e] eqn:Hsil; [|discriminate].
    pose proof (Hprefix _ _ _ _ _ _ _ Hloop) as (a & b & Ha & Hb).
    apply IH in Hloop as (Hmax & Hins & Hsils & Hall).
    rewrite length_app in Hins, Hsils. simpl in Hins, Hsils.
    split; [exact Hmax|]. split; [simpl; lia|]. split; [simpl; lia|].
    intros [|i] k' Hi.
    + injection Hi as <-. exists kmeans, score. rewrite Hfit, Hsil, !Nat.add_0_r.
      repeat split.
      * rewrite Ha, <- app_assoc. now rewrite lookup_app_r, Nat.sub_diag by lia.
      * rewrite Hb, <- app_assoc. now rewrite lookup_app_r, Nat.sub_diag by lia.
    + destruct (Hall i k' Hi) as (kmeans' & score' & Hf & Hs & Hi1 & Hi2).
      exists kmeans', score'. rewrite length_app in Hi1, Hi2. simpl in Hi1, Hi2.
      replace (length ins + S i) with (length ins + 1 + i) by lia.
      replace (length sils + S i) with (length sils + 1 + i) by lia.
      now repeat split.
Qed.

(** Where the loop stops on an exception: at the first [k] of the range that
    scikit-learn rejects.  The models of the smaller [k] are in the cache, and
    so is the model of [k] itself when it was the silhouette score that
    failed; nothing else in the cache has changed. *)
Lemma find_optimal_clusters_loop_raises (X : Matrix) (n : nat) :
  forall (start : nat) (self self' : t) (ins sils : list float) (e : Exception),
    find_optimal_clusters_loop (seq start n) X self ins sils = (Raise e, self') ->
    max_clusters self' = max_clusters self /\
    exists k,
      start <= k < start + n /\
      (forall k', start <= k' < k ->
         exists kmeans, KMeans_fit k' 42 10 X = Ok kmeans /\
                        kmeans_models self' !! k' = Some kmeans) /\
      (forall k', k' < start \/ k < k' ->
         kmeans_models self' !! k' = kmeans_models self !! k') /\
      ((KMeans_fit k 42 10 X = Raise e /\
        kmeans_models self' !! k = kmeans_models self !! k) \/
       (exists kmeans,
          KMeans_fit k 42 10 X = Ok kmeans /\
          silhouette_score X (labels_ kmeans) = Raise e /\
          kmeans_models self' !! k = Some kmeans)).
Proof.
  induction n as [|n IH]; intros start self self' ins sils e Hloop; [discriminate|].
  simpl in Hloop.
  destruct (KMeans_fit start 42 10 X) as [kmeans|e'] eqn:Hfit.
  - destruct (silhouette_score X (labels_ kmeans)) as [score|e'] eqn:Hsil.
    + apply IH in Hloop as (Hmax & k & Hk & Hbelow & Hother & Hat).
      split; [exact Hmax|]. exists k. split; [lia|].
      assert (Hstart : kmeans_models self' !! start = Some kmeans).
      { rewrite Hother by lia. apply lookup_insert_eq. }
      split; [|split].
      * intros k' Hk'. destruct (decide (k' = start)) as [->|Hne].
        -- now exists kmeans.
        -- apply Hbelow. lia.
      * intros k' Hk'. rewrite Hother by lia. apply lookup_insert_ne. lia.
      * destruct Hat as [[Hf Hc]|Hat]; [left|right; exact Hat].
        split; [exact Hf|]. rewrite Hc. apply lookup_insert_ne. lia.
    + injection Hloop as <- <-. split; [reflexivity|]. exists start. split; [lia|].
      split; [intros k' Hk'; lia|]. split.
      * intros k' Hk'. apply lookup_insert_ne. lia.
      * right. exists kmeans. split; [exact Hfit|]. split; [exact Hsil|apply lookup_insert_eq].
  - injection Hloop as <- <-. split; [reflexivity|]. exists start. split; [lia|].
    split; [intros k' Hk'; lia|]. split; [reflexivity|]. left. now split.
Qed.

End Sweep.

(** X6.  A sweep that returns gives one inertia and one silhouette
    score for each [k] from 2 to [max_clusters], in that order, each computed
    from the model that is left in the cache under [k]; with [max_clusters]
    below 2 the range is empty, scikit-learn is not called and both lists are
    empty. *)
Theorem find_optimal_clusters_metrics `{Sklearn}
    (self self' : ClusterAnalyzer.t) (X : Matrix) (inertias silhouette_scores : list float) :
  ClusterAnalyzer.find_optimal_clusters self X = (Ok (inertias, silhouette_scores), self') ->
  length inertias = ClusterAnalyzer.max_clusters self - 1 /\
  length silhouette_scores = ClusterAnalyzer.max_clusters self - 1 /\
  (forall k, 2 <= k <= ClusterAnalyzer.max_clusters self ->
     exists kmeans score,
       KMeans_fit k 42 10 X = Ok kmeans /\
       silhouette_score X (labels_ kmeans) = Ok score /\
       ClusterAnalyzer.kmeans_models self' !! k = Some kmeans /\
       inertias !! (k - 2) = Some (inertia_ kmeans) /\
       silhouette_scores !! (k - 2) = Some score) /\
  (ClusterAnalyzer.max_clusters self < 2 ->
     inertias = [] /\ silhouette_scores = [] /\ self' = self).
Proof.
  unfold ClusterAnalyzer.find_optimal_clusters, ClusterAnalyzer.k_range. intros Hloop.
  pose proof (find_optimal_clusters_loop_metrics _ _ _ _ _ _ _ _ Hloop)
    as (_ & Hins & Hsils & Hall).
  rewrite length_seq in Hins, Hsils. simpl in Hins, Hsils.
  split; [lia|]. split; [lia|]. split.
  - intros k Hk.
    destruct (Hall (k - 2) k) as (kmeans & score & Hf & Hs & Hi1 & Hi2).
    { rewrite lookup_seq. split; lia. }
    exists kmeans, score. simpl in Hi1, Hi2. repeat split; try assumption.
    destruct (find_optimal_clusters_loop_cache _ _ _ _ _ _ _ k Hloop) as [Hin _].
    destruct Hin as (kmeans' & Hf' & Hc); [apply in_seq; lia|]. congruence.
  - intros Hlt.
    replace (ClusterAnalyzer.max_clusters self + 1 - 2) with 0 in Hloop by lia.
    simpl in Hloop. now injection Hloop as <- <- <-.
Qed.

Lemma find_optimal_clusters_metrics_witness :
  ClusterAnalyzer.find_optimal_clusters (H := sign_sklearn)
    (ClusterAnalyzer.__init__ 3) two_groups =
  (Ok ([Fin 0; Fin 0], [Fin 0; Fin 0]), swept_on_two_groups)
  /\ length [Fin 0; Fin 0] = ClusterAnalyzer.max_clusters (ClusterAnalyzer.__init__ 3) - 1.
Proof.
  split; [vm_compute; reflexivity|].
  apply (find_optimal_clusters_metrics (H := sign_sklearn)
           (ClusterAnalyzer.__init__ 3) swept_on_two_groups two_groups
           [Fin 0; Fin 0] [Fin 0; Fin 0]).
  vm_compute. reflexivity.
Defined.

(** X7.  A sweep that raises stops at the first [k] that
    scikit-learn rejects and leaves a partly filled cache: the models of
    every smaller [k] of the range are stored, the model of [k] is stored too
    when it was the silhouette score that failed, and every other entry of
    the cache is as it was. *)
Theorem find_optimal_clusters_failure `{Sklearn}
    (self self' : ClusterAnalyzer.t) (X : Matrix) (e : Exception) :
  ClusterAnalyzer.find_optimal_clusters self X = (Raise e, self') ->
  ClusterAnalyzer.max_clusters self' = ClusterAnalyzer.max_clusters self /\
  exists k,
    2 <= k <= ClusterAnalyzer.max_clusters self /\
    (forall k', 2 <= k' < k ->
       exists kmeans, KMeans_fit k' 42 10 X = Ok kmeans /\
                      ClusterAnalyzer.kmeans_models self' !! k' = Some kmeans) /\
    (forall k', k' < 2 \/ k < k' ->
       ClusterAnalyzer.kmeans_models self' !! k' = ClusterAnalyzer.kmeans_models self !! k') /\
    ((KMeans_fit k 42 10 X = Raise e /\
      ClusterAnalyzer.kmeans_models self' !! k = ClusterAnalyzer.kmeans_models self !! k) \/
     (exists kmeans,
        KMeans_fit k 42 10 X = Ok kmeans /\
        silhouette_score X (labels_ kmeans) = Raise e /\
        ClusterAnalyzer.kmeans_models self' !! k = Some kmeans)).
Proof.
  unfold ClusterAnalyzer.find_optimal_clusters, ClusterAnalyzer.k_range. intros Hloop.
  apply find_optimal_clusters_loop_raises in Hloop as (Hmax & k & Hk & Hrest).
  split; [exact Hmax|]. exists k. split; [lia|exact Hrest].
Qed.

Lemma find_optimal_clusters_failure_witness :
  ClusterAnalyzer.find_optimal_clusters (H := sign_sklearn)
    (ClusterAnalyzer.__init__ 5) two_groups =
  (Raise ValueError_sklearn, ClusterAnalyzer.mk 5 (ClusterAnalyzer.kmeans_models swept_on_two_groups))
  /\ exists k,
       2 <= k <= 5 /\
       forall k', 2 <= k' < k ->
         exists kmeans,
           KMeans_fit (Sklearn := sign_sklearn) k' 42 10 two_groups = Ok kmeans /\
           ClusterAnalyzer.kmeans_models swept_on_two_groups !! k' = Some kmeans.
Proof.
  split; [vm_compute; reflexivity|].
  destruct (find_optimal_clusters_failure (H := sign_sklearn)
              (ClusterAnalyzer.__init__ 5)
              (ClusterAnalyzer.mk 5 (ClusterAnalyzer.kmeans_models swept_on_two_groups))
              two_groups ValueError_sklearn)
    as (_ & k & Hk & Hbelow & _); [vm_compute; reflexivity|].
  exists k. split; [exact Hk|exact Hbelow].
Defined.

(** X8.  What [perform_clustering] does to the instance: it never
    changes [max_clusters] nor the cache entry of another [k]; when it raises,
    the cache had no model for [k], the fit was rejected and the instance is
    unchanged; when it returns, the table has one row per label of the model
    that is now cached under [k], numbered from 0. *)
Theorem perform_clustering_state `{Sklearn}
    (self : ClusterAnalyzer.t) (X : Matrix) (k : nat) :
  let out := ClusterAnalyzer.perform_clustering self X k in
  ClusterAnalyzer.max_clusters (snd out) = ClusterAnalyzer.max_clusters self /\
  (forall k', k' <> k ->
     ClusterAnalyzer.kmeans_models (snd out) !! k' = ClusterAnalyzer.kmeans_models self !! k') /\
  (forall e, fst out = Raise e ->
     ClusterAnalyzer.kmeans_models self !! k = None /\
     KMeans_fit k 42 10 X = Raise e /\
     snd out = self) /\
  (forall frame, fst out = Ok frame ->
     exists kmeans,
       ClusterAnalyzer.kmeans_models (snd out) !! k = Some kmeans /\
       Cluster frame = labels_ kmeans /\
       Stock frame = seq 0 (length (labels_ kmeans)) /\
       (ClusterAnalyzer.kmeans_models self !! k = None ->
        KMeans_fit k 42 10 X = Ok kmeans)).
Proof.
  unfold ClusterAnalyzer.perform_clustering.
  destruct (ClusterAnalyzer.kmeans_models self !! k) as [cached|] eqn:Hc.
  - cbn [fst snd]. repeat split; try discriminate.
    intros frame [= <-]. exists cached. repeat split; [exact Hc|discriminate].
  - destruct (KMeans_fit k 42 10 X) as [kmeans|e'] eqn:Hfit; cbn [fst snd].
    + split; [reflexivity|]. split; [|split; [discriminate|]].
      * intros k' Hne. apply lookup_insert_ne. congruence.
      * intros frame [= <-]. exists kmeans. repeat split. apply lookup_insert_eq.
    + split; [reflexivity|]. split; [reflexivity|]. split; [|discriminate].
      intros e [= <-]. now repeat split.
Qed.

Lemma perform_clustering_state_witness :
  fst (ClusterAnalyzer.perform_clustering (H := sign_sklearn)
         (ClusterAnalyzer.__init__ 3) two_groups 4) = Raise ValueError_sklearn
  /\ snd (ClusterAnalyzer.perform_clustering (H := sign_sklearn)
            (ClusterAnalyzer.__init__ 3) two_groups 4) = ClusterAnalyzer.__init__ 3
  /\ fst (ClusterAnalyzer.perform_clustering (H := sign_sklearn)
            (ClusterAnalyzer.__init__ 3) two_groups 2) =
     Ok (mkClusterFrame [0; 1; 2] [0; 1; 1])
  /\ exists kmeans,
       ClusterAnalyzer.kmeans_models
         (snd (ClusterAnalyzer.perform_clustering (H := sign_sklearn)
                 (ClusterAnalyzer.__init__ 3) two_groups 2)) !! 2 = Some kmeans
       /\ labels_ kmeans = [0; 1; 1].
Proof.
  pose proof (perform_clustering_state (H := sign_sklearn)
                (ClusterAnalyzer.__init__ 3) two_groups 4) as (_ & _ & Hraise & _).
  pose proof (perform_clustering_state (H := sign_sklearn)
                (ClusterAnalyzer.__init__ 3) two_groups 2) as (_ & _ & _ & Hok).
  split; [vm_compute; reflexivity|].
  split; [apply (Hraise ValueError_sklearn); vm_compute; reflexivity|].
  split; [vm_compute; reflexivity|].
  destruct (Hok (mkClusterFrame [0; 1; 2] [0; 1; 1])) as (kmeans & Hc & Hl & _);
    [vm_compute; reflexivity|].
  exists kmeans. split; [exact Hc|]. symmetry. exact Hl.
Defined.

(** ** Column assignment aligns on the index *)

Section Alignment.
Import Pandas.

Lemma at_label_absent (labels : list Z) (values : list float) (label : Z) :
  ~ In label labels -> at_label labels values label = NaN.
Proof.
  revert values. induction labels as [|l labels IH]; intros values Hnot; [reflexivity|].
  destruct values as [|x values]; [reflexivity|]. simpl.
  destruct (Z.eqb_spec l label) as [->|Hne].
  - exfalso. apply Hnot. now left.
  - apply IH. intros Hin. apply Hnot. now right.
Qed.

Lemma at_label_lookup (labels : list Z) (values : list float) (i : nat) (label : Z) (x : float) :
  NoDup labels -> labels !! i = Some label -> values !! i = Some x ->
  at_label labels values label = x.
Proof.
  revert values i. induction labels as [|l labels IH]; intros values i Hnd Hl Hv.
  - destruct i; discriminate.
  - destruct values as [|y values]; [destruct i; discriminate|].
    apply NoDup_cons in Hnd as [Hnot Hnd]. simpl.
    destruct i as [|i].
    + injection Hl as ->. injection Hv as ->. now rewrite Z.eqb_refl.
    + simpl in Hl, Hv. destruct (Z.eqb_spec l label) as [->|Hne].
      * exfalso. apply Hnot. eapply list_elem_of_lookup_2, Hl.
      * now apply (IH values i).
Qed.

Lemma at_label_self (labels : list Z) (values : list float) :
  NoDup labels -> length values = length labels ->
  List.map (at_label labels values) labels = values.
Proof.
  intros Hnd Hlen. apply list_eq. intros i. rewrite list_lookup_fmap.
  destruct (labels !! i) as [label|] eqn:Hl; simpl.
  - destruct (lookup_lt_is_Some_2 values i) as [x Hx].
    { rewrite Hlen. eapply lookup_lt_Some, Hl. }
    rewrite Hx. f_equal. now apply (at_label_lookup labels values i).
  - symmetry. apply lookup_ge_None. apply lookup_ge_None in Hl. lia.
Qed.

End Alignment.

Section AssignAll.
Import Pandas.

Lemma assoc_blank (n : nat) (cols : list (string * Column)) (name : string) :
  assoc name (List.map (fun nc => (fst nc, blank_column n (snd nc))) cols) =
  blank_column n <$> assoc name cols.
Proof.
  induction cols as [|[m c] cols IH]; [reflexivity|]. simpl.
  destruct (String.eqb name m); [reflexivity|exact IH].
Qed.

Lemma at_label_no_labels (values : list float) (target : list Z) :
  List.map (at_label [] values) target = replicate (length target) NaN.
Proof.
  induction target as [|d target IH]; [reflexivity|].
  cbn [List.map length replicate]. rewrite IH. reflexivity.
Qed.

Lemma ensure_valid_index_cases (df : DataFrame) (value : Series) :
  (index df = [] /\ s_index value <> [] /\
   _ensure_valid_index df value =
   mkDataFrame (s_index value)
     (List.map (fun nc => (fst nc, blank_column (length (s_index value)) (snd nc)))
               (columns df))) \/
  ((index df <> [] \/ s_index value = []) /\ _ensure_valid_index df value = df).
Proof.
  unfold _ensure_valid_index.
  destruct (index df) as [|d idx] eqn:Hidx.
  - destruct (s_index value) as [|l labels] eqn:Hlabels.
    + right. split; [now right|reflexivity].
    + left. split; [reflexivity|]. split; [discriminate|reflexivity].
  - right. split; [now left|reflexivity].
Qed.

Lemma setitem_index_first (df df' : DataFrame) (name : string) (value : Series) :
  setitem df name value = Ok df' ->
  index df' = match index df with [] => s_index value | _ :: _ => index df end.
Proof.
  unfold setitem. intros Hset.
  destruct (ensure_valid_index_cases df value) as [(Hidx & Hlabels & Hdf)|[Hcase Hdf]];
    rewrite Hdf in Hset;
    match type of Hset with
    | context [_reindex_for_setitem ?v ?f] => destruct (_reindex_for_setitem v f)
    end; try discriminate; injection Hset as <-; cbn [index].
  - now rewrite Hidx.
  - destruct (index df); [|reflexivity]. destruct Hcase; congruence.
Qed.

(** The column that an assignment writes. *)
Lemma setitem_aligned (df : DataFrame) (name : string) (value : Series) :
  well_formed value ->
  exists df', setitem df name value = Ok df' /\ aligned df' name value.
Proof.
  intros [Hnd Hlen]. unfold setitem, aligned.
  destruct (ensure_valid_index_cases df value) as [(Hidx & Hlabels & ->)|[Hcase ->]].
  - unfold _reindex_for_setitem. cbn [index columns].
    rewrite bool_decide_eq_true_2 by reflexivity.
    eexists. split; [reflexivity|]. cbn [index columns].
    split; [|intros Hno; congruence]. rewrite assoc_set_column_eq. do 2 f_equal.
    symmetry. now apply at_label_self.
  - unfold _reindex_for_setitem.
    destruct (bool_decide (s_index value = index df)) eqn:Hsame.
    + apply bool_decide_eq_true_1 in Hsame. eexists. split; [reflexivity|].
      cbn [index columns]. split; [|intros Hno; congruence].
      rewrite assoc_set_column_eq. do 2 f_equal.
      rewrite <- Hsame. symmetry. now apply at_label_self.
    + apply bool_decide_eq_false_1 in Hsame.
      destruct (bool_decide (index df = [])) eqn:Hnone.
      * apply bool_decide_eq_true_1 in Hnone.
        destruct Hcase as [Hcase|Hcase]; [contradiction|]. congruence.
      * apply bool_decide_eq_false_1 in Hnone. cbn [orb].
        unfold reindex, has_duplicates. rewrite bool_decide_eq_true_2 by exact Hnd.
        eexists. split; [reflexivity|]. cbn [index columns].
        split; [|intros Hno; contradiction]. now rewrite assoc_set_column_eq.
Qed.

(** What an assignment does to the columns that are there already. *)
Lemma setitem_keeps_aligned (df df' : DataFrame) (name name' : string) (value value' : Series) :
  name' <> name ->
  setitem df name value = Ok df' ->
  aligned df name' value' -> aligned df' name' value'.
Proof.
  intros Hne Hset [Hcol Hempty]. unfold setitem in Hset. unfold aligned.
  destruct (ensure_valid_index_cases df value) as [(Hidx & Hlabels & Hdf)|[Hcase Hdf]];
    rewrite Hdf in Hset;
    match type of Hset with
    | context [_reindex_for_setitem ?v ?f] => destruct (_reindex_for_setitem v f)
    end; try discriminate; injection Hset as <-; cbn [index columns].
  - split; [|intros Hno; contradiction].
    rewrite assoc_set_column_ne by exact Hne.
    rewrite assoc_blank, Hcol, (Hempty Hidx), Hidx.
    cbn [fmap option_fmap option_map blank_column List.map].
    now rewrite at_label_no_labels.
  - split; [|exact Hempty].
    rewrite assoc_set_column_ne by exact Hne. exact Hcol.
Qed.

Lemma first_index_skip (pre post : list (string * Series)) :
  (forall n s, In (n, s) pre -> s_index s = []) ->
  first_index (pre ++ post) = first_index post.
Proof.
  induction pre as [|[n s] pre IH]; intros Hpre; [reflexivity|]. simpl.
  rewrite (Hpre n s) by now left. apply IH. intros m r Hin. apply (Hpre m r). now right.
Qed.

(** A loop of assignments to distinct names: the frame keeps the index it
    has, or takes the first index that has rows, and every series ends up
    aligned on it. *)
Lemma assign_all_aligned (items : list (string * Series)) :
  List.NoDup (List.map fst items) ->
  (forall n s, In (n, s) items -> well_formed s) ->
  forall df,
  exists table,
    assign_all items df = Ok table /\
    index table = match index df with [] => first_index items | _ :: _ => index df end /\
    (forall n s, In (n, s) items -> aligned table n s) /\
    (forall n s, ~ In n (List.map fst items) -> aligned df n s -> aligned table n s).
Proof.
  induction items as [|[name value] items IH]; intros Hnd Hwf df.
  - exists df. split; [reflexivity|]. split; [now destruct (index df)|].
    split; [intros n s []|]. intros n s _ Ha. exact Ha.
  - apply List.NoDup_cons_iff in Hnd as [Hfresh Hnd]. cbn [List.map fst] in Hfresh.
    destruct (setitem_aligned df name value) as (df1 & Hset & Hal); [apply (Hwf name); now left|].
    destruct (IH Hnd (fun n s Hin => Hwf n s (or_intror Hin)) df1)
      as (table & Hrun & Hindex & Hitems & Hold).
    exists table. cbn [assign_all]. rewrite Hset. cbn [mbind result_bind].
    split; [exact Hrun|]. split; [|split].
    + rewrite Hindex, (setitem_index_first _ _ _ _ Hset). cbn [first_index].
      destruct (index df); [|reflexivity]. now destruct (s_index value).
    + intros n s [Heq|Hin].
      * injection Heq as <- <-. now apply Hold.
      * now apply Hitems.
    + intros n s Hnot Ha. apply Hold.
      * intros Hin. apply Hnot. now right.
      * apply (setitem_keeps_aligned df df1 name n value s); [|exact Hset|exact Ha].
        intros ->. apply Hnot. now left.
Qed.

End AssignAll.

(** ** time_window_analyzer.py: instruments with different dates *)

Section VolatilityAlignment.
Import Pandas BaseAnalyzer TimeWindowAnalyzer.
Context `{DateParser} `{Sqrt} `{Argsort} `{!ArgsortLaws}.

Lemma Forall2_In_l {A B : Type} (P : A -> B -> Prop) (l : list A) (k : list B) (x : A) :
  Forall2 P l k -> In x l -> exists y, In y k /\ P x y.
Proof.
  induction 1 as [|a b l k Hab _ IH]; intros Hin; [destruct Hin|].
  destruct Hin as [->|Hin].
  - exists b. split; [now left|exact Hab].
  - destruct (IH Hin) as (y & Hy & Hxy). exists y. split; [now right|exact Hxy].
Qed.

Lemma Forall2_In_r {A B : Type} (P : A -> B -> Prop) (l : list A) (k : list B) (y : B) :
  Forall2 P l k -> In y k -> exists x, In x l /\ P x y.
Proof.
  induction 1 as [|a b l k Hab _ IH]; intros Hin; [destruct Hin|].
  destruct Hin as [->|Hin].
  - exists a. split; [now left|exact Hab].
  - destruct (IH Hin) as (x & Hx & Hxy). exists x. split; [now right|exact Hxy].
Qed.

Lemma Forall2_names {A B : Type} (P : string * A -> string * B -> Prop)
    (l : list (string * A)) (k : list (string * B)) :
  Forall2 P l k -> (forall x y, P x y -> fst y = fst x) ->
  List.map fst k = List.map fst l.
Proof.
  induction 1 as [|a b l k Hab _ IH]; intros Hfst; [reflexivity|].
  simpl. now rewrite (Hfst a b Hab), IH.
Qed.

(** The series that [analyze_volatility] assigns for one instrument. *)
Lemma analyze_volatility_loop_assign (stock_data : list (string * DataFrame)) (window : nat)
    (items : list (string * Series)) :
  Forall2 (fun nr ns =>
             fst ns = fst nr /\
             exists df returns,
               _prepare_data (snd nr) = Ok df /\
               _calculate_returns df = Ok returns /\
               snd ns = volatility returns window) stock_data items ->
  forall volatility_data,
    analyze_volatility_loop stock_data window volatility_data = assign_all items volatility_data.
Proof.
  induction 1 as [|[name raw] [n s] stock_data items (Hn & df & returns & Hp & Hr & Hs) _ IH];
    intros volatility_data; [reflexivity|].
  cbn [fst snd] in Hn, Hp, Hs. subst n s.
  cbn [analyze_volatility_loop assign_all]. rewrite Hp. cbn [mbind result_bind].
  rewrite Hr. cbn [mbind result_bind].
  destruct (setitem volatility_data name (volatility returns window)); [|reflexivity].
  apply IH.
Qed.

Lemma usable_well_formed (raw df : DataFrame) (returns : Series) :
  usable raw -> rectangular raw ->
  _prepare_data raw = Ok df -> _calculate_returns df = Ok returns ->
  NoDup (s_index returns) /\ length (s_values returns) = length (s_index returns).
Proof.
  intros (df' & close & Hp' & Hclose & Hnd & _) Hrect Hp Hr.
  assert (df' = df) as -> by congruence.
  rewrite (calculate_returns_index df returns Hr).
  rewrite (calculate_returns_length df close returns Hclose Hr).
  split; [exact Hnd|].
  destruct (prepare_data_rectangular raw df Hrect Hp) as [_ Hrect'].
  apply getitem_In in Hclose. apply (Hrect' "close" (NumCol close) Hclose).
Qed.

Lemma usable_returns (raw : DataFrame) :
  usable raw -> exists df returns, _prepare_data raw = Ok df /\ _calculate_returns df = Ok returns.
Proof.
  intros (df & close & Hp & Hclose & _). exists df. eexists.
  split; [exact Hp|]. exact (calculate_returns_numeric df close Hclose).
Qed.

Lemma volatility_items (stock_data : list (string * DataFrame)) (window : nat) :
  (forall name raw, In (name, raw) stock_data -> usable raw /\ rectangular raw) ->
  exists items,
    Forall2 (fun nr ns =>
               fst ns = fst nr /\
               exists df returns,
                 _prepare_data (snd nr) = Ok df /\
                 _calculate_returns df = Ok returns /\
                 snd ns = volatility returns window) stock_data items /\
    forall n s, In (n, s) items -> well_formed s.
Proof.
  induction stock_data as [|[name raw] stock_data IH]; intros Hall.
  - exists []. split; [constructor|]. intros n s [].
  - destruct IH as (items & Hitems & Hwf).
    { intros n r Hin. apply (Hall n r). now right. }
    destruct (Hall name raw (or_introl eq_refl)) as [Husable Hrect].
    destruct (usable_returns raw Husable) as (df & returns & Hp & Hr).
    exists ((name, volatility returns window) :: items). split.
    + constructor; [|exact Hitems]. split; [reflexivity|]. now exists df, returns.
    + intros n s [Heq|Hin]; [|now apply (Hwf n s)].
      injection Heq as <- <-.
      destruct (usable_well_formed raw df returns Husable Hrect Hp Hr) as [Hnd Hlen].
      split; [exact Hnd|]. cbn [volatility s_index s_values].
      now rewrite length_map, length_rolling_std.
Qed.

End VolatilityAlignment.

(** X9.  How [analyze_volatility] lines up instruments whose
    dates differ.  The rows of the table are the dates of the first
    instrument that has any; the column of an instrument holds, at each of
    these dates, the volatility that the instrument has at that date, and
    NaN at a date that the instrument lacks.  Dates that only a later
    instrument has are not in the table. *)
Theorem analyze_volatility_alignment `{DateParser} `{Sqrt} `{Argsort} `{!ArgsortLaws}
    (stock_data : list (string * DataFrame)) (window : nat) :
  List.NoDup (List.map fst stock_data) ->
  (forall name raw, In (name, raw) stock_data ->
     TimeWindowAnalyzer.usable raw /\ rectangular raw) ->
  exists table,
    TimeWindowAnalyzer.analyze_volatility stock_data window = Ok table /\
    (forall pre name raw post df,
        stock_data = pre ++ (name, raw) :: post ->
        (forall n r d, In (n, r) pre -> BaseAnalyzer._prepare_data r = Ok d -> index d = []) ->
        BaseAnalyzer._prepare_data raw = Ok df -> index df <> [] ->
        index table = index df) /\
    (forall name raw df returns,
        In (name, raw) stock_data ->
        BaseAnalyzer._prepare_data raw = Ok df ->
        BaseAnalyzer._calculate_returns df = Ok returns ->
        exists column,
          Pandas.getitem table name = Ok (NumCol column) /\
          length column = length (index table) /\
          forall t date, index table !! t = Some date ->
            (forall i, index df !! i = Some date ->
               column !! t =
               s_values (TimeWindowAnalyzer.volatility returns window) !! i) /\
            (~ In date (index df) -> column !! t = Some NaN)).
Proof.
  intros Hnames Hall.
  destruct (volatility_items stock_data window Hall) as (items & Hitems & Hwf).
  assert (Hfst : List.map fst items = List.map fst stock_data).
  { apply (Forall2_names _ _ _ Hitems). now intros x y [Hxy _]. }
  destruct (assign_all_aligned items) with (df := Pandas.empty_frame)
    as (table & Hrun & Hindex & Haligned & _); [now rewrite Hfst|exact Hwf|].
  exists table. unfold TimeWindowAnalyzer.analyze_volatility.
  rewrite (analyze_volatility_loop_assign stock_data window items Hitems).
  split; [exact Hrun|]. cbn [Pandas.empty_frame index] in Hindex. split.
  - intros pre name raw post df Hsplit Hpre Hp Hrows. subst stock_data.
    apply Forall2_app_inv_l in Hitems as (ipre & irest & Hipre & Hirest & ->).
    inversion Hirest as [|x [n s] l k (Hn & df' & returns & Hp' & Hr & Hs) Hpost]; subst.
    cbn [fst snd] in Hn, Hp', Hs. assert (df' = df) as -> by congruence.
    rewrite Hindex, first_index_skip.
    + cbn [first_index]. rewrite Hs. cbn [TimeWindowAnalyzer.volatility s_index].
      rewrite (calculate_returns_index df returns Hr).
      destruct (index df); [contradiction|reflexivity].
    + intros m r Hin.
      destruct (Forall2_In_r _ _ _ _ Hipre Hin)
        as ([m' raw'] & Hin' & _ & d & returns' & Hd & Hr' & Hs').
      cbn [fst snd] in Hd, Hs'. rewrite Hs'. cbn [TimeWindowAnalyzer.volatility s_index].
      rewrite (calculate_returns_index d returns' Hr'). exact (Hpre m' raw' d Hin' Hd).
  - intros name raw df returns Hin Hp Hr.
    destruct (Forall2_In_l _ _ _ _ Hitems Hin)
      as ([n s] & Hin' & Hn & df' & returns' & Hp' & Hr' & Hs).
    cbn [fst snd] in Hn, Hp', Hs. subst n.
    assert (df' = df) as -> by congruence. assert (returns' = returns) as -> by congruence.
    destruct (Haligned name s Hin') as [Hcol _]. destruct (Hwf name s Hin') as [Hnd Hlen].
    subst s. cbn [TimeWindowAnalyzer.volatility s_index s_values] in Hcol, Hnd, Hlen.
    rewrite (calculate_returns_index df returns Hr) in Hcol, Hnd, Hlen.
    eexists. split; [unfold Pandas.getitem; rewrite Hcol; reflexivity|].
    split; [now rewrite length_map|].
    intros t date Ht. rewrite list_lookup_fmap, Ht. cbn [fmap option_fmap option_map].
    split.
    + intros i Hi. cbn [TimeWindowAnalyzer.volatility s_values].
      destruct (lookup_lt_is_Some_2
                  (List.map (fun x => Float.mul x TimeWindowAnalyzer.annualization)
                     (Pandas.rolling_std window (s_values returns))) i) as [x Hx].
      { rewrite Hlen. eapply lookup_lt_Some, Hi. }
      rewrite Hx. f_equal. now apply (at_label_lookup _ _ i).
    + intros Hnot. f_equal. now apply at_label_absent.
Qed.

Lemma two_dates_usable :
  TimeWindowAnalyzer.usable
      (H := epoch_ns) (H0 := insertion_argsort) (price_table [1; 2]%Z [Fin 10; Fin 10]).
Proof.
  exists (mkDataFrame [1; 2]%Z [("close", NumCol [Fin 10; Fin 10])]), [Fin 10; Fin 10].
  split; [reflexivity|]. split; [reflexivity|]. split; [|split].
  - apply NoDup_ListNoDup. repeat constructor; simpl; intuition discriminate.
  - intros c Hc. discriminate.
  - intros c Hc. discriminate.
Defined.

Lemma three_dates_usable :
  TimeWindowAnalyzer.usable
      (H := epoch_ns) (H0 := insertion_argsort) (price_table [0; 1; 2]%Z [Fin 10; Fin 10; Fin 10]).
Proof.
  exists (mkDataFrame [0; 1; 2]%Z [("close", NumCol [Fin 10; Fin 10; Fin 10])]),
         [Fin 10; Fin 10; Fin 10].
  split; [reflexivity|]. split; [reflexivity|]. split; [|split].
  - apply NoDup_ListNoDup. repeat constructor; simpl; intuition discriminate.
  - intros c Hc. discriminate.
  - intros c Hc. discriminate.
Defined.

Lemma price_table_rectangular (dates : list Z) (close : list float) :
  length close = length dates -> rectangular (price_table dates close).
Proof.
  intros Hlen name c [E|[E|[]]]; injection E as <- <-;
    cbn [price_table index column_length]; rewrite !length_map, length_seq; congruence.
Defined.

Lemma analyze_volatility_alignment_witness :
  exists table,
    TimeWindowAnalyzer.analyze_volatility
        (H := epoch_ns) (H0 := exact_sqrt) (H1 := insertion_argsort)
      [("A", price_table [1; 2]%Z [Fin 10; Fin 10]);
       ("B", price_table [0; 1; 2]%Z [Fin 10; Fin 10; Fin 10])] 2 = Ok table
    /\ index table = [1; 2]%Z.
Proof.
  destruct (analyze_volatility_alignment
      (H := epoch_ns) (H0 := exact_sqrt) (H1 := insertion_argsort)
              [("A", price_table [1; 2]%Z [Fin 10; Fin 10]);
               ("B", price_table [0; 1; 2]%Z [Fin 10; Fin 10; Fin 10])] 2)
    as (table & Hrun & Hindex & _).
  - repeat constructor; simpl; intuition discriminate.
  - intros name raw [E|[E|[]]]; injection E as <- <-.
    + split; [exact two_dates_usable|now apply price_table_rectangular].
    + split; [exact three_dates_usable|now apply price_table_rectangular].
  - exists table. split; [exact Hrun|].
    apply (Hindex [] "A" (price_table [1; 2]%Z [Fin 10; Fin 10])
             [("B", price_table [0; 1; 2]%Z [Fin 10; Fin 10; Fin 10])]
             (mkDataFrame [1; 2]%Z [("close", NumCol [Fin 10; Fin 10])]));
      [reflexivity|intros n r d []|reflexivity|discriminate].
Defined.

(** ** time_window_analyzer.py: volume and price *)

Section VolumePrice.
Import Pandas BaseAnalyzer TimeWindowAnalyzer.
Context `{DateParser} `{Sqrt} `{Argsort}.

Lemma existsb_filtered (names : list string) (name other : string) :
  name <> other ->
  existsb (String.eqb name) (List.filter (fun n => negb (String.eqb other n)) names) =
  existsb (String.eqb name) names.
Proof.
  intros Hne. induction names as [|n names IH]; [reflexivity|]. simpl.
  destruct (String.eqb_spec other n) as [<-|Hn]; simpl.
  - rewrite IH. destruct (String.eqb_spec name other); [contradiction|reflexivity].
  - now rewrite IH.
Qed.

Lemma prepare_data_has_column (raw df : DataFrame) (name : string) :
  _prepare_data raw = Ok df -> name <> "trade_date" ->
  has_column df name = has_column raw name.
Proof.
  intros Hp Hne. unfold has_column. rewrite (prepare_data_names raw df Hp).
  now apply existsb_filtered.
Qed.

Lemma has_column_set_column (df : DataFrame) (name : string) (c : Column) :
  has_column (mkDataFrame (index df) (set_column (columns df) name c)) name = true.
Proof.
  apply has_column_assoc. cbn [columns]. rewrite assoc_set_column_eq. eauto.
Qed.

Lemma with_volume_has_volume (df : DataFrame) :
  has_column (with_volume df) "volume" = has_column df "volume" || has_column df "vol".
Proof.
  unfold with_volume. destruct (has_column df "volume") eqn:Hvolume; [exact Hvolume|].
  destruct (has_column df "vol") eqn:Hvol; cbn [negb andb orb]; [|exact Hvolume].
  apply has_column_assoc in Hvol as [vol Hvol]. rewrite Hvol.
  apply has_column_set_column.
Qed.

(** The instruments that reach the assignment. *)
Lemma analyze_volume_price_correlation_loop_names
    (stock_data : list (string * DataFrame)) (window : nat) :
  forall volume_price_corr table,
    analyze_volume_price_correlation_loop stock_data window volume_price_corr = Ok table ->
    List.NoDup (List.map fst (columns volume_price_corr) ++ List.map fst stock_data) ->
    List.map fst (columns table) =
    List.map fst (columns volume_price_corr) ++
    List.map fst (List.filter (fun nr => has_column (snd nr) "volume" ||
                                         has_column (snd nr) "vol") stock_data).
Proof.
  induction stock_data as [|[name raw] stock_data IH]; intros acc table Hrun Hnd.
  - injection Hrun as <-. simpl. now rewrite app_nil_r.
  - cbn [analyze_volume_price_correlation_loop] in Hrun.
    destruct (_prepare_data raw) as [df|e] eqn:Hp; [|discriminate].
    cbn [mbind result_bind] in Hrun.
    pose proof (with_volume_has_volume df) as Hhas.
    rewrite (prepare_data_has_column raw df "volume" Hp) in Hhas by discriminate.
    rewrite (prepare_data_has_column raw df "vol" Hp) in Hhas by discriminate.
    cbn [List.filter snd List.map fst] in Hnd |- *.
    destruct (has_column raw "volume" || has_column raw "vol"); rewrite Hhas in Hrun.
    + destruct (_calculate_returns (with_volume df)) as [price_return|e]; [|discriminate].
      cbn [mbind result_bind] in Hrun.
      destruct (getitem (with_volume df) "volume") as [volume|e]; [|discriminate].
      cbn [mbind result_bind] in Hrun.
      destruct (pct_change_series volume) as [volume_change|e]; [|discriminate].
      cbn [mbind result_bind] in Hrun.
      match type of Hrun with
      | context [setitem acc name ?s] => destruct (setitem acc name s) as [acc'|e] eqn:Hset
      end; [|discriminate].
      cbn [mbind result_bind] in Hrun.
      assert (Hnew : ~ In name (List.map fst (columns acc))).
      { apply List.NoDup_remove_2 in Hnd. intros Hin. apply Hnd.
        apply in_or_app. now left. }
      pose proof (setitem_names _ _ _ _ Hnew Hset) as Hnames.
      rewrite (IH acc' table Hrun); rewrite Hnames.
      * cbn [List.map fst]. now rewrite <- app_assoc.
      * now rewrite <- app_assoc.
    + apply (IH acc table Hrun).
      apply List.NoDup_remove_1 in Hnd. exact Hnd.
Qed.

(** Where the second series starts with a gap, the windows that reach back
    to the first row hold fewer than [window] complete pairs. *)
Lemma rolling_corr_at_leading_gap (window : nat) (x y : list float) (t : nat) :
  y !! 0 = Some NaN \/ y = [] -> t < window -> rolling_corr_at window x y t = NaN.
Proof.
  intros Hy Ht. unfold rolling_corr_at, window_at.
  replace (S t - window) with 0 by lia. cbn [skipn].
  assert (Hobs : length (complete_pairs (firstn (S t) x) (firstn (S t) y)) < window).
  { destruct Hy as [Hy| ->].
    - destruct y as [|y0 y]; [discriminate|]. injection Hy as ->.
      destruct x as [|x0 x].
      { rewrite firstn_nil. cbn. lia. }
      cbn [firstn]. unfold complete_pairs. cbn [combine].
      change (omap ?f ((x0, NaN) :: ?l)) with
        (match f (x0, NaN) with Some z => z :: omap f l | None => omap f l end).
      cbn [fst snd Float.finite mbind option_bind].
      pose proof (length_complete_pairs_le (firstn t x) (firstn t y)) as Hle.
      unfold complete_pairs in Hle. rewrite length_firstn in Hle.
      destruct (Float.finite x0); cbn [mbind option_bind]; lia.
    - rewrite firstn_nil. unfold complete_pairs.
      rewrite combine_nil. simpl. lia. }
  apply Nat.ltb_lt in Hobs. cbv zeta. rewrite !drop_0. now rewrite Hobs.
Qed.

Lemma pct_change_leading_gap (c : Column) (w : list float) :
  pct_change_series c = Ok w -> w !! 0 = Some NaN \/ w = [].
Proof.
  intros Hw. destruct w as [|x w]; [now right|]. left.
  now rewrite (pct_change_series_lookup_0 c (x :: w) x Hw eq_refl).
Qed.

End VolumePrice.

(** X10.  [analyze_volume_price_correlation] leaves out the
    instruments that have neither a [volume] nor a [vol] column: the table
    has one column for each of the other instruments, in the order of the
    dictionary. *)
Theorem volume_price_correlation_columns `{DateParser} `{Sqrt} `{Argsort}
    (stock_data : list (string * DataFrame)) (window : nat) (table : DataFrame) :
  TimeWindowAnalyzer.analyze_volume_price_correlation stock_data window = Ok table ->
  List.NoDup (List.map fst stock_data) ->
  List.map fst (columns table) =
  List.map fst (List.filter (fun nr => Pandas.has_column (snd nr) "volume" ||
                                       Pandas.has_column (snd nr) "vol") stock_data).
Proof.
  intros Hrun Hnd.
  apply (analyze_volume_price_correlation_loop_names stock_data window Pandas.empty_frame table Hrun).
  exact Hnd.
Qed.

Lemma volume_price_correlation_columns_witness :
  TimeWindowAnalyzer.analyze_volume_price_correlation
      (H := epoch_ns) (H0 := exact_sqrt) (H1 := insertion_argsort)
    [("A", price_table [1; 2]%Z [Fin 10; Fin 11]);
     ("B", daily_table [1; 2]%Z [Fin 10; Fin 11] [Fin 100; Fin 120])] 2 =
  Ok (mkDataFrame [1; 2]%Z [("B", NumCol [NaN; NaN])])
  /\ List.map fst (columns (mkDataFrame [1; 2]%Z [("B", NumCol [NaN; NaN])])) =
     List.map fst
       (List.filter (fun nr => Pandas.has_column (snd nr) "volume" ||
                               Pandas.has_column (snd nr) "vol")
          [("A", price_table [1; 2]%Z [Fin 10; Fin 11]);
           ("B", daily_table [1; 2]%Z [Fin 10; Fin 11] [Fin 100; Fin 120])]).
Proof.
  split; [vm_compute; reflexivity|].
  apply (volume_price_correlation_columns
      (H := epoch_ns) (H0 := exact_sqrt) (H1 := insertion_argsort) _ 2).
  - vm_compute. reflexivity.
  - repeat constructor; simpl; intuition discriminate.
Defined.

(** X11.  The volume column is differenced without filling its first
    row, so the correlation of one instrument is undefined on its first
    [window] rows, one row more than the first [window - 1] rows of the
    volatility table. *)
Theorem volume_price_correlation_first_rows `{DateParser} `{Sqrt} `{Argsort}
    (name : string) (raw : DataFrame) (window : nat) (table : DataFrame)
    (column : list float) :
  TimeWindowAnalyzer.analyze_volume_price_correlation [(name, raw)] window = Ok table ->
  Pandas.getitem table name = Ok (NumCol column) ->
  forall t, t < window -> t < length column -> column !! t = Some NaN.
Proof.
  unfold TimeWindowAnalyzer.analyze_volume_price_correlation.
  cbn [TimeWindowAnalyzer.analyze_volume_price_correlation_loop].
  intros Hrun Hget t Ht Hlen.
  destruct (BaseAnalyzer._prepare_data raw) as [df|e]; [|discriminate].
  cbn [mbind result_bind] in Hrun.
  destruct (Pandas.has_column (TimeWindowAnalyzer.with_volume df) "volume").
  - destruct (BaseAnalyzer._calculate_returns (TimeWindowAnalyzer.with_volume df))
      as [price_return|e]; [|discriminate].
    cbn [mbind result_bind] in Hrun.
    destruct (Pandas.getitem (TimeWindowAnalyzer.with_volume df) "volume")
      as [volume|e]; [|discriminate].
    cbn [mbind result_bind] in Hrun.
    destruct (Pandas.pct_change_series volume) as [volume_change|e] eqn:Hchange;
      [|discriminate].
    cbn [mbind result_bind] in Hrun.
    rewrite setitem_empty_frame in Hrun. cbn [mbind result_bind] in Hrun.
    injection Hrun as <-. unfold Pandas.getitem in Hget. cbn [columns Pandas.assoc] in Hget.
    rewrite String.eqb_refl in Hget. cbn [s_values] in Hget. injection Hget as <-.
    unfold Pandas.rolling_corr in Hlen |- *. rewrite length_map, length_seq in Hlen.
    rewrite list_lookup_fmap, lookup_seq_lt by exact Hlen. cbn [fmap option_fmap option_map].
    f_equal.
    apply rolling_corr_at_leading_gap; [exact (pct_change_leading_gap _ _ Hchange)|exact Ht].
  - injection Hrun as <-. discriminate.
Qed.

Lemma volume_price_correlation_first_rows_witness :
  TimeWindowAnalyzer.analyze_volume_price_correlation
      (H := epoch_ns) (H0 := exact_sqrt) (H1 := insertion_argsort)
    [("B", daily_table [1; 2; 3]%Z [Fin 10; Fin 11; Fin 12] [Fin 100; Fin 120; Fin 90])] 2 =
  Ok (mkDataFrame [1; 2; 3]%Z [("B", NumCol [NaN; NaN; Fin 1])])
  /\ [NaN; NaN; Fin 1] !! 1 = Some NaN.
Proof.
  split; [vm_compute; reflexivity|].
  apply (volume_price_correlation_first_rows
      (H := epoch_ns) (H0 := exact_sqrt) (H1 := insertion_argsort)
           "B" (daily_table [1; 2; 3]%Z [Fin 10; Fin 11; Fin 12] [Fin 100; Fin 120; Fin 90])
           2 (mkDataFrame [1; 2; 3]%Z [("B", NumCol [NaN; NaN; Fin 1])]));
    [vm_compute; reflexivity|reflexivity|lia|simpl; lia].
Defined.

(** ** time_window_analyzer.py: the warning of [calculate_rolling_correlation] *)

Section RollingWarning.
Import Pandas BaseAnalyzer TimeWindowAnalyzer.
Context `{DateParser} `{Sqrt} `{Argsort}.

Lemma set_column_numeric (cols : list (string * Column)) (name : string) (v : list float) :
  List.Forall (fun nc => numeric (snd nc)) cols ->
  List.Forall (fun nc => numeric (snd nc)) (set_column cols name (NumCol v)).
Proof.
  induction 1 as [|[n c] cols Hc Hcols IH]; simpl.
  - constructor; [now exists v|constructor].
  - destruct (String.eqb name n); constructor; try assumption.
    cbn [snd]. now exists v.
Qed.

Lemma ensure_valid_index_numeric (df : DataFrame) (value : Series) :
  List.Forall (fun nc => numeric (snd nc)) (columns df) ->
  List.Forall (fun nc => numeric (snd nc)) (columns (_ensure_valid_index df value)).
Proof.
  intros Hall.
  destruct (ensure_valid_index_cases df value) as [(_ & _ & ->)|[_ ->]]; [|exact Hall].
  cbn [columns]. apply List.Forall_map. apply (List.Forall_impl _ (P := fun nc => numeric (snd nc))).
  - intros [n c] [v ->]. cbn [fst snd blank_column]. now eexists.
  - exact Hall.
Qed.

Lemma setitem_numeric (df df' : DataFrame) (name : string) (value : Series) :
  List.Forall (fun nc => numeric (snd nc)) (columns df) ->
  setitem df name value = Ok df' ->
  List.Forall (fun nc => numeric (snd nc)) (columns df').
Proof.
  intros Hall Hset. unfold setitem in Hset.
  destruct (_reindex_for_setitem value (_ensure_valid_index df value)); [|discriminate].
  injection Hset as <-. cbn [columns].
  now apply set_column_numeric, ensure_valid_index_numeric.
Qed.

Lemma returns_data_loop_numeric (stock_data : list (string * DataFrame)) :
  forall acc returns_data,
    returns_data_loop stock_data acc = Ok returns_data ->
    List.Forall (fun nc => numeric (snd nc)) (columns acc) ->
    List.Forall (fun nc => numeric (snd nc)) (columns returns_data).
Proof.
  induction stock_data as [|[name raw] stock_data IH]; intros acc returns_data Hrun Hall.
  - now injection Hrun as <-.
  - cbn [returns_data_loop] in Hrun.
    destruct (_prepare_data raw) as [df|e]; [|discriminate]. cbn [mbind result_bind] in Hrun.
    destruct (_calculate_returns df) as [returns|e]; [|discriminate].
    cbn [mbind result_bind] in Hrun.
    destruct (setitem acc name returns) as [acc'|e] eqn:Hset; [|discriminate].
    cbn [mbind result_bind] in Hrun.
    apply (IH acc' returns_data Hrun). exact (setitem_numeric _ _ _ _ Hall Hset).
Qed.

Lemma numeric_columns_nonempty (df : DataFrame) :
  List.Forall (fun nc => numeric (snd nc)) (columns df) ->
  columns df <> [] -> numeric_columns df <> [].
Proof.
  unfold numeric_columns. destruct (columns df) as [|[n c] cols]; [congruence|].
  intros Hall _. apply List.Forall_inv in Hall as [v Hv]. cbn [snd] in Hv. subst c.
  discriminate.
Qed.

Lemma dropna_rows_numeric (df : DataFrame) :
  List.Forall (fun nc => numeric (snd nc)) (columns df) ->
  List.Forall (fun nc => numeric (snd nc)) (columns (dropna_rows df)).
Proof.
  intros Hall. unfold dropna_rows. cbn [columns]. apply List.Forall_map.
  apply (List.Forall_impl _ (P := fun nc => numeric (snd nc))); [|exact Hall].
  intros [n c] [v ->]. cbn [fst snd take_column]. now eexists.
Qed.

Lemma empty_false (df : DataFrame) :
  empty df = false -> index df <> [] /\ columns df <> [].
Proof.
  unfold empty. intros Hempty. apply orb_false_iff in Hempty as [Hi Hc].
  split; intros Heq; rewrite Heq in *; discriminate.
Qed.

End RollingWarning.

(** X12.  [calculate_rolling_correlation] never raises, and its
    result tells whether it failed: the table has rows, and columns, exactly
    when no warning was logged; after a warning it is the table without rows
    and columns.  An empty dictionary gives the "not enough data" warning. *)
Theorem calculate_rolling_correlation_warning `{DateParser} `{Sqrt} `{Argsort}
    (stock_data : list (string * DataFrame)) (window : nat) :
  let out := TimeWindowAnalyzer.calculate_rolling_correlation stock_data window in
  (fst out = None <-> p_index (snd out) <> []) /\
  (fst out = None <-> p_columns (snd out) <> []) /\
  (forall e, fst out = Some e -> snd out = mkPairwiseFrame [] []) /\
  (stock_data = [] -> fst out = Some ValueError_not_enough_data).
Proof.
  unfold TimeWindowAnalyzer.calculate_rolling_correlation.
  destruct (TimeWindowAnalyzer.rolling_correlation_body stock_data window)
    as [rolling_corr|e] eqn:Hbody; cbn [fst snd].
  - unfold TimeWindowAnalyzer.rolling_correlation_body in Hbody.
    destruct (TimeWindowAnalyzer.returns_data_loop stock_data Pandas.empty_frame)
      as [returns_data|e] eqn:Hloop; [|discriminate].
    cbn [mbind result_bind] in Hbody.
    destruct (Pandas.empty (Pandas.dropna_rows returns_data)) eqn:Hempty; [discriminate|].
    injection Hbody as <-. apply empty_false in Hempty as [Hrows Hcols].
    assert (Hnum : Pandas.numeric_columns (Pandas.dropna_rows returns_data) <> []).
    { apply numeric_columns_nonempty; [|exact Hcols].
      apply dropna_rows_numeric.
      apply (returns_data_loop_numeric stock_data Pandas.empty_frame returns_data Hloop).
      constructor. }
    assert (Hsome : stock_data <> []).
    { intros ->. cbn in Hloop. injection Hloop as <-. now apply Hrows. }
    unfold Pandas.rolling_corr_pairwise. cbn [p_index p_columns].
    destruct (Pandas.numeric_columns (Pandas.dropna_rows returns_data)) as [|nc cols];
      [contradiction|].
    destruct (index (Pandas.dropna_rows returns_data)) as [|d idx]; [contradiction|].
    repeat split; try discriminate; try reflexivity.
    intros Hnone. contradiction.
  - repeat split; try discriminate; try contradiction.
    intros ->. cbn in Hbody. now injection Hbody as <-.
Qed.

Lemma calculate_rolling_correlation_warning_witness :
  TimeWindowAnalyzer.calculate_rolling_correlation
      (H := epoch_ns) (H0 := exact_sqrt) (H1 := insertion_argsort) [] 2 =
  (Some ValueError_not_enough_data, mkPairwiseFrame [] [])
  /\ fst (TimeWindowAnalyzer.calculate_rolling_correlation
      (H := epoch_ns) (H0 := exact_sqrt) (H1 := insertion_argsort)
            [("A", price_table [1%Z] [Fin 10])] 2) = None
  /\ p_index (snd (TimeWindowAnalyzer.calculate_rolling_correlation
      (H := epoch_ns) (H0 := exact_sqrt) (H1 := insertion_argsort)
                     [("A", price_table [1%Z] [Fin 10])] 2)) <> [].
Proof.
  pose proof (calculate_rolling_correlation_warning
      (H := epoch_ns) (H0 := exact_sqrt) (H1 := insertion_argsort)
                [("A", price_table [1%Z] [Fin 10])] 2) as (Hrows & _).
  split; [vm_compute; reflexivity|].
  split; [vm_compute; reflexivity|].
  apply Hrows. vm_compute. reflexivity.
Defined.

(** ** correlation_analyzer.py: an instrument whose returns do not vary *)

Section ConstantColumn.
Import Pandas CorrelationAnalyzer.
Context `{Sqrt} `{!SqrtLaws}.

Lemma complete_pairs_fst (x y : list float) (q : Q) :
  In q (List.map fst (complete_pairs x y)) -> In q (omap Float.finite x).
Proof.
  unfold complete_pairs. revert y. induction x as [|a x IH]; intros y Hin; [destruct Hin|].
  destruct y as [|b y]; [destruct Hin|]. cbn [combine] in Hin.
  change (omap ?f ((a, b) :: ?l)) with
    (match f (a, b) with Some z => z :: omap f l | None => omap f l end) in Hin.
  change (omap Float.finite (a :: x)) with
    (match Float.finite a with
     | Some z => z :: omap Float.finite x
     | None => omap Float.finite x
     end).
  cbn [fst snd] in Hin.
  destruct a as [| |qa]; cbn [Float.finite mbind option_bind] in Hin |- *;
    try (now apply (IH y)).
  destruct b as [| |qb]; cbn [Float.finite mbind option_bind] in Hin;
    try (right; now apply (IH y)).
  destruct Hin as [<-|Hin]; [now left|right; now apply (IH y)].
Qed.

Lemma complete_pairs_snd (x y : list float) (q : Q) :
  In q (List.map snd (complete_pairs x y)) -> In q (omap Float.finite y).
Proof.
  unfold complete_pairs. revert y. induction x as [|a x IH]; intros y Hin; [destruct Hin|].
  destruct y as [|b y]; [destruct Hin|]. cbn [combine] in Hin.
  change (omap ?f ((a, b) :: ?l)) with
    (match f (a, b) with Some z => z :: omap f l | None => omap f l end) in Hin.
  change (omap Float.finite (b :: y)) with
    (match Float.finite b with
     | Some z => z :: omap Float.finite y
     | None => omap Float.finite y
     end).
  cbn [fst snd] in Hin.
  destruct a as [| |qa]; cbn [Float.finite mbind option_bind] in Hin |- *.
  - destruct (Float.finite b); [right|]; now apply (IH y).
  - destruct (Float.finite b); [right|]; now apply (IH y).
  - destruct b as [| |qb]; cbn [Float.finite mbind option_bind] in Hin |- *;
      try (now apply (IH y)).
    destruct Hin as [<-|Hin]; [now left|right; now apply (IH y)].
Qed.

Lemma sqrt_zero_product (a b : Q) : (a == 0 \/ b == 0)%Q -> (sqrt (a * b) == 0)%Q.
Proof.
  intros Hab. rewrite (sqrt_proper (a * b) (0 * 0)).
  - apply sqrt_square. apply Qle_refl.
  - destruct Hab as [-> | ->]; ring.
Qed.

(** A column without spread has no coefficient with any column. *)
Lemma nancorr_pair_constant (x y : list float) :
  (forall u v, In u (omap Float.finite x) -> In v (omap Float.finite x) -> (u == v)%Q) \/
  (forall u v, In u (omap Float.finite y) -> In v (omap Float.finite y) -> (u == v)%Q) ->
  nancorr_pair x y = NaN.
Proof.
  intros Hconst. unfold nancorr_pair.
  destruct (Nat.ltb (length (complete_pairs x y)) 1); [reflexivity|].
  assert (Hzero : Float.Qis0
            (sqrt (ssqdm (List.map fst (complete_pairs x y)) *
                   ssqdm (List.map snd (complete_pairs x y)))) = true).
  { apply Qis0_spec, sqrt_zero_product.
    destruct Hconst as [Hx|Hy]; [left|right]; apply ssqdm_constant; intros u v Hu Hv.
    - apply Hx; now apply (complete_pairs_fst x y).
    - apply Hy; now apply (complete_pairs_snd x y). }
  now rewrite Hzero.
Qed.

Lemma corr_constant (df : DataFrame) (i : nat) (name : string) (column : list float) :
  numeric_columns df !! i = Some (name, column) ->
  (forall u v, In u (omap Float.finite column) -> In v (omap Float.finite column) ->
               (u == v)%Q) ->
  forall j, iloc (corr df) i j = NaN.
Proof.
  intros Hi Hconst j. unfold corr. cbn [iloc].
  set (mat := List.map snd (numeric_columns df)).
  assert (Hlen : i < length mat).
  { unfold mat. rewrite length_map. now apply lookup_lt_Some in Hi. }
  assert (Hcol : nth i mat [] = column).
  { apply nth_lookup_Some with (d := []). unfold mat. now rewrite list_lookup_fmap, Hi. }
  destruct (Nat.lt_ge_cases j (length mat)) as [Hj|Hj].
  - rewrite (nancorr_lookup mat i j Hlen Hj). cbn [default from_option id].
    apply nancorr_pair_constant.
    destruct (Nat.max_spec i j) as [[Hlt Hmax]|[Hle Hmax]].
    + right. rewrite Nat.min_l by lia. now rewrite Hcol.
    + left. rewrite Hmax. now rewrite Hcol.
  - destruct (nancorr mat !! (i, j)) as [v|] eqn:Hcell; [|reflexivity].
    exfalso. revert Hcell. unfold nancorr.
    assert (Hout : forall xs acc,
               (forall r, In r xs -> r < length mat) ->
               acc !! (i, j) = None ->
               foldl (nancorr_row mat) acc xs !! (i, j) = None).
    { induction xs as [|r xs IH]; intros acc Hxs Hnone; [exact Hnone|].
      cbn [foldl]. apply IH; [intros r' Hr'; apply Hxs; now right|].
      unfold nancorr_row. rewrite nancorr_writes_untouched; [exact Hnone| |].
      - right. intros Hin. apply in_seq in Hin.
        specialize (Hxs r (or_introl eq_refl)). lia.
      - left. specialize (Hxs r (or_introl eq_refl)). lia. }
    rewrite Hout; [discriminate| |apply lookup_empty].
    intros r Hr. apply in_seq in Hr. lia.
Qed.

End ConstantColumn.

(** X13.  An instrument whose returns do not vary has no
    coefficient with any instrument: every cell in its row and in its column
    of the table is NaN, and it is in none of the strong pairs that are
    printed. *)
Theorem constant_returns_never_strong `{Sqrt} `{!SqrtLaws}
    (stock_data : list (string * DataFrame)) (m : CorrelationMatrix) :
  CorrelationAnalyzer.calculate_returns_correlation stock_data = Ok m ->
  exists returns_data,
    CorrelationAnalyzer.returns_data_loop stock_data Pandas.empty_frame = Ok returns_data /\
    names m = List.map fst (Pandas.numeric_columns returns_data) /\
    forall i name column,
      Pandas.numeric_columns returns_data !! i = Some (name, column) ->
      (forall u v, In u (omap Float.finite column) -> In v (omap Float.finite column) ->
                   (u == v)%Q) ->
      (forall j, iloc m i j = NaN /\ iloc m j i = NaN) /\
      (List.NoDup (names m) ->
       forall s t c,
         In (s, t, c) (CorrelationAnalyzer._print_correlation_analysis m) ->
         s <> name /\ t <> name).
Proof.
  unfold CorrelationAnalyzer.calculate_returns_correlation. intros Hrun.
  destruct (CorrelationAnalyzer.returns_data_loop stock_data Pandas.empty_frame)
    as [returns_data|e]; [|discriminate].
  cbn [mbind result_bind] in Hrun. injection Hrun as <-.
  exists returns_data. split; [reflexivity|]. split; [reflexivity|].
  intros i name column Hi Hconst.
  assert (Hrow : forall j, iloc (Pandas.corr returns_data) i j = NaN)
    by exact (corr_constant returns_data i name column Hi Hconst).
  assert (Hcells : forall j, iloc (Pandas.corr returns_data) i j = NaN /\
                             iloc (Pandas.corr returns_data) j i = NaN).
  { intros j. split; [apply Hrow|]. rewrite corr_symmetric. apply Hrow. }
  split; [exact Hcells|].
  intros Hnd s t c Hin.
  set (m := Pandas.corr returns_data) in *.
  unfold CorrelationAnalyzer._print_correlation_analysis in Hin.
  apply (Permutation_in _ (stable_sort_Permutation _ _)) in Hin.
  rewrite high_corr_pairs_upper in Hin.
  apply in_map_iff in Hin as [[a b] [Hentry Hin]].
  apply filter_In in Hin as [Hupper Hstrong].
  apply upper_pairs_In in Hupper.
  unfold CorrelationAnalyzer.entry in Hentry. cbn [fst snd] in Hentry.
  injection Hentry as <- <- <-.
  unfold CorrelationAnalyzer.strong in Hstrong. cbn [fst snd] in Hstrong.
  assert (Hname : CorrelationAnalyzer.name_at m i = name).
  { unfold CorrelationAnalyzer.name_at. apply nth_lookup_Some with (d := "").
    unfold m. cbn [names Pandas.corr]. now rewrite list_lookup_fmap, Hi. }
  assert (Hi' : i < length (names m)).
  { unfold m. cbn [names Pandas.corr]. rewrite length_map. now apply lookup_lt_Some in Hi. }
  assert (Hdiff : forall k, k < length (names m) -> k <> i ->
                            CorrelationAnalyzer.name_at m k <> name).
  { intros k Hk Hne Heq. apply Hne. rewrite <- Hname in Heq.
    unfold CorrelationAnalyzer.name_at in Heq.
    exact (proj1 (List.NoDup_nth (names m) "") Hnd k i Hk Hi' Heq). }
  assert (Hai : a <> i).
  { intros ->. destruct (Hcells b) as [Hab _]. rewrite Hab in Hstrong. discriminate. }
  assert (Hbi : b <> i).
  { intros ->. destruct (Hcells a) as [_ Hab]. rewrite Hab in Hstrong. discriminate. }
  split; apply Hdiff; lia || assumption.
Qed.

Lemma constant_returns_never_strong_witness :
  (fun m => (iloc m 0 1, iloc m 1 0)) <$>
    CorrelationAnalyzer.calculate_returns_correlation (H := exact_sqrt)
      [("A", close_table [Fin 10; Fin 10; Fin 10]);
       ("B", close_table [Fin 10; Fin 11; Fin 13])] = Ok (NaN, NaN).
Proof.
  destruct (CorrelationAnalyzer.calculate_returns_correlation (H := exact_sqrt)
              [("A", close_table [Fin 10; Fin 10; Fin 10]);
               ("B", close_table [Fin 10; Fin 11; Fin 13])]) as [m|e] eqn:Hrun;
    [|vm_compute in Hrun; discriminate].
  destruct (constant_returns_never_strong (H := exact_sqrt) _ m Hrun)
    as (returns_data & Hloop & _ & Hall).
  vm_compute in Hloop. injection Hloop as <-.
  destruct (Hall 0 "A" [Fin 0; Fin 0]) as [Hcells _].
  - reflexivity.
  - intros u v [<-|[<-|[]]] [<-|[<-|[]]]; reflexivity.
  - destruct (Hcells 1) as [H01 H10]. cbn [fmap result_fmap]. now rewrite H01, H10.
Defined.

(** ** The script and the class report the same pairs *)

Section SortedOn.
Import Pandas.
Context {A : Type} (le : A -> A -> bool) (P : A -> Prop).
Hypothesis le_total : forall a b, P a -> P b -> le a b = false -> le b a = true.
Hypothesis le_trans :
  forall a b c, P a -> P b -> P c -> le a b = true -> le b c = true -> le a c = true.

Lemma insert_by_Forall (x : A) (l : list A) :
  P x -> List.Forall P l -> List.Forall P (insert_by le x l).
Proof.
  intros Hx Hl. apply List.Forall_forall. intros y Hy.
  apply (Permutation_in _ (insert_by_Permutation le x l)) in Hy.
  destruct Hy as [<-|Hy]; [exact Hx|].
  exact (proj1 (List.Forall_forall P l) Hl y Hy).
Qed.

Lemma stable_sort_Forall (l : list A) :
  List.Forall P l -> List.Forall P (stable_sort le l).
Proof.
  intros Hl. apply List.Forall_forall. intros y Hy.
  apply (Permutation_in _ (stable_sort_Permutation le l)) in Hy.
  exact (proj1 (List.Forall_forall P l) Hl y Hy).
Qed.

Lemma insert_by_sorted_on (x : A) (l : list A) :
  P x -> List.Forall P l ->
  StronglySorted (le_rel le) l -> StronglySorted (le_rel le) (insert_by le x l).
Proof.
  intros Hx Hl Hs. induction Hs as [|y l Hs IH Hy]; simpl.
  - repeat constructor.
  - apply List.Forall_cons_iff in Hl as [Py Hl].
    destruct (le x y) eqn:Hxy.
    + constructor; [now constructor|].
      constructor; [exact Hxy|].
      apply List.Forall_forall. intros z Hz.
      pose proof (proj1 (List.Forall_forall _ l) Hy z Hz) as Hyz.
      pose proof (proj1 (List.Forall_forall _ l) Hl z Hz) as Pz.
      exact (le_trans x y z Hx Py Pz Hxy Hyz).
    + constructor; [now apply IH|].
      apply List.Forall_forall. intros z Hz.
      apply (Permutation_in _ (insert_by_Permutation le x l)) in Hz.
      destruct Hz as [<-|Hz].
      * now apply le_total.
      * exact (proj1 (List.Forall_forall _ l) Hy z Hz).
Qed.

Lemma stable_sort_sorted_on (l : list A) :
  List.Forall P l -> StronglySorted (le_rel le) (stable_sort le l).
Proof.
  induction l as [|x l IH]; intros Hl; [constructor|].
  apply List.Forall_cons_iff in Hl as [Px Hl]. cbn [stable_sort foldr].
  apply insert_by_sorted_on; [exact Px|now apply stable_sort_Forall|now apply IH].
Qed.

End SortedOn.

(** Python compares tuples component by component.  Where each component
    has an equality and an order that agree, the comparison of the tuples is
    asymmetric, and "not less" is transitive. *)
Section Lexicographic.
Context {A B : Type} (DA : A -> Prop) (DB : B -> Prop).
Context (e l : A -> A -> bool) (ltB : B -> B -> bool).
Hypothesis e_sym : forall a b, DA a -> DA b -> e a b = true -> e b a = true.
Hypothesis e_trans :
  forall a b c, DA a -> DA b -> DA c -> e a b = true -> e b c = true -> e a c = true.
Hypothesis l_left : forall a b c, DA a -> DA b -> DA c -> e a b = true -> l a c = l b c.
Hypothesis l_right : forall a b c, DA a -> DA b -> DA c -> e b c = true -> l a b = l a c.
Hypothesis l_total : forall a b, DA a -> DA b -> l a b = false -> e a b = false -> l b a = true.
Hypothesis l_trans :
  forall a b c, DA a -> DA b -> DA c -> l a b = true -> l b c = true -> l a c = true.
Hypothesis l_irrefl : forall a b, DA a -> DA b -> l a b = true -> e a b = false.
Hypothesis l_asym : forall a b, DA a -> DA b -> l a b = true -> l b a = false.
Hypothesis ltB_asym : forall r r', DB r -> DB r' -> ltB r r' = true -> ltB r' r = false.
Hypothesis ltB_negtrans :
  forall r r' r'', DB r -> DB r' -> DB r'' ->
    ltB r r' = false -> ltB r' r'' = false -> ltB r r'' = false.

Lemma e_false_sym (a b : A) : DA a -> DA b -> e a b = false -> e b a = false.
Proof.
  intros Ha Hb Hab. destruct (e b a) eqn:Hba; [|reflexivity].
  apply e_sym in Hba; [congruence|assumption|assumption].
Qed.

Lemma lexicographic_asym (x y : A * B) :
  DA (fst x) -> DB (snd x) -> DA (fst y) -> DB (snd y) ->
  lex_ltb e l ltB x y = true ->
  lex_ltb e l ltB y x = false.
Proof.
  destruct x as [a r], y as [a' r']. unfold lex_ltb. cbn [fst snd]. intros Ha Hr Ha' Hr' Hlt.
  destruct (e a a') eqn:He; cbn [negb] in Hlt.
  - rewrite (e_sym a a' Ha Ha' He). cbn [negb]. now apply ltB_asym.
  - rewrite (e_false_sym a a' Ha Ha' He). cbn [negb]. now apply l_asym.
Qed.

Lemma lexicographic_negtrans (x y z : A * B) :
  DA (fst x) -> DB (snd x) -> DA (fst y) -> DB (snd y) -> DA (fst z) -> DB (snd z) ->
  lex_ltb e l ltB x y = false ->
  lex_ltb e l ltB y z = false ->
  lex_ltb e l ltB x z = false.
Proof.
  destruct x as [a r], y as [a' r'], z as [a'' r'']. unfold lex_ltb. cbn [fst snd].
  intros Ha Hr Ha' Hr' Ha'' Hr'' Hxy Hyz.
  destruct (e a a') eqn:He1; destruct (e a' a'') eqn:He2; cbn [negb] in Hxy, Hyz.
  - rewrite (e_trans a a' a'' Ha Ha' Ha'' He1 He2). cbn [negb].
    now apply (ltB_negtrans r r' r'').
  - assert (He : e a a'' = false).
    { destruct (e a a'') eqn:He; [|reflexivity].
      apply (e_sym a a' Ha Ha') in He1.
      pose proof (e_trans a' a a'' Ha' Ha Ha'' He1 He). congruence. }
    rewrite He. cbn [negb]. now rewrite (l_left a a' a'' Ha Ha' Ha'' He1).
  - assert (He : e a a'' = false).
    { destruct (e a a'') eqn:He; [|reflexivity].
      apply (e_sym a' a'' Ha' Ha'') in He2.
      pose proof (e_trans a a'' a' Ha Ha'' Ha' He He2). congruence. }
    rewrite He. cbn [negb]. now rewrite <- (l_right a a' a'' Ha Ha' Ha'' He2).
  - pose proof (l_total a a' Ha Ha' Hxy He1) as Hgt1.
    pose proof (l_total a' a'' Ha' Ha'' Hyz He2) as Hgt2.
    pose proof (l_trans a'' a' a Ha'' Ha' Ha Hgt2 Hgt1) as Hgt.
    rewrite (e_false_sym a'' a Ha'' Ha (l_irrefl a'' a Ha'' Ha Hgt)). cbn [negb].
    now apply l_asym.
Qed.

End Lexicographic.

Section ComponentOrders.

Lemma Qle_bool_true (x y : Q) : Qle_bool x y = true -> (x <= y)%Q.
Proof. apply Qle_bool_iff. Qed.

Ltac float_simpl :=
  cbn [Float.isnan Float.eqb Float.ltb Bool.eqb andb negb] in *;
  try discriminate; try reflexivity.

Ltac to_Q :=
  repeat match goal with
         | H : Qeq_bool _ _ = true |- _ => apply Qeq_bool_iff in H
         | H : Qeq_bool _ _ = false |- _ => apply Qeq_bool_neq in H
         | H : negb (Qle_bool _ _) = true |- _ => apply negb_true_iff in H
         | H : negb (Qle_bool _ _) = false |- _ => apply negb_false_iff in H
         | H : Qle_bool _ _ = true |- _ => apply Qle_bool_true in H
         | H : Qle_bool _ _ = false |- _ => apply Qle_bool_false in H
         end.

Lemma Qlt_bool_spec (x y : Q) : negb (Qle_bool y x) = true <-> (x < y)%Q.
Proof.
  rewrite negb_true_iff. split.
  - intros Hle. apply Qnot_le_lt. intros Hyx. apply Qle_bool_iff in Hyx. congruence.
  - intros Hlt. destruct (Qle_bool y x) eqn:Hle; [|reflexivity].
    apply Qle_bool_iff in Hle. exfalso. exact (Qlt_not_le _ _ Hlt Hle).
Qed.

Lemma float_eqb_sym (a b : float) : Float.eqb a b = true -> Float.eqb b a = true.
Proof.
  destruct a as [|[]|x], b as [|[]|y]; float_simpl.
  intros Hab. to_Q. apply Qeq_bool_iff. now symmetry.
Qed.

Lemma float_eqb_trans (a b c : float) :
  Float.eqb a b = true -> Float.eqb b c = true -> Float.eqb a c = true.
Proof.
  destruct a as [|[]|x], b as [|[]|y], c as [|[]|z]; float_simpl.
  intros Hab Hbc. to_Q. apply Qeq_bool_iff. now rewrite Hab.
Qed.

Lemma float_ltb_left (a b c : float) : Float.eqb a b = true -> Float.ltb a c = Float.ltb b c.
Proof.
  destruct a as [|[]|x], b as [|[]|y], c as [|[]|z]; float_simpl.
  intros Hab. to_Q. f_equal.
  apply eq_true_iff_eq. rewrite !Qle_bool_iff. now rewrite Hab.
Qed.

Lemma float_ltb_right (a b c : float) : Float.eqb b c = true -> Float.ltb a b = Float.ltb a c.
Proof.
  destruct a as [|[]|x], b as [|[]|y], c as [|[]|z]; float_simpl.
  intros Hbc. to_Q. f_equal.
  apply eq_true_iff_eq. rewrite !Qle_bool_iff. now rewrite Hbc.
Qed.

Lemma float_ltb_total (a b : float) :
  Float.isnan a = false -> Float.isnan b = false ->
  Float.ltb a b = false -> Float.eqb a b = false -> Float.ltb b a = true.
Proof.
  destruct a as [|[]|x], b as [|[]|y]; float_simpl.
  intros _ _ Hlt He. to_Q. apply Qlt_bool_spec.
  apply Qle_lt_or_eq in Hlt as [Hlt|Heq]; [exact Hlt|].
  exfalso. apply He. now symmetry.
Qed.

Lemma float_ltb_trans (a b c : float) :
  Float.ltb a b = true -> Float.ltb b c = true -> Float.ltb a c = true.
Proof.
  destruct a as [|[]|x], b as [|[]|y], c as [|[]|z]; float_simpl.
  intros Hab Hbc. apply Qlt_bool_spec in Hab, Hbc. apply Qlt_bool_spec.
  now apply (Qlt_trans x y z).
Qed.

Lemma float_ltb_irrefl (a b : float) : Float.ltb a b = true -> Float.eqb a b = false.
Proof.
  destruct a as [|[]|x], b as [|[]|y]; float_simpl.
  intros Hab. apply Qlt_bool_spec in Hab.
  destruct (Qeq_bool x y) eqn:He; [|reflexivity]. to_Q.
  rewrite He in Hab. exfalso. exact (Qlt_irrefl _ Hab).
Qed.

Lemma string_ltb_asym (s t : string) : String.ltb s t = true -> String.ltb t s = false.
Proof.
  unfold String.ltb. rewrite (String.compare_antisym t s).
  now destruct (String.compare s t).
Qed.

Lemma string_compare_refl (s : string) : String.compare s s = Eq.
Proof.
  pose proof (String.compare_antisym s s) as H.
  destruct (String.compare s s); [reflexivity|discriminate|discriminate].
Qed.

Lemma string_ltb_irrefl (s t : string) : String.ltb s t = true -> String.eqb s t = false.
Proof.
  intros Hlt. destruct (String.eqb_spec s t) as [->|]; [|reflexivity].
  unfold String.ltb in Hlt. now rewrite string_compare_refl in Hlt.
Qed.

Lemma string_ltb_total (s t : string) :
  String.ltb s t = false -> String.eqb s t = false -> String.ltb t s = true.
Proof.
  unfold String.ltb. intros Hlt He. rewrite (String.compare_antisym t s).
  destruct (String.compare s t) eqn:Hc; [|discriminate|reflexivity].
  apply String.compare_eq_iff in Hc. subst t. now rewrite String.eqb_refl in He.
Qed.

Lemma string_ltb_trans (s t u : string) :
  String.ltb s t = true -> String.ltb t u = true -> String.ltb s u = true.
Proof.
  unfold String.ltb. intros Hst Htu.
  assert (H1 : OrdersEx.String_as_OT.lt s t).
  { unfold OrdersEx.String_as_OT.lt.
    change (OrdersEx.String_as_OT.compare s t) with (String.compare s t).
    now destruct (String.compare s t). }
  assert (H2 : OrdersEx.String_as_OT.lt t u).
  { unfold OrdersEx.String_as_OT.lt.
    change (OrdersEx.String_as_OT.compare t u) with (String.compare t u).
    now destruct (String.compare t u). }
  pose proof (StrictOrder_Transitive s t u H1 H2) as H3.
  unfold OrdersEx.String_as_OT.lt in H3.
  change (OrdersEx.String_as_OT.compare s u) with (String.compare s u) in H3.
  now rewrite H3.
Qed.

Lemma string_ltb_negtrans (s t u : string) :
  String.ltb s t = false -> String.ltb t u = false -> String.ltb s u = false.
Proof.
  intros Hst Htu. destruct (String.ltb s u) eqn:Hsu; [|reflexivity].
  destruct (String.eqb_spec s t) as [->|Hne]; [congruence|].
  assert (Hts : String.ltb t s = true).
  { apply string_ltb_total; [exact Hst|]. now apply String.eqb_neq. }
  pose proof (string_ltb_trans t s u Hts Hsu). congruence.
Qed.

End ComponentOrders.

Section ScriptAndClass.
Import Pandas.

Lemma script_high_corr_pairs (m : CorrelationMatrix) :
  CorrelationScript.high_corr_pairs m =
  List.map (fun x => (Float.abs (snd x), snd x, fst (fst x), snd (fst x)))
           (CorrelationAnalyzer.high_corr_pairs m).
Proof.
  rewrite high_corr_pairs_upper. unfold CorrelationScript.high_corr_pairs.
  rewrite (flat_map_pairs
             (fun i j =>
                if Float.gtb (Float.abs (iloc m i j)) CorrelationAnalyzer.threshold
                then [(Float.abs (iloc m i j), iloc m i j,
                       CorrelationAnalyzer.name_at m i, CorrelationAnalyzer.name_at m j)]
                else [])
             (fun i => seq (i + 1) (length (names m) - (i + 1)))).
  rewrite (flat_map_if (CorrelationAnalyzer.strong m)
             (fun p => (Float.abs (iloc m (fst p) (snd p)), iloc m (fst p) (snd p),
                        CorrelationAnalyzer.name_at m (fst p),
                        CorrelationAnalyzer.name_at m (snd p)))).
  rewrite List.map_map. reflexivity.
Qed.

(** The tuples that the script sorts: a coefficient that is a number, with
    its absolute value in front. *)
Lemma script_tuples_keyed (m : CorrelationMatrix) :
  List.Forall (fun x : float * float * string * string =>
                 Float.isnan (snd (fst (fst x))) = false /\
                 fst (fst (fst x)) = Float.abs (snd (fst (fst x))))
              (CorrelationScript.high_corr_pairs m).
Proof.
  rewrite script_high_corr_pairs. apply List.Forall_map.
  apply (List.Forall_impl _ (P := fun x => Float.isnan (snd x) = false));
    [|apply high_corr_pairs_not_nan].
  intros [[s t] c] Hc. cbn [fst snd] in *. now split.
Qed.

Lemma tuple_ltb_lex (a c a' c' : float) (s t s' t' : string) :
  CorrelationScript.tuple_ltb (a, c, s, t) (a', c', s', t') =
  lex_ltb Float.eqb Float.ltb
    (lex_ltb Float.eqb Float.ltb (lex_ltb String.eqb String.ltb String.ltb))
    (a, (c, (s, t))) (a', (c', (s', t'))).
Proof. reflexivity. Qed.

Lemma string_pair_asym (p q : string * string) :
  lex_ltb String.eqb String.ltb String.ltb p q = true ->
  lex_ltb String.eqb String.ltb String.ltb q p = false.
Proof.
  apply (lexicographic_asym (fun _ => True) (fun _ => True)); try exact I; intros.
  - now rewrite String.eqb_sym.
  - now apply string_ltb_asym.
  - now apply string_ltb_asym.
Qed.

Lemma string_pair_negtrans (p q r : string * string) :
  lex_ltb String.eqb String.ltb String.ltb p q = false ->
  lex_ltb String.eqb String.ltb String.ltb q r = false ->
  lex_ltb String.eqb String.ltb String.ltb p r = false.
Proof.
  apply (lexicographic_negtrans (fun _ => True) (fun _ => True)); try exact I; intros;
    repeat match goal with
           | H : String.eqb _ _ = true |- _ => apply String.eqb_eq in H; subst
           end;
    try reflexivity.
  - apply String.eqb_refl.
  - apply String.eqb_refl.
  - now apply string_ltb_total.
  - now apply (string_ltb_trans a b c).
  - now apply string_ltb_irrefl.
  - now apply string_ltb_asym.
  - now apply (string_ltb_negtrans r0 r' r'').
Qed.

Lemma float_tail_asym (p q : float * (string * string)) :
  lex_ltb Float.eqb Float.ltb (lex_ltb String.eqb String.ltb String.ltb) p q = true ->
  lex_ltb Float.eqb Float.ltb (lex_ltb String.eqb String.ltb String.ltb) q p = false.
Proof.
  apply (lexicographic_asym (fun _ => True) (fun _ => True)); try exact I; intros.
  - now apply float_eqb_sym.
  - now apply ltb_asym.
  - now apply string_pair_asym.
Qed.

Lemma float_tail_negtrans (p q r : float * (string * string)) :
  Float.isnan (fst p) = false -> Float.isnan (fst q) = false -> Float.isnan (fst r) = false ->
  lex_ltb Float.eqb Float.ltb (lex_ltb String.eqb String.ltb String.ltb) p q = false ->
  lex_ltb Float.eqb Float.ltb (lex_ltb String.eqb String.ltb String.ltb) q r = false ->
  lex_ltb Float.eqb Float.ltb (lex_ltb String.eqb String.ltb String.ltb) p r = false.
Proof.
  intros Hp Hq Hr.
  apply (lexicographic_negtrans (fun a => Float.isnan a = false) (fun _ => True));
    try exact I; try assumption; intros.
  - now apply float_eqb_sym.
  - now apply (float_eqb_trans a b c).
  - now apply float_ltb_left.
  - now apply float_ltb_right.
  - now apply float_ltb_total.
  - now apply (float_ltb_trans a b c).
  - now apply float_ltb_irrefl.
  - now apply ltb_asym.
  - now apply (string_pair_negtrans r0 r' r'').
Qed.

Lemma tuple_ltb_asym (x y : float * float * string * string) :
  CorrelationScript.tuple_ltb x y = true -> CorrelationScript.tuple_ltb y x = false.
Proof.
  destruct x as [[[a c] s] t], y as [[[a' c'] s'] t']. rewrite !tuple_ltb_lex.
  apply (lexicographic_asym (fun _ => True) (fun _ => True)); try exact I; intros.
  - now apply float_eqb_sym.
  - now apply ltb_asym.
  - now apply float_tail_asym.
Qed.

Lemma tuple_ltb_negtrans (x y z : float * float * string * string) :
  Float.isnan (fst (fst (fst x))) = false /\ Float.isnan (snd (fst (fst x))) = false ->
  Float.isnan (fst (fst (fst y))) = false /\ Float.isnan (snd (fst (fst y))) = false ->
  Float.isnan (fst (fst (fst z))) = false /\ Float.isnan (snd (fst (fst z))) = false ->
  CorrelationScript.tuple_ltb x y = false -> CorrelationScript.tuple_ltb y z = false ->
  CorrelationScript.tuple_ltb x z = false.
Proof.
  destruct x as [[[a c] s] t], y as [[[a' c'] s'] t'], z as [[[a'' c''] s''] t''].
  cbn [fst snd]. intros [Ha Hc] [Ha' Hc'] [Ha'' Hc'']. rewrite !tuple_ltb_lex.
  apply (lexicographic_negtrans (fun a => Float.isnan a = false)
           (fun r : float * (string * string) => Float.isnan (fst r) = false));
    try assumption; intros.
  - now apply float_eqb_sym.
  - now apply (float_eqb_trans a0 b c0).
  - now apply float_ltb_left.
  - now apply float_ltb_right.
  - now apply float_ltb_total.
  - now apply (float_ltb_trans a0 b c0).
  - now apply float_ltb_irrefl.
  - now apply ltb_asym.
  - now apply (float_tail_negtrans r r' r'').
Qed.

Lemma StronglySorted_map_on {A B : Type} (R : A -> A -> Prop) (R' : B -> B -> Prop)
    (P : A -> Prop) (f : A -> B) (l : list A) :
  (forall x y, P x -> P y -> R x y -> R' (f x) (f y)) ->
  List.Forall P l -> StronglySorted R l -> StronglySorted R' (List.map f l).
Proof.
  intros Hf Hl Hs. induction Hs as [|x l Hs IH Hx]; [constructor|].
  apply List.Forall_cons_iff in Hl as [Px Hl]. cbn [List.map].
  constructor; [now apply IH|].
  apply List.Forall_map, List.Forall_forall. intros y Hy.
  apply Hf; [exact Px| |].
  - exact (proj1 (List.Forall_forall _ l) Hl y Hy).
  - exact (proj1 (List.Forall_forall _ l) Hx y Hy).
Qed.

End ScriptAndClass.

(** X14.  The script [correlation_analysis.py] and the class
    [CorrelationAnalyzer] agree on everything but the order of ties: from the
    same data they compute the same table and report the same strong pairs,
    each in descending order of the absolute coefficient. *)
Theorem analyze_correlation_same_pairs `{Sqrt}
    (stock_data : list (string * DataFrame)) (m : CorrelationMatrix)
    (pairs : list (string * string * float)) :
  CorrelationScript.analyze_correlation stock_data = Ok (m, pairs) ->
  CorrelationAnalyzer.calculate_returns_correlation stock_data = Ok m /\
  Permutation pairs (CorrelationAnalyzer._print_correlation_analysis m) /\
  StronglySorted (fun x y => Float.ltb (Float.abs (snd x)) (Float.abs (snd y)) = false) pairs /\
  StronglySorted (fun x y => Float.ltb (Float.abs (snd x)) (Float.abs (snd y)) = false)
                 (CorrelationAnalyzer._print_correlation_analysis m).
Proof.
  unfold CorrelationScript.analyze_correlation,
    CorrelationAnalyzer.calculate_returns_correlation.
  destruct (CorrelationAnalyzer.returns_data_loop stock_data Pandas.empty_frame)
    as [returns_data|e]; [|discriminate].
  cbn [mbind result_bind]. intros [= <- <-].
  set (m := Pandas.corr returns_data).
  split; [reflexivity|].
  pose proof (script_tuples_keyed m) as Hkeyed.
  assert (Hok : List.Forall
                  (fun x : float * float * string * string =>
                     (Float.isnan (fst (fst (fst x))) = false /\
                      Float.isnan (snd (fst (fst x))) = false) /\
                     fst (fst (fst x)) = Float.abs (snd (fst (fst x))))
                  (CorrelationScript.high_corr_pairs m)).
  { apply (List.Forall_impl _ (P := fun x : float * float * string * string =>
                                      Float.isnan (snd (fst (fst x))) = false /\
                                      fst (fst (fst x)) = Float.abs (snd (fst (fst x)))));
      [|exact Hkeyed].
    intros x [Hc Ha]. split; [|exact Ha]. split; [|exact Hc].
    rewrite Ha. now rewrite abs_not_nan. }
  split; [|split].
  - unfold CorrelationAnalyzer._print_correlation_analysis.
    rewrite (stable_sort_Permutation CorrelationAnalyzer.by_abs_desc).
    rewrite (stable_sort_Permutation CorrelationScript.by_tuple_desc).
    rewrite script_high_corr_pairs, List.map_map.
    erewrite List.map_ext; [rewrite List.map_id; reflexivity|].
    now intros [[s t] c].
  - apply (StronglySorted_map_on (Pandas.le_rel CorrelationScript.by_tuple_desc) _
             (fun x : float * float * string * string =>
                (Float.isnan (fst (fst (fst x))) = false /\
                 Float.isnan (snd (fst (fst x))) = false) /\
                fst (fst (fst x)) = Float.abs (snd (fst (fst x))))).
    + intros [[[a c] s] t] [[[a' c'] s'] t'] [_ Ha] [_ Ha'] Hle.
      cbn [fst snd] in *. subst a a'.
      unfold Pandas.le_rel, CorrelationScript.by_tuple_desc in Hle.
      apply negb_true_iff in Hle. rewrite tuple_ltb_lex in Hle.
      unfold lex_ltb in Hle. cbn [fst snd] in Hle.
      destruct (Float.eqb (Float.abs c) (Float.abs c')) eqn:He; cbn [negb] in Hle.
      * destruct (Float.ltb (Float.abs c) (Float.abs c')) eqn:Hlt; [|reflexivity].
        apply float_ltb_irrefl in Hlt. congruence.
      * exact Hle.
    + now apply stable_sort_Forall.
    + apply (stable_sort_sorted_on CorrelationScript.by_tuple_desc
               (fun x : float * float * string * string =>
                  (Float.isnan (fst (fst (fst x))) = false /\
                   Float.isnan (snd (fst (fst x))) = false) /\
                  fst (fst (fst x)) = Float.abs (snd (fst (fst x))))).
      * intros x y _ _ Hxy. unfold CorrelationScript.by_tuple_desc in *.
        apply negb_false_iff in Hxy. apply negb_true_iff. now apply tuple_ltb_asym.
      * intros x y z [Hx _] [Hy _] [Hz _] Hxy Hyz.
        unfold CorrelationScript.by_tuple_desc in *.
        apply negb_true_iff in Hxy, Hyz. apply negb_true_iff.
        now apply (tuple_ltb_negtrans x y z).
      * exact Hok.
  - assert (Hs : StronglySorted (Pandas.le_rel CorrelationAnalyzer.by_abs_desc)
                   (CorrelationAnalyzer._print_correlation_analysis m)).
    { apply (stable_sort_sorted CorrelationAnalyzer.by_abs_desc
               (fun x => Float.isnan (snd x) = false)).
      - apply by_abs_desc_total.
      - apply by_abs_desc_trans.
      - apply high_corr_pairs_not_nan. }
    induction Hs as [|x l Hs IH Hx]; constructor; [exact IH|].
    eapply List.Forall_impl; [|exact Hx].
    intros y Hy. unfold Pandas.le_rel, CorrelationAnalyzer.by_abs_desc in Hy.
    now apply negb_true_iff in Hy.
Qed.

Lemma analyze_correlation_same_pairs_witness :
  Permutation
    [("B", "C", Fin 1); ("A", "C", Fin 1); ("A", "B", Fin 1)]
    (CorrelationAnalyzer._print_correlation_analysis
       (Pandas.corr (H := exact_sqrt)
          (mkDataFrame [1; 2]%Z
             [("A", NumCol [Fin (1 # 10); Fin (1 # 11)]);
              ("B", NumCol [Fin (1 # 10); Fin (1 # 11)]);
              ("C", NumCol [Fin (1 # 10); Fin (1 # 11)])]))).
Proof.
  apply (analyze_correlation_same_pairs (H := exact_sqrt) three_rising).
  reflexivity.
Defined.


(** ** cluster_analyzer.py: [prepare_data] *)

Section MergedData.
Import Pandas BaseAnalyzer TimeWindowAnalyzer ClusterPreparation.
Context `{DateParser} `{Argsort} `{!ArgsortLaws}.

Lemma assign_all_names (items : list (string * Series)) :
  forall df table,
    assign_all items df = Ok table ->
    List.NoDup (List.map fst (columns df) ++ List.map fst items) ->
    List.map fst (columns table) = List.map fst (columns df) ++ List.map fst items.
Proof.
  induction items as [|[name value] items IH]; intros df table Hrun Hnd.
  - injection Hrun as <-. simpl. now rewrite app_nil_r.
  - cbn [assign_all] in Hrun.
    destruct (setitem df name value) as [df'|e] eqn:Hset; [|discriminate].
    cbn [mbind result_bind] in Hrun. cbn [List.map fst] in Hnd |- *.
    assert (Hnew : ~ In name (List.map fst (columns df))).
    { apply List.NoDup_remove_2 in Hnd. intros Hin. apply Hnd.
      apply in_or_app. now left. }
    pose proof (setitem_names _ _ _ _ Hnew Hset) as Hnames.
    rewrite (IH df' table Hrun); rewrite Hnames.
    + now rewrite <- app_assoc.
    + now rewrite <- app_assoc.
Qed.

Lemma assign_all_numeric (items : list (string * Series)) :
  forall df table,
    assign_all items df = Ok table ->
    List.Forall (fun nc => numeric (snd nc)) (columns df) ->
    List.Forall (fun nc => numeric (snd nc)) (columns table).
Proof.
  induction items as [|[name value] items IH]; intros df table Hrun Hall.
  - now injection Hrun as <-.
  - cbn [assign_all] in Hrun.
    destruct (setitem df name value) as [df'|e] eqn:Hset; [|discriminate].
    cbn [mbind result_bind] in Hrun.
    apply (IH df' table Hrun). exact (setitem_numeric _ _ _ _ Hall Hset).
Qed.

Lemma setitem_not_empty (df df' : DataFrame) (name : string) (value : Series) :
  empty df = false -> setitem df name value = Ok df' -> empty df' = false.
Proof.
  intros Hempty Hset. pose proof (setitem_index_first _ _ _ _ Hset) as Hindex.
  apply empty_false in Hempty as [Hrows _].
  unfold setitem in Hset.
  destruct (_reindex_for_setitem value (_ensure_valid_index df value)); [|discriminate].
  injection Hset as <-. cbn [index] in Hindex. unfold empty. cbn [index columns].
  rewrite Hindex. destruct (index df) as [|d idx]; [contradiction|].
  destruct (columns (_ensure_valid_index df value)) as [|[n c] cols]; cbn [set_column].
  - reflexivity.
  - now destruct (String.eqb name n).
Qed.

(** Once the merged table has rows and a column, the loop is a sequence of
    assignments of closing prices. *)
Lemma merged_data_loop_assign (stock_data : list (string * DataFrame))
    (items : list (string * Series)) :
  Forall2 (fun nr ns =>
             fst ns = fst nr /\
             exists df close,
               _prepare_data (snd nr) = Ok df /\
               getitem df "close" = Ok (NumCol close) /\
               snd ns = mkSeries (index df) close) stock_data items ->
  forall merged_data,
    empty merged_data = false ->
    merged_data_loop stock_data merged_data = assign_all items merged_data.
Proof.
  induction 1 as [|[name raw] [n s] stock_data items (Hn & df & close & Hp & Hc & Hs) _ IH];
    intros merged_data Hempty; [reflexivity|].
  cbn [fst snd] in Hn, Hp, Hs. subst n s.
  cbn [merged_data_loop assign_all]. rewrite Hp. cbn [mbind result_bind].
  rewrite Hempty, Hc. cbn [mbind result_bind setitem_column].
  destruct (setitem merged_data name (mkSeries (index df) close)) as [merged_data'|e] eqn:Hset;
    [|reflexivity].
  cbn [mbind result_bind]. apply IH. exact (setitem_not_empty _ _ _ _ Hempty Hset).
Qed.

(** The instruments without rows leave no trace: each of them finds the
    table empty and starts it again. *)
Lemma merged_data_loop_skip (pre : list (string * DataFrame)) :
  (forall n r, In (n, r) pre -> usable r /\ rectangular r) ->
  (forall n r d, In (n, r) pre -> _prepare_data r = Ok d -> index d = []) ->
  forall merged_data,
    index merged_data = [] ->
    exists merged_data',
      index merged_data' = [] /\
      forall rest,
        merged_data_loop (pre ++ rest) merged_data = merged_data_loop rest merged_data'.
Proof.
  induction pre as [|[name raw] pre IH]; intros Hall Hrows merged_data Hindex.
  - exists merged_data. split; [exact Hindex|reflexivity].
  - destruct (Hall name raw (or_introl eq_refl)) as [(df & close & Hp & Hc & _) Hrect].
    pose proof (Hrows name raw df (or_introl eq_refl) Hp) as Hnone.
    destruct (prepare_data_rectangular raw df Hrect Hp) as [_ Hrect'].
    pose proof (Hrect' "close" (NumCol close) (getitem_In _ _ _ Hc)) as Hlen.
    cbn [column_length] in Hlen. rewrite Hnone in Hlen.
    destruct close as [|x close]; [|discriminate].
    destruct (IH (fun n r Hin => Hall n r (or_intror Hin))
                 (fun n r d Hin => Hrows n r d (or_intror Hin))
                 (mkDataFrame [] [(name, NumCol [])]) eq_refl)
      as (merged_data' & Hindex' & Hrest).
    exists merged_data'. split; [exact Hindex'|]. intros rest.
    rewrite <- Hrest. cbn [app merged_data_loop]. rewrite Hp. cbn [mbind result_bind].
    assert (Hempty : empty merged_data = true).
    { unfold empty. now rewrite Hindex. }
    rewrite Hempty, Hc, Hnone. cbn [mbind result_bind setitem_column].
    change (mkDataFrame [] []) with empty_frame.
    rewrite setitem_empty_frame. reflexivity.
Qed.

(** The first instrument that has rows starts the table that is kept. *)
Lemma merged_data_loop_start (name : string) (raw df : DataFrame) (close : list float)
    (rest : list (string * DataFrame)) (merged_data : DataFrame) :
  index merged_data = [] ->
  _prepare_data raw = Ok df -> getitem df "close" = Ok (NumCol close) ->
  index df <> [] ->
  merged_data_loop ((name, raw) :: rest) merged_data =
  merged_data_loop rest (mkDataFrame (index df) [(name, NumCol close)]).
Proof.
  intros Hindex Hp Hc Hrows. cbn [merged_data_loop]. rewrite Hp. cbn [mbind result_bind].
  assert (Hempty : empty merged_data = true).
  { unfold empty. now rewrite Hindex. }
  rewrite Hempty, Hc. cbn [mbind result_bind setitem_column].
  unfold setitem, _ensure_valid_index, _reindex_for_setitem. cbn [index columns s_index s_values].
  destruct (index df) as [|d idx]; [contradiction|].
  rewrite bool_decide_eq_true_2 by reflexivity. reflexivity.
Qed.

Lemma pct_change_columns_numeric (cols : list (string * Column)) :
  List.Forall (fun nc => numeric (snd nc)) cols ->
  exists returns_matrix,
    pct_change_columns cols = Ok returns_matrix /\
    Forall2 (fun nc nr =>
               fst nr = fst nc /\
               exists v, snd nc = NumCol v /\
                         snd nr = fillna Float.zero (pct_change v)) cols returns_matrix.
Proof.
  induction 1 as [|[n c] cols [v Hv] _ (returns_matrix & Hrun & Hall)].
  - exists []. split; [reflexivity|constructor].
  - cbn [snd] in Hv. subst c. exists ((n, fillna Float.zero (pct_change v)) :: returns_matrix).
    cbn [pct_change_columns pct_change_column mbind result_bind]. rewrite Hrun.
    split; [reflexivity|]. constructor; [|exact Hall]. split; [reflexivity|]. now exists v.
Qed.

Lemma close_items (stock_data : list (string * DataFrame)) :
  (forall name raw, In (name, raw) stock_data -> usable raw /\ rectangular raw) ->
  exists items,
    Forall2 (fun nr ns =>
               fst ns = fst nr /\
               exists df close,
                 _prepare_data (snd nr) = Ok df /\
                 getitem df "close" = Ok (NumCol close) /\
                 snd ns = mkSeries (index df) close) stock_data items /\
    forall n s, In (n, s) items -> well_formed s.
Proof.
  induction stock_data as [|[name raw] stock_data IH]; intros Hall.
  - exists []. split; [constructor|]. intros n s [].
  - destruct IH as (items & Hitems & Hwf).
    { intros n r Hin. apply (Hall n r). now right. }
    destruct (Hall name raw (or_introl eq_refl)) as [(df & close & Hp & Hc & Hnd & _) Hrect].
    exists ((name, mkSeries (index df) close) :: items). split.
    + constructor; [|exact Hitems]. split; [reflexivity|]. now exists df, close.
    + intros n s [Heq|Hin]; [|now apply (Hwf n s)].
      injection Heq as <- <-. split; [exact Hnd|]. cbn [s_index s_values].
      destruct (prepare_data_rectangular raw df Hrect Hp) as [_ Hrect'].
      exact (Hrect' "close" (NumCol close) (getitem_In _ _ _ Hc)).
Qed.

End MergedData.

Section ClusteringMatrix.
Import Pandas BaseAnalyzer TimeWindowAnalyzer ClusterPreparation.

Lemma assoc_lookup {A : Type} (l : list (string * A)) (i : nat) (n : string) (a : A) :
  List.NoDup (List.map fst l) -> l !! i = Some (n, a) -> assoc n l = Some a.
Proof.
  revert i. induction l as [|[m b] l IH]; intros i Hnd Hi; [destruct i; discriminate|].
  cbn [List.map fst] in Hnd. apply List.NoDup_cons_iff in Hnd as [Hnot Hnd].
  destruct i as [|i]; cbn [assoc].
  - injection Hi as -> ->. now rewrite String.eqb_refl.
  - cbn in Hi. destruct (String.eqb_spec n m) as [->|Hne]; [|exact (IH i Hnd Hi)].
    exfalso. apply Hnot. apply in_map_iff. exists (m, a). split; [reflexivity|].
    eapply list_elem_of_In, list_elem_of_lookup_2, Hi.
Qed.

Lemma returns_row (close : list float) :
  close <> [] ->
  length (fillna Float.zero (pct_change close)) = length close /\
  fillna Float.zero (pct_change close) !! 0 = Some (Fin 0) /\
  List.Forall (fun x => Float.isnan x = false) (fillna Float.zero (pct_change close)).
Proof.
  intros Hrows. split; [now rewrite length_fillna, length_pct_change|]. split.
  - destruct close as [|x close]; [contradiction|].
    rewrite (fillna_lookup _ _ 0 NaN); [reflexivity|].
    now apply (pct_change_lookup_0 (x :: close) x).
  - unfold fillna. apply List.Forall_forall. intros x Hin.
    apply in_map_iff in Hin as [y [<- _]]. now destruct y.
Qed.

End ClusteringMatrix.

(** X15.  The matrix that [prepare_data] hands to the clustering.
    Its rows are the instruments from the first one that has any rows on, in
    the order of the dictionary: an instrument without rows that comes
    before is dropped.  Its columns are the dates of that first instrument.
    The row of an instrument holds the returns of its closing prices looked
    up at these dates, starts with 0 and has no missing value. *)
Theorem prepare_data_matrix `{DateParser} `{StandardScaler} `{Argsort} `{!ArgsortLaws}
    (stock_data pre post : list (string * DataFrame)) (name : string) (raw df : DataFrame) :
  List.NoDup (List.map fst stock_data) ->
  (forall n r, In (n, r) stock_data -> TimeWindowAnalyzer.usable r /\ rectangular r) ->
  stock_data = pre ++ (name, raw) :: post ->
  (forall n r d, In (n, r) pre -> BaseAnalyzer._prepare_data r = Ok d -> index d = []) ->
  BaseAnalyzer._prepare_data raw = Ok df -> index df <> [] ->
  exists data,
    ClusterPreparation.prepare_data stock_data =
      (data_scaled ← fit_transform (rows data); Ok (data, data_scaled)) /\
    stocks data = name :: List.map fst post /\
    dates data = index df /\
    length (rows data) = S (length post) /\
    (forall i n r d close,
        ((name, raw) :: post) !! i = Some (n, r) ->
        BaseAnalyzer._prepare_data r = Ok d ->
        Pandas.getitem d "close" = Ok (NumCol close) ->
        rows data !! i =
        Some (Pandas.fillna Float.zero
                (Pandas.pct_change
                   (List.map (Pandas.at_label (index d) close) (index df))))) /\
    (forall row, In row (rows data) ->
        length row = length (index df) /\
        row !! 0 = Some (Fin 0) /\
        List.Forall (fun x => Float.isnan x = false) row).
Proof.
  intros Hnd Hall -> Hpre Hp Hrows.
  assert (Hall_pre : forall n r, In (n, r) pre ->
                                 TimeWindowAnalyzer.usable r /\ rectangular r).
  { intros n r Hin. apply (Hall n r). apply in_or_app. now left. }
  assert (Hall_post : forall n r, In (n, r) post ->
                                  TimeWindowAnalyzer.usable r /\ rectangular r).
  { intros n r Hin. apply (Hall n r). apply in_or_app. right. now right. }
  destruct (Hall name raw) as [(df' & close & Hp' & Hc & Hdates & _) Hrect];
    [apply in_or_app; right; now left|].
  assert (df' = df) as -> by congruence.
  destruct (prepare_data_rectangular raw df Hrect Hp) as [_ Hrect'].
  pose proof (Hrect' "close" (NumCol close) (getitem_In _ _ _ Hc)) as Hlen.
  cbn [column_length] in Hlen.
  destruct (merged_data_loop_skip pre Hall_pre Hpre Pandas.empty_frame eq_refl)
    as (start & Hstart & Hskip).
  destruct (close_items post Hall_post) as (items & Hitems & Hwf).
  assert (Hfst : List.map fst items = List.map fst post).
  { apply (Forall2_names _ _ _ Hitems). now intros x y [Hxy _]. }
  rewrite List.map_app in Hnd. apply List.NoDup_app_remove_l in Hnd.
  cbn [List.map fst] in Hnd.
  pose proof Hnd as Hnd'. apply List.NoDup_cons_iff in Hnd' as [Hfresh Hnd_post].
  set (first := mkDataFrame (index df) [(name, NumCol close)]).
  destruct (assign_all_aligned items) with (df := first)
    as (table & Hrun & Hindex & Haligned & Hold); [now rewrite Hfst|exact Hwf|].
  assert (Hindex' : index table = index df).
  { rewrite Hindex. unfold first. cbn [index]. now destruct (index df). }
  assert (Hnames : List.map fst (columns table) = name :: List.map fst post).
  { rewrite (assign_all_names items first table Hrun); unfold first; cbn [columns List.map fst app];
      now rewrite Hfst. }
  assert (Hfirst : aligned table name (mkSeries (index df) close)).
  { apply Hold; [now rewrite Hfst|]. unfold aligned, first. cbn [index columns s_index s_values].
    split; [|intros Hno; contradiction]. cbn [Pandas.assoc]. rewrite String.eqb_refl.
    do 2 f_equal. symmetry. now apply at_label_self. }
  assert (Hnumeric : List.Forall (fun nc => TimeWindowAnalyzer.numeric (snd nc)) (columns table)).
  { apply (assign_all_numeric items first table Hrun). unfold first. cbn [columns].
    constructor; [now exists close|constructor]. }
  destruct (pct_change_columns_numeric (columns table) Hnumeric)
    as (returns_matrix & Hreturns & Hcells).
  assert (Hloop : ClusterPreparation.merged_data_loop (pre ++ (name, raw) :: post)
                    Pandas.empty_frame = Ok table).
  { rewrite Hskip, (merged_data_loop_start name raw df close post start Hstart Hp Hc Hrows).
    fold first. rewrite (merged_data_loop_assign post items Hitems first); [exact Hrun|].
    unfold Pandas.empty, first. cbn [index columns]. now destruct (index df). }
  assert (Hstocks : List.map fst returns_matrix = name :: List.map fst post).
  { rewrite <- Hnames. apply (Forall2_names _ _ _ Hcells). now intros x y [Hxy _]. }
  assert (Hrow : forall i n r d c,
             ((name, raw) :: post) !! i = Some (n, r) ->
             BaseAnalyzer._prepare_data r = Ok d ->
             Pandas.getitem d "close" = Ok (NumCol c) ->
             List.map snd returns_matrix !! i =
             Some (Pandas.fillna Float.zero
                     (Pandas.pct_change
                        (List.map (Pandas.at_label (index d) c) (index df))))).
  { intros i n r d c Hi Hd Hdc.
    assert (Hal : aligned table n (mkSeries (index d) c)).
    { destruct i as [|i].
      - injection Hi as <- <-. assert (d = df) as -> by congruence.
        assert (c = close) as -> by congruence. exact Hfirst.
      - cbn in Hi. destruct (Forall2_lookup_l _ _ _ _ _ Hitems Hi)
          as ([n' s] & Hs & Hn & d' & c' & Hd' & Hc' & Hseries).
        cbn [fst snd] in Hn, Hd', Hseries. subst n' s.
        assert (d' = d) as -> by congruence. assert (c' = c) as -> by congruence.
        apply Haligned. eapply list_elem_of_In, list_elem_of_lookup_2, Hs. }
    destruct Hal as [Hcol _]. cbn [s_index s_values] in Hcol. rewrite Hindex' in Hcol.
    assert (Hname : List.map fst (columns table) !! i = Some n).
    { rewrite Hnames. change (name :: List.map fst post)
        with (List.map fst ((name, raw) :: post)).
      now rewrite list_lookup_fmap, Hi. }
    rewrite list_lookup_fmap in Hname.
    destruct (columns table !! i) as [[n' col]|] eqn:Hcoli; [|discriminate].
    injection Hname as ->.
    assert (Hassoc : Pandas.assoc n (columns table) = Some col).
    { apply (assoc_lookup _ i); [|exact Hcoli]. rewrite Hnames. exact Hnd. }
    rewrite Hcol in Hassoc. injection Hassoc as <-.
    destruct (Forall2_lookup_l _ _ _ _ _ Hcells Hcoli) as ([n' v'] & Hv & _ & v & Hvcol & Hvrow).
    cbn [fst snd] in Hvcol, Hvrow. injection Hvcol as <-. subst v'.
    now rewrite list_lookup_fmap, Hv. }
  exists (mkClusteringData (List.map fst returns_matrix) (index table)
                           (List.map snd returns_matrix)).
  cbn [stocks dates rows]. split; [|split; [exact Hstocks|split; [exact Hindex'|split; [|split]]]].
  - unfold ClusterPreparation.prepare_data. rewrite Hloop. cbn [mbind result_bind].
    rewrite Hreturns. reflexivity.
  - rewrite length_map, <- (length_map fst), Hstocks. cbn [length]. now rewrite length_map.
  - exact Hrow.
  - intros row Hin. apply list_elem_of_In, list_elem_of_lookup_1 in Hin as [i Hi].
    assert (Hi' : i < length ((name, raw) :: post)).
    { apply lookup_lt_Some in Hi.
      rewrite length_map, <- (length_map fst), Hstocks in Hi. cbn [length] in Hi |- *.
      now rewrite length_map in Hi. }
    destruct (lookup_lt_is_Some_2 _ _ Hi') as [[n r] Hnr].
    destruct (Hall n r) as [(d & c & Hd & Hdc & _) _].
    { apply in_or_app. right. eapply list_elem_of_In, list_elem_of_lookup_2, Hnr. }
    rewrite (Hrow i n r d c Hnr Hd Hdc) in Hi. injection Hi as <-.
    destruct (returns_row (List.map (Pandas.at_label (index d) c) (index df))) as (Hl & Hzero & Hno).
    { destruct (index df); [contradiction|discriminate]. }
    rewrite length_map in Hl. now repeat split.
Qed.

Lemma no_dates_usable : TimeWindowAnalyzer.usable
    (H := epoch_ns) (H0 := insertion_argsort) (price_table [] []).
Proof.
  exists (mkDataFrame [] [("close", NumCol [])]), [].
  split; [reflexivity|]. split; [reflexivity|]. split; [|split].
  - apply NoDup_nil_2.
  - intros c Hc. discriminate.
  - intros c Hc. discriminate.
Defined.

Lemma prepare_data_matrix_witness :
  exists data,
    ClusterPreparation.prepare_data (H := epoch_ns) (H0 := plain_scaler) (H1 := insertion_argsort)
      [("E", price_table [] []);
       ("A", price_table [1; 2]%Z [Fin 10; Fin 10]);
       ("B", price_table [0; 1; 2]%Z [Fin 10; Fin 10; Fin 10])] =
    (data_scaled ← fit_transform (StandardScaler := plain_scaler) (rows data);
     Ok (data, data_scaled))
    /\ stocks data = ["A"; "B"]
    /\ dates data = [1; 2]%Z
    /\ length (rows data) = 2.
Proof.
  destruct (prepare_data_matrix (H := epoch_ns) (H0 := plain_scaler) (H1 := insertion_argsort)
              [("E", price_table [] []);
               ("A", price_table [1; 2]%Z [Fin 10; Fin 10]);
               ("B", price_table [0; 1; 2]%Z [Fin 10; Fin 10; Fin 10])]
              [("E", price_table [] [])]
              [("B", price_table [0; 1; 2]%Z [Fin 10; Fin 10; Fin 10])]
              "A" (price_table [1; 2]%Z [Fin 10; Fin 10])
              (mkDataFrame [1; 2]%Z [("close", NumCol [Fin 10; Fin 10])]))
    as (data & Hrun & Hstocks & Hdates & Hrows & _).
  - repeat constructor; simpl; intuition discriminate.
  - intros n r [E|[E|[E|[]]]]; injection E as <- <-.
    + split; [exact no_dates_usable|now apply price_table_rectangular].
    + split; [exact two_dates_usable|now apply price_table_rectangular].
    + split; [exact three_dates_usable|now apply price_table_rectangular].
  - reflexivity.
  - intros n r d [E|[]] Hd. injection E as <- <-. vm_compute in Hd. now injection Hd as <-.
  - reflexivity.
  - discriminate.
  - exists data. repeat split; assumption.
Defined.

(** ** data_collector.py: [_retry_operation] *)

Section Retry.
Import DataCollector.
Context {E A : Type} (self : t) (operation : nat -> outcome E A).

Lemma passes_step (first last : nat) :
  first < last ->
  passes self first last = Called first :: Slept (retry_delay self) :: passes self (S first) last.
Proof.
  intros Hlt. unfold passes.
  replace (last - first) with (S (last - S first)) by lia. reflexivity.
Qed.

Lemma passes_last (last : nat) : passes self last last = [Called last].
Proof. unfold passes. now rewrite Nat.sub_diag. Qed.

Lemma retry_loop_success (remaining : nat) :
  forall attempt i a,
    attempt + remaining = retry_count self ->
    attempt <= i < retry_count self ->
    operation i = Returned a ->
    (forall j, attempt <= j < i -> exists e, operation j = Raised e) ->
    retry_loop self operation attempt remaining = (Returned (Some a), passes self attempt i).
Proof.
  induction remaining as [|remaining IH]; intros attempt i a Hsum Hi Hok Hfail; [lia|].
  cbn [retry_loop]. destruct (Nat.eq_dec attempt i) as [->|Hne].
  - now rewrite Hok, passes_last.
  - destruct (Hfail attempt) as [e He]; [lia|]. rewrite He.
    replace (Nat.eqb attempt (retry_count self - 1)) with false
      by (symmetry; apply Nat.eqb_neq; lia).
    rewrite (IH (S attempt) i a); [|lia|lia|exact Hok|intros j Hj; apply Hfail; lia].
    now rewrite (passes_step attempt i) by lia.
Qed.

Lemma retry_loop_exhausted (remaining : nat) :
  forall attempt e,
    attempt + remaining = retry_count self ->
    0 < remaining ->
    (forall j, attempt <= j < retry_count self -> exists e', operation j = Raised e') ->
    operation (retry_count self - 1) = Raised e ->
    retry_loop self operation attempt remaining =
    (Raised e, passes self attempt (retry_count self - 1)).
Proof.
  induction remaining as [|remaining IH]; intros attempt e Hsum Hpos Hfail Hlast; [lia|].
  cbn [retry_loop]. destruct (Hfail attempt) as [e' He']; [lia|]. rewrite He'.
  destruct (Nat.eqb_spec attempt (retry_count self - 1)) as [Heq|Hne].
  - rewrite <- Heq in Hlast |- *. rewrite passes_last. congruence.
  - rewrite (IH (S attempt) e); [|lia|lia|intros j Hj; apply Hfail; lia|exact Hlast].
    now rewrite (passes_step attempt (retry_count self - 1)) by lia.
Qed.

End Retry.

(** X16.  [_retry_operation] returns what the first successful call
    returns, provided it comes within [retry_count] attempts: the operation
    has then been called once in each pass up to that one, with a pause of
    [retry_delay] seconds after each failure, and is not called again. *)
Theorem retry_operation_first_success {E A : Type}
    (self : DataCollector.t) (operation : nat -> DataCollector.outcome E A) (i : nat) (a : A) :
  i < DataCollector.retry_count self ->
  operation i = DataCollector.Returned a ->
  (forall j, j < i -> exists e, operation j = DataCollector.Raised e) ->
  DataCollector._retry_operation self operation =
  (DataCollector.Returned (Some a), DataCollector.passes self 0 i) /\
  length (DataCollector.passes self 0 i) = 2 * i + 1.
Proof.
  intros Hi Hok Hfail. split.
  - apply retry_loop_success; [reflexivity|lia|exact Hok|].
    intros j Hj. apply Hfail. lia.
  - unfold DataCollector.passes. rewrite length_app, Nat.sub_0_r. cbn [length].
    assert (Hlen : forall first n,
               length (flat_map (fun attempt =>
                                   [DataCollector.Called attempt;
                                    DataCollector.Slept (DataCollector.retry_delay self)])
                                (seq first n)) = 2 * n).
    { intros first n. revert first. induction n as [|n IH]; intros first; [reflexivity|].
      cbn [seq flat_map app length]. rewrite IH. lia. }
    rewrite Hlen. lia.
Qed.

Lemma retry_operation_first_success_witness :
  DataCollector._retry_operation DataCollector.__init__
    (fun attempt => if Nat.ltb attempt 2
                    then DataCollector.Raised "timeout"
                    else DataCollector.Returned 7%nat) =
  (DataCollector.Returned (Some 7%nat),
   [DataCollector.Called 0; DataCollector.Slept 2;
    DataCollector.Called 1; DataCollector.Slept 2; DataCollector.Called 2]).
Proof.
  apply (retry_operation_first_success DataCollector.__init__
           (fun attempt => if Nat.ltb attempt 2
                           then DataCollector.Raised "timeout"
                           else DataCollector.Returned 7%nat) 2 7%nat).
  - cbn. lia.
  - reflexivity.
  - intros j Hj. exists "timeout". destruct j as [|[|j]]; [reflexivity|reflexivity|lia].
Defined.

(** X17.  When every attempt fails, [_retry_operation] gives up after
    [retry_count] calls and raises the exception of the last one, without a
    pause after it; the exceptions of the earlier attempts are lost.  With
    [retry_count] at 0 the operation is never called and the result is
    [None]. *)
Theorem retry_operation_gives_up {E A : Type}
    (self : DataCollector.t) (operation : nat -> DataCollector.outcome E A) :
  (forall e,
      0 < DataCollector.retry_count self ->
      (forall j, j < DataCollector.retry_count self ->
                 exists e', operation j = DataCollector.Raised e') ->
      operation (DataCollector.retry_count self - 1) = DataCollector.Raised e ->
      DataCollector._retry_operation self operation =
      (DataCollector.Raised e,
       DataCollector.passes self 0 (DataCollector.retry_count self - 1))) /\
  (DataCollector.retry_count self = 0 ->
   DataCollector._retry_operation self operation = (DataCollector.Returned None, [])).
Proof.
  split.
  - intros e Hpos Hfail Hlast.
    apply retry_loop_exhausted; [reflexivity|exact Hpos| |exact Hlast].
    intros j Hj. apply Hfail. lia.
  - intros Hzero. unfold DataCollector._retry_operation. now rewrite Hzero.
Qed.

Lemma retry_operation_gives_up_witness :
  DataCollector._retry_operation (A := nat) DataCollector.__init__
    (fun attempt => DataCollector.Raised attempt) =
  (DataCollector.Raised 2,
   [DataCollector.Called 0; DataCollector.Slept 2;
    DataCollector.Called 1; DataCollector.Slept 2; DataCollector.Called 2]).
Proof.
  destruct (retry_operation_gives_up (A := nat) DataCollector.__init__
              (fun attempt => DataCollector.Raised attempt)) as [Hfail _].
  apply (Hfail 2).
  - cbn. lia.
  - intros j _. now exists j.
  - reflexivity.
Defined.

(** ** correlation_analyzer.py: what the returns table is built from *)

Section RowLabels.
Import Pandas CorrelationAnalyzer.

Lemma returns_data_loop_reads (stock_data stock_data' : list (string * DataFrame)) :
  Forall2 (fun x y => fst x = fst y /\
                      index (snd x) = index (snd y) /\
                      getitem (snd x) "close" = getitem (snd y) "close")
          stock_data stock_data' ->
  forall returns_data,
    returns_data_loop stock_data returns_data = returns_data_loop stock_data' returns_data.
Proof.
  induction 1 as [|[name df] [name' df'] stock_data stock_data' (Hn & Hi & Hc) _ IH];
    intros returns_data; [reflexivity|].
  cbn [fst snd] in Hn, Hi, Hc. subst name'. cbn [returns_data_loop].
  rewrite <- Hc, <- Hi.
  destruct (getitem df "close") as [[v|v]|e]; cbn [mbind result_bind]; try reflexivity.
  - destruct (setitem returns_data name (dropna (mkSeries (index df) (pct_change v))));
      cbn [mbind result_bind]; [apply IH|reflexivity].
  - destruct (pct_change_obj v) as [returns|e]; cbn [mbind result_bind]; [|reflexivity].
    match goal with
    | |- context [setitem_column returns_data name ?l ?c] =>
        destruct (setitem_column returns_data name l c)
    end; cbn [mbind result_bind]; [apply IH|reflexivity].
Qed.

End RowLabels.

(** X18.  The correlation of returns reads nothing of a table
    but its [close] column and its row labels: the instruments are lined up
    by row label, and [trade_date] plays no part.  Two dictionaries that agree
    on the names, the row labels and the closing prices give the same table
    and the same strong pairs, whatever their dates are; this holds for the
    class and for the script. *)
Theorem calculate_returns_correlation_ignores_dates `{Sqrt}
    (stock_data stock_data' : list (string * DataFrame)) :
  Forall2 (fun x y => fst x = fst y /\
                      index (snd x) = index (snd y) /\
                      Pandas.getitem (snd x) "close" = Pandas.getitem (snd y) "close")
          stock_data stock_data' ->
  CorrelationAnalyzer.calculate_returns_correlation stock_data =
  CorrelationAnalyzer.calculate_returns_correlation stock_data' /\
  CorrelationScript.analyze_correlation stock_data =
  CorrelationScript.analyze_correlation stock_data'.
Proof.
  intros Hsame.
  unfold CorrelationAnalyzer.calculate_returns_correlation,
    CorrelationScript.analyze_correlation.
  now rewrite (returns_data_loop_reads stock_data stock_data' Hsame).
Qed.

Lemma calculate_returns_correlation_ignores_dates_witness :
  CorrelationAnalyzer.calculate_returns_correlation (H := exact_sqrt)
    [("A", price_table [1; 2; 3]%Z [Fin 10; Fin 11; Fin 13]);
     ("B", price_table [1; 2; 3]%Z [Fin 20; Fin 21; Fin 25])] =
  CorrelationAnalyzer.calculate_returns_correlation (H := exact_sqrt)
    [("A", price_table [1; 2; 3]%Z [Fin 10; Fin 11; Fin 13]);
     ("B", price_table [7; 8; 9]%Z [Fin 20; Fin 21; Fin 25])].
Proof.
  apply (calculate_returns_correlation_ignores_dates (H := exact_sqrt)).
  repeat constructor.
Defined.

(** ** time_window_analyzer.py: the dates of the rolling correlation *)

Section RollingDates.
Import Pandas BaseAnalyzer TimeWindowAnalyzer.
Context `{DateParser} `{Sqrt} `{Argsort} `{!ArgsortLaws}.

Lemma returns_data_loop_assign (stock_data : list (string * DataFrame))
    (items : list (string * Series)) :
  Forall2 (fun nr ns =>
             fst ns = fst nr /\
             exists df,
               _prepare_data (snd nr) = Ok df /\
               _calculate_returns df = Ok (snd ns)) stock_data items ->
  forall returns_data,
    returns_data_loop stock_data returns_data = assign_all items returns_data.
Proof.
  induction 1 as [|[name raw] [n s] stock_data items (Hn & df & Hp & Hr) _ IH];
    intros returns_data; [reflexivity|].
  cbn [fst snd] in Hn, Hp, Hr. subst n.
  cbn [returns_data_loop assign_all]. rewrite Hp. cbn [mbind result_bind].
  rewrite Hr. cbn [mbind result_bind].
  destruct (setitem returns_data name s); [|reflexivity].
  apply IH.
Qed.

Lemma returns_items (stock_data : list (string * DataFrame)) :
  (forall name raw, In (name, raw) stock_data -> usable raw /\ rectangular raw) ->
  exists items,
    Forall2 (fun nr ns =>
               fst ns = fst nr /\
               exists df,
                 _prepare_data (snd nr) = Ok df /\
                 _calculate_returns df = Ok (snd ns)) stock_data items /\
    forall n s, In (n, s) items ->
      well_formed s /\ List.Forall (fun x => Float.isnan x = false) (s_values s).
Proof.
  induction stock_data as [|[name raw] stock_data IH]; intros Hall.
  - exists []. split; [constructor|]. intros n s [].
  - destruct IH as (items & Hitems & Hwf).
    { intros n r Hin. apply (Hall n r). now right. }
    destruct (Hall name raw (or_introl eq_refl)) as [Husable Hrect].
    destruct (usable_returns raw Husable) as (df & returns & Hp & Hr).
    exists ((name, returns) :: items). split.
    + constructor; [|exact Hitems]. split; [reflexivity|]. now exists df.
    + intros n s [Heq|Hin]; [|now apply (Hwf n s)].
      injection Heq as <- <-.
      split; [exact (usable_well_formed raw df returns Husable Hrect Hp Hr)|].
      destruct Husable as (df' & close & Hp' & Hclose & _).
      assert (df' = df) as -> by congruence.
      rewrite (calculate_returns_numeric df close Hclose) in Hr. injection Hr as <-.
      cbn [s_values]. unfold fillna. apply List.Forall_forall. intros x Hin.
      apply in_map_iff in Hin as [y [<- _]]. now destruct y.
Qed.

Lemma in_take_rows {A : Type} (keep : list nat) (l : list A) (x : A) :
  In x (take_rows keep l) <-> exists t, In t keep /\ l !! t = Some x.
Proof.
  unfold take_rows. rewrite <- list_elem_of_In, list_elem_of_omap.
  split; intros (t & Ht & Hx); exists t; (split; [|exact Hx]).
  - now apply list_elem_of_In.
  - now apply list_elem_of_In.
Qed.

Lemma assoc_In_NoDup {A : Type} (l : list (string * A)) (n : string) (a : A) :
  List.NoDup (List.map fst l) -> In (n, a) l -> assoc n l = Some a.
Proof.
  intros Hnd Hin. apply list_elem_of_In, list_elem_of_lookup_1 in Hin as [i Hi].
  exact (assoc_lookup l i n a Hnd Hi).
Qed.

(** The rows that [dropna] keeps in a table of aligned series without
    missing values: the dates that every series has. *)
Lemma dropna_rows_aligned (items : list (string * Series)) (table : DataFrame) (d : Z) :
  List.NoDup (List.map fst items) ->
  List.map fst (columns table) = List.map fst items ->
  (forall n s, In (n, s) items ->
     aligned table n s /\ well_formed s /\
     List.Forall (fun x => Float.isnan x = false) (s_values s)) ->
  In d (index (dropna_rows table)) <->
  In d (index table) /\ forall n s, In (n, s) items -> In d (s_index s).
Proof.
  intros Hnd Hnames Hitems. unfold dropna_rows. cbn [index]. rewrite in_take_rows. split.
  - intros (t & Ht & Hd). apply filter_In in Ht as [_ Hrow].
    split; [eapply list_elem_of_In, list_elem_of_lookup_2, Hd|].
    intros n s Hin. destruct (Hitems n s Hin) as ([Hcol _] & _ & _).
    unfold row_complete in Hrow.
    pose proof (proj1 (forallb_forall _ _) Hrow _ (assoc_In _ _ _ Hcol)) as Hcell.
    cbn [snd] in Hcell. rewrite list_lookup_fmap, Hd in Hcell.
    cbn [fmap option_fmap option_map] in Hcell.
    destruct (in_dec Z.eq_dec d (s_index s)) as [Hyes|Hno]; [exact Hyes|].
    now rewrite (at_label_absent _ _ _ Hno) in Hcell.
  - intros [Hd Hall]. apply list_elem_of_In, list_elem_of_lookup_1 in Hd as [t Ht].
    exists t. split; [|exact Ht]. apply filter_In. split.
    + apply in_seq. apply lookup_lt_Some in Ht. lia.
    + unfold row_complete. apply forallb_forall. intros [n c] Hin. cbn [snd].
      assert (Hn : In n (List.map fst items)).
      { rewrite <- Hnames. apply in_map_iff. now exists (n, c). }
      apply in_map_iff in Hn as [[n' s] [Heq Hs]]. cbn [fst] in Heq. subst n'.
      destruct (Hitems n s Hs) as ([Hcol _] & [Hdates Hlen] & Hvalues).
      assert (Hc : assoc n (columns table) = Some c).
      { apply assoc_In_NoDup; [now rewrite Hnames|exact Hin]. }
      rewrite Hcol in Hc. injection Hc as <-.
      rewrite list_lookup_fmap, Ht. cbn [fmap option_fmap option_map].
      pose proof (Hall n s Hs) as Hin_s.
      apply list_elem_of_In, list_elem_of_lookup_1 in Hin_s as [i Hi].
      destruct (lookup_lt_is_Some_2 (s_values s) i) as [x Hx].
      { rewrite Hlen. eapply lookup_lt_Some, Hi. }
      rewrite (at_label_lookup _ _ i d x Hdates Hi Hx).
      apply negb_true_iff.
      exact (proj1 (List.Forall_forall _ _) Hvalues x
               (proj1 (list_elem_of_In _ _) (list_elem_of_lookup_2 _ _ _ Hx))).
Qed.

Lemma pairwise_dates (window : nat) (df : DataFrame) (d : Z) :
  numeric_columns df <> [] ->
  In d (List.map fst (p_index (rolling_corr_pairwise window df))) <-> In d (index df).
Proof.
  intros Hcols. unfold rolling_corr_pairwise. cbn [p_index].
  destruct (numeric_columns df) as [|nc cols]; [contradiction|].
  rewrite in_map_iff. split.
  - intros ([d' n] & Heq & Hin). cbn [fst] in Heq. subst d'.
    apply in_flat_map in Hin as (d' & Hd' & Hin).
    apply in_map_iff in Hin as (nc' & Heq & _). now injection Heq as <- _.
  - intros Hin. exists (d, fst nc). split; [reflexivity|].
    apply in_flat_map. exists d. split; [exact Hin|]. now left.
Qed.

End RollingDates.

(** X19.  The rolling correlation covers the dates that all the
    instruments share.  For well-formed inputs with distinct dates, a date
    labels rows of the table returned by [calculate_rolling_correlation]
    exactly when every instrument of the dictionary has it; a date that one
    instrument lacks is dropped for all of them. *)
Theorem rolling_correlation_dates `{DateParser} `{Sqrt} `{Argsort} `{!ArgsortLaws}
    (stock_data : list (string * DataFrame)) (window : nat) (d : Z) :
  stock_data <> [] ->
  List.NoDup (List.map fst stock_data) ->
  (forall name raw, In (name, raw) stock_data ->
     TimeWindowAnalyzer.usable raw /\ rectangular raw) ->
  In d (List.map fst
          (p_index (snd (TimeWindowAnalyzer.calculate_rolling_correlation stock_data window))))
  <->
  forall name raw df,
    In (name, raw) stock_data -> BaseAnalyzer._prepare_data raw = Ok df -> In d (index df).
Proof.
  intros Hsome Hnd Hall.
  destruct (returns_items stock_data Hall) as (items & Hitems & Hwf).
  assert (Hfst : List.map fst items = List.map fst stock_data).
  { apply (Forall2_names _ _ _ Hitems). now intros x y [Hxy _]. }
  destruct (assign_all_aligned items) with (df := Pandas.empty_frame)
    as (table & Hrun & Hindex & Haligned & _);
    [now rewrite Hfst|intros n s Hin; now apply (Hwf n s)|].
  cbn [Pandas.empty_frame index] in Hindex.
  assert (Hnames : List.map fst (columns table) = List.map fst items).
  { rewrite (assign_all_names items Pandas.empty_frame table Hrun); [reflexivity|].
    cbn [Pandas.empty_frame columns List.map app]. now rewrite Hfst. }
  assert (Hnumeric : List.Forall (fun nc => TimeWindowAnalyzer.numeric (snd nc)) (columns table)).
  { apply (assign_all_numeric items Pandas.empty_frame table Hrun). constructor. }
  assert (Hkept : In d (index (Pandas.dropna_rows table)) <->
                  In d (index table) /\ forall n s, In (n, s) items -> In d (s_index s)).
  { apply dropna_rows_aligned; [now rewrite Hfst|exact Hnames|].
    intros n s Hin. destruct (Hwf n s Hin) as [Hw Hv]. split; [now apply Haligned|now split]. }
  assert (Hshared : (In d (index table) /\ forall n s, In (n, s) items -> In d (s_index s)) <->
                    forall name raw df,
                      In (name, raw) stock_data ->
                      BaseAnalyzer._prepare_data raw = Ok df -> In d (index df)).
  { split.
    - intros [_ Hin] name raw df Hraw Hp.
      destruct (Forall2_In_l _ _ _ _ Hitems Hraw) as ([n s] & Hs & _ & df' & Hp' & Hr).
      cbn [fst snd] in Hp', Hr. assert (df' = df) as -> by congruence.
      rewrite <- (calculate_returns_index df s Hr). now apply (Hin n s).
    - intros Hin.
      assert (Hitem : forall n s, In (n, s) items -> In d (s_index s)).
      { intros n s Hs.
        destruct (Forall2_In_r _ _ _ _ Hitems Hs) as ([name raw] & Hraw & _ & df & Hp & Hr).
        cbn [fst snd] in Hp, Hr. rewrite (calculate_returns_index df s Hr).
        now apply (Hin name raw df). }
      split; [|exact Hitem]. rewrite Hindex.
      destruct items as [|[n s] items'].
      { inversion Hitems; subst. contradiction. }
      cbn [first_index]. pose proof (Hitem n s (or_introl eq_refl)) as Hd.
      destruct (s_index s); [destruct Hd|exact Hd]. }
  rewrite <- Hshared, <- Hkept.
  unfold TimeWindowAnalyzer.calculate_rolling_correlation,
    TimeWindowAnalyzer.rolling_correlation_body.
  rewrite (returns_data_loop_assign stock_data items Hitems), Hrun.
  cbn [mbind result_bind].
  destruct (Pandas.empty (Pandas.dropna_rows table)) eqn:Hempty; cbn [snd p_index List.map].
  - split; [intros []|]. intros Hin. exfalso.
    unfold Pandas.empty in Hempty. apply orb_true_iff in Hempty as [Hrows|Hcols].
    + destruct (index (Pandas.dropna_rows table)); [destruct Hin|discriminate].
    + assert (Hlen : length (columns (Pandas.dropna_rows table)) = length stock_data).
      { unfold Pandas.dropna_rows. cbn [columns].
        rewrite length_map, <- (length_map fst), Hnames, Hfst. apply length_map. }
      rewrite Hlen in Hcols. destruct stock_data; [contradiction|discriminate].
  - apply pairwise_dates. apply empty_false in Hempty as [_ Hcols].
    apply numeric_columns_nonempty; [|exact Hcols]. now apply dropna_rows_numeric.
Qed.

Lemma rolling_correlation_dates_witness :
  (In 1%Z (List.map fst
             (p_index (snd (TimeWindowAnalyzer.calculate_rolling_correlation
                 (H := epoch_ns) (H0 := exact_sqrt) (H1 := insertion_argsort)
                              [("A", price_table [1; 2]%Z [Fin 10; Fin 10]);
                               ("B", price_table [0; 1; 2]%Z [Fin 10; Fin 10; Fin 10])] 2))))
   <->
   forall name raw df,
     In (name, raw) [("A", price_table [1; 2]%Z [Fin 10; Fin 10]);
                     ("B", price_table [0; 1; 2]%Z [Fin 10; Fin 10; Fin 10])] ->
     BaseAnalyzer._prepare_data
         (H := epoch_ns) (H0 := insertion_argsort) raw = Ok df -> In 1%Z (index df))
  /\ List.map fst
       (p_index (snd (TimeWindowAnalyzer.calculate_rolling_correlation
           (H := epoch_ns) (H0 := exact_sqrt) (H1 := insertion_argsort)
                        [("B", price_table [0; 1; 2]%Z [Fin 10; Fin 10; Fin 10]);
                         ("A", price_table [1; 2]%Z [Fin 10; Fin 10])] 2))) =
     [1; 1; 2; 2]%Z.
Proof.
  split; [|vm_compute; reflexivity].
  apply (rolling_correlation_dates (H := epoch_ns) (H0 := exact_sqrt) (H1 := insertion_argsort)).
  - discriminate.
  - repeat constructor; simpl; intuition discriminate.
  - intros name raw [E|[E|[]]]; injection E as <- <-.
    + split; [exact two_dates_usable|now apply price_table_rectangular].
    + split; [exact three_dates_usable|now apply price_table_rectangular].
Defined.

(** ** base_analyzer.py: the order of the raw rows *)

Section RowOrder.
Import Pandas BaseAnalyzer.
Context `{Argsort} `{!ArgsortLaws}.

Lemma combine_lookup {A B : Type} (l : list A) (v : list B) (i : nat) (a : A) (b : B) :
  l !! i = Some a -> v !! i = Some b -> combine l v !! i = Some (a, b).
Proof.
  revert v i. induction l as [|x l IH]; intros v i Ha Hb; [destruct i; discriminate|].
  destruct v as [|y v]; [destruct i; discriminate|].
  destruct i as [|i]; cbn in *.
  - now injection Ha as ->; injection Hb as ->.
  - now apply IH.
Qed.

Lemma take_rows_combine {A B : Type} (indexer : list nat) (l : list A) (v : list B) :
  length v = length l ->
  (forall i, In i indexer -> i < length l) ->
  take_rows indexer (combine l v) = combine (take_rows indexer l) (take_rows indexer v).
Proof.
  intros Hlen. induction indexer as [|i indexer IH]; intros Hin; [reflexivity|].
  rewrite !take_rows_cons.
  destruct (lookup_lt_is_Some_2 l i (Hin i (or_introl eq_refl))) as [a Ha].
  destruct (lookup_lt_is_Some_2 v i) as [b Hb].
  { rewrite Hlen. apply Hin. now left. }
  rewrite Ha, Hb, (combine_lookup l v i a b Ha Hb). cbn [combine]. f_equal.
  apply IH. intros j Hj. apply Hin. now right.
Qed.

Lemma fst_combine {A B : Type} (l : list A) (v : list B) :
  length l = length v -> List.map fst (combine l v) = l.
Proof.
  revert v. induction l as [|x l IH]; intros [|y v] Hlen; try discriminate; [reflexivity|].
  cbn. f_equal. apply IH. now injection Hlen.
Qed.

Lemma snd_combine {A B : Type} (l : list A) (v : list B) :
  length l = length v -> List.map snd (combine l v) = v.
Proof.
  revert v. induction l as [|x l IH]; intros [|y v] Hlen; try discriminate; [reflexivity|].
  cbn. f_equal. apply IH. now injection Hlen.
Qed.

(** The rows in the order of their labels. *)
Lemma take_argsort_rows {A : Type} (labels : list Z) (v : list A) :
  length v = length labels ->
  Permutation (take_rows (argsort labels) (combine labels v)) (combine labels v) /\
  List.map fst (take_rows (argsort labels) (combine labels v)) =
    take_rows (argsort labels) labels /\
  List.map snd (take_rows (argsort labels) (combine labels v)) =
    take_rows (argsort labels) v.
Proof.
  intros Hlen. split.
  - rewrite (take_rows_Permutation _ _ _ (argsort_Permutation labels)).
    replace (length labels) with (length (combine labels v))
      by (rewrite length_combine; lia).
    now rewrite take_rows_all.
  - rewrite take_rows_combine by (exact Hlen || apply argsort_in_range).
    assert (Hsame : length (take_rows (argsort labels) labels) =
                    length (take_rows (argsort labels) v)).
    { rewrite !length_take_rows; [reflexivity| |apply argsort_in_range].
      intros i Hi. rewrite Hlen. now apply argsort_in_range. }
    split.
    + apply fst_combine. exact Hsame.
    + apply snd_combine. exact Hsame.
Qed.

(** Rows with distinct labels have one ascending order. *)
Lemma sorted_rows_unique {A : Type} (rows1 rows2 : list (Z * A)) :
  Permutation rows1 rows2 ->
  StronglySorted Z.lt (List.map fst rows1) ->
  StronglySorted Z.lt (List.map fst rows2) ->
  rows1 = rows2.
Proof.
  revert rows2. induction rows1 as [|[k a] rows1 IH]; intros rows2 Hperm Hs1 Hs2.
  - now apply Permutation_nil in Hperm.
  - destruct rows2 as [|[k' a'] rows2].
    { symmetry in Hperm. now apply Permutation_nil in Hperm. }
    cbn [List.map fst] in Hs1, Hs2.
    apply StronglySorted_inv in Hs1 as [Hs1 Hmin1].
    apply StronglySorted_inv in Hs2 as [Hs2 Hmin2].
    assert (Hhead : (k, a) = (k', a')).
    { assert (Hin1 : In (k, a) ((k', a') :: rows2))
        by (apply (Permutation_in _ Hperm); now left).
      assert (Hin2 : In (k', a') ((k, a) :: rows1))
        by (apply (Permutation_in _ (Permutation_sym Hperm)); now left).
      destruct Hin1 as [Heq|Hin1]; [now symmetry|].
      destruct Hin2 as [Heq|Hin2]; [exact Heq|].
      exfalso.
      assert (Hlt1 : (k' < k)%Z).
      { apply (proj1 (List.Forall_forall _ _) Hmin2 k).
        apply in_map_iff. now exists (k, a). }
      assert (Hlt2 : (k < k')%Z).
      { apply (proj1 (List.Forall_forall _ _) Hmin1 k').
        apply in_map_iff. now exists (k', a'). }
      lia. }
    injection Hhead as <- <-. f_equal.
    apply IH; [|exact Hs1|exact Hs2]. now apply Permutation_cons_inv in Hperm.
Qed.

(** Sorting by distinct labels undoes any reordering of the rows. *)
Lemma sort_reordered {A : Type} (positions : list nat) (labels : list Z) (v : list A) :
  NoDup labels -> length v = length labels ->
  Permutation positions (seq 0 (length labels)) ->
  take_rows (argsort (take_rows positions labels)) (take_rows positions labels) =
    take_rows (argsort labels) labels /\
  take_rows (argsort (take_rows positions labels)) (take_rows positions v) =
    take_rows (argsort labels) v.
Proof.
  intros Hnd Hlen Hperm.
  assert (Hrange : forall i, In i positions -> i < length labels).
  { intros i Hi. apply (Permutation_in _ Hperm), in_seq in Hi. lia. }
  assert (Hlen_l : length (take_rows positions labels) = length labels).
  { rewrite length_take_rows by exact Hrange.
    rewrite (Permutation_length Hperm). apply length_seq. }
  assert (Hlen_v : length (take_rows positions v) = length (take_rows positions labels)).
  { rewrite !length_take_rows; [reflexivity|exact Hrange|].
    intros i Hi. rewrite Hlen. now apply Hrange. }
  destruct (take_argsort_rows labels v Hlen) as (Hp1 & Hf1 & Hs1).
  destruct (take_argsort_rows (take_rows positions labels) (take_rows positions v) Hlen_v)
    as (Hp2 & Hf2 & Hs2).
  assert (Hperm_l : Permutation (take_rows positions labels) labels)
    by now apply take_rows_in_range_Permutation.
  assert (Hrows : take_rows (argsort (take_rows positions labels))
                    (combine (take_rows positions labels) (take_rows positions v)) =
                  take_rows (argsort labels) (combine labels v)).
  { apply sorted_rows_unique.
    - rewrite Hp2, Hp1. rewrite <- take_rows_combine by assumption.
      apply take_rows_in_range_Permutation. rewrite length_combine.
      replace (Nat.min (length labels) (length v)) with (length labels) by lia.
      exact Hperm.
    - rewrite Hf2. apply sorted_strict_iff_NoDup; [apply take_argsort_sorted|].
      rewrite <- (take_argsort_Permutation (take_rows positions labels)).
      now rewrite Hperm_l.
    - rewrite Hf1. apply sorted_strict_iff_NoDup; [apply take_argsort_sorted|].
      now rewrite <- (take_argsort_Permutation labels). }
  split.
  - now rewrite <- Hf2, <- Hf1, Hrows.
  - now rewrite <- Hs2, <- Hs1, Hrows.
Qed.

Lemma mapM_take_rows {A B : Type} (f : A -> option B) (positions : list nat)
    (l : list A) (k : list B) :
  mapM f l = Some k ->
  (forall i, In i positions -> i < length l) ->
  mapM f (take_rows positions l) = Some (take_rows positions k).
Proof.
  intros Hk Hrange. apply mapM_Some in Hk. apply mapM_Some.
  induction positions as [|i positions IH]; [constructor|].
  rewrite !take_rows_cons.
  destruct (lookup_lt_is_Some_2 l i (Hrange i (or_introl eq_refl))) as [a Ha].
  destruct (Forall2_lookup_l _ _ _ _ _ Hk Ha) as (b & Hb & Hab).
  rewrite Ha, Hb. constructor; [exact Hab|].
  apply IH. intros j Hj. apply Hrange. now right.
Qed.

Lemma cells_take_column (positions : list nat) (c : Column) :
  (forall i, In i positions -> i < column_length c) ->
  cells (take_column positions c) = take_rows positions (cells c).
Proof.
  intros Hrange. destruct c as [v|v]; cbn [take_column cells column_length] in *.
  - induction positions as [|i positions IH]; [reflexivity|].
    rewrite !take_rows_cons, list_lookup_fmap.
    destruct (lookup_lt_is_Some_2 v i (Hrange i (or_introl eq_refl))) as [x ->].
    cbn. f_equal. apply IH. intros j Hj. apply Hrange. now right.
  - induction positions as [|i positions IH]; [reflexivity|].
    rewrite !take_rows_cons, list_lookup_fmap.
    destruct (lookup_lt_is_Some_2 v i (Hrange i (or_introl eq_refl))) as [x ->].
    cbn. f_equal. apply IH. intros j Hj. apply Hrange. now right.
Qed.

Lemma assoc_take_column (positions : list nat) (cols : list (string * Column)) (name : string) :
  assoc name (List.map (fun nc => (fst nc, take_column positions (snd nc))) cols) =
  take_column positions <$> assoc name cols.
Proof.
  induction cols as [|[n c] cols IH]; [reflexivity|]. cbn [List.map assoc fst snd].
  destruct (String.eqb name n); [reflexivity|exact IH].
Qed.

End RowOrder.

(** X20.  The order of the rows of the raw table does not matter
    when its dates are distinct: [_prepare_data] gives the same table for
    the raw rows in any order. *)
Theorem prepare_data_row_order `{DateParser} `{Argsort} `{!ArgsortLaws}
    (raw : DataFrame) (positions : list nat) (trade_date : Column) (labels : list Z) :
  rectangular raw ->
  Permutation positions (seq 0 (length (index raw))) ->
  Pandas.getitem raw "trade_date" = Ok trade_date ->
  Pandas.to_datetime_column trade_date = Ok labels ->
  NoDup labels ->
  BaseAnalyzer._prepare_data (iloc_rows raw positions) = BaseAnalyzer._prepare_data raw.
Proof.
  intros Hrect Hperm Hget Hlabels Hnd.
  assert (Hlen : length labels = length (index raw)).
  { rewrite (to_datetime_column_length trade_date labels Hlabels).
    exact (Hrect "trade_date" trade_date (getitem_In _ _ _ Hget)). }
  assert (Hrange : forall i, In i positions -> i < length (index raw)).
  { intros i Hi. apply (Permutation_in _ Hperm), in_seq in Hi. lia. }
  assert (Hnames : forall name,
             Pandas.has_column (iloc_rows raw positions) name = Pandas.has_column raw name).
  { intros name. unfold Pandas.has_column, iloc_rows. cbn [columns].
    now rewrite List.map_map. }
  unfold BaseAnalyzer._prepare_data. rewrite !validate_required, !Hnames.
  destruct (Pandas.has_column raw "trade_date" && Pandas.has_column raw "close");
    cbn [negb]; [|reflexivity].
  assert (Hget' : Pandas.getitem (iloc_rows raw positions) "trade_date" =
                  Ok (Pandas.take_column positions trade_date)).
  { unfold Pandas.getitem in Hget |- *. unfold iloc_rows. cbn [columns].
    rewrite assoc_take_column.
    destruct (Pandas.assoc "trade_date" (columns raw)) as [c|]; [|discriminate].
    now injection Hget as ->. }
  rewrite Hget, Hget'. cbn [mbind result_bind].
  rewrite Hlabels. cbn [mbind result_bind].
  assert (Hcol : column_length trade_date = length (index raw))
    by exact (Hrect "trade_date" trade_date (getitem_In _ _ _ Hget)).
  assert (Hlabels' : Pandas.to_datetime_column (Pandas.take_column positions trade_date) =
                     Ok (Pandas.take_rows positions labels)).
  { unfold Pandas.to_datetime_column in Hlabels |- *.
    rewrite cells_take_column by (intros i Hi; rewrite Hcol; now apply Hrange).
    destruct (mapM to_datetime (Pandas.cells trade_date)) as [k|] eqn:Hk; [|discriminate].
    injection Hlabels as ->.
    rewrite (mapM_take_rows _ positions _ labels Hk); [reflexivity|].
    intros i Hi. rewrite (length_mapM _ _ _ Hk), Hlen. now apply Hrange. }
  rewrite Hlabels'. cbn [mbind result_bind]. do 2 f_equal.
  rewrite <- Hlen in Hperm.
  unfold Pandas.sort_index, Pandas.set_index, iloc_rows. cbn [index columns]. f_equal.
  - exact (proj1 (sort_reordered positions labels labels Hnd eq_refl Hperm)).
  - assert (Hfilter : forall cols : list (string * Column),
               List.filter (fun nc => negb (String.eqb "trade_date" (fst nc)))
                 (List.map (fun nc => (fst nc, Pandas.take_column positions (snd nc))) cols) =
               List.map (fun nc => (fst nc, Pandas.take_column positions (snd nc)))
                 (List.filter (fun nc => negb (String.eqb "trade_date" (fst nc))) cols)).
    { induction cols as [|[n c] cols IH]; [reflexivity|]. cbn [List.map List.filter fst snd].
      destruct (negb (String.eqb "trade_date" n)); cbn [List.map fst snd]; now rewrite IH. }
    rewrite Hfilter, List.map_map. apply List.map_ext_in.
    intros [n c] Hin. cbn [fst snd]. f_equal.
    apply filter_In in Hin as [Hin _].
    pose proof (Hrect n c Hin) as Hc. rewrite <- Hlen in Hc.
    destruct c as [v|v]; cbn [Pandas.take_column column_length] in *; f_equal;
      exact (proj2 (sort_reordered positions labels v Hnd Hc Hperm)).
Qed.

Lemma prepare_data_row_order_witness :
  BaseAnalyzer._prepare_data (H := epoch_ns) (H0 := insertion_argsort)
    (iloc_rows (price_table [3; 1; 2]%Z [Fin 30; Fin 10; Fin 20]) [2; 0; 1]) =
  BaseAnalyzer._prepare_data (H := epoch_ns) (H0 := insertion_argsort)
    (price_table [3; 1; 2]%Z [Fin 30; Fin 10; Fin 20])
  /\ BaseAnalyzer._prepare_data (H := epoch_ns) (H0 := insertion_argsort)
       (price_table [3; 1; 2]%Z [Fin 30; Fin 10; Fin 20]) =
     Ok (mkDataFrame [1; 2; 3]%Z [("close", NumCol [Fin 10; Fin 20; Fin 30])]).
Proof.
  split; [|vm_compute; reflexivity].
  apply (prepare_data_row_order (H := epoch_ns) (H0 := insertion_argsort)
           (price_table [3; 1; 2]%Z [Fin 30; Fin 10; Fin 20]) [2; 0; 1]
           (NumCol [Fin 3; Fin 1; Fin 2]) [3; 1; 2]%Z).
  - now apply price_table_rectangular.
  - cbn. apply (perm_trans (l' := [0; 2; 1])).
    + apply Permutation_sym. apply perm_trans with (l' := [0; 2; 1]); [reflexivity|].
      change [2; 0; 1] with ([2] ++ [0; 1]). change [0; 2; 1] with ([0] ++ 2 :: [1]).
      apply perm_trans with (l' := 2 :: 0 :: [1]); [apply perm_swap|reflexivity].
    + apply perm_skip. apply perm_swap.
  - reflexivity.
  - reflexivity.
  - apply NoDup_ListNoDup. repeat constructor; simpl; intuition discriminate.
Defined.
